(** * chrome-devtools-debug-mcp: the session core, embedded in Rocq

    A shallow embedding of the TypeScript sources of the session core
    (the CDP transport [CDPClient], the state projections [DebugState],
    [ScriptRegistry], [NetworkState], [ConsoleState], [FetchInterceptor],
    the facade [DebugSession], the fetch tool handlers and the selection
    done by the listing tools), followed by the properties of the
    specification that concern them and by further properties of the
    same code.

    Conventions.
    - A JavaScript [Map] is an insertion-ordered association list
      ([JsMap]): iteration order is observable in the sources
      ([keys().next()], [values()]).
    - A JavaScript string is a Rocq [string], read as the UTF-8 bytes of
      the text.
    - Integer-valued JavaScript numbers (counters, sizes, bounds) are
      [N], [nat] or [Z]; time stamps are carried as [Z], and the one
      computation the sources do on them, the difference that gives a
      duration, is the difference of the numbers. The [limit] argument
      of a listing tool, which may be any number, is a [JsNumber].
    - A function that may throw returns a [Result].
    - An [async] function is sequentialised: the environment's answer to
      an awaited CDP call is an explicit argument. *)

From Stdlib Require Import ZArith NArith Ascii String List Lia.
From stdpp Require Import base decidable option list strings pretty.

Local Open Scope string_scope.
Local Open Scope list_scope.

(** ** JavaScript values that cross the model *)

(** Errors thrown by the sources, by class. *)
Inductive JsError : Type :=
| Error (message : string)
| SyntaxError (source : string)
| PausedError (reason : option string)
| CDPClientError (code : Z) (message : string).

Inductive Result (A : Type) : Type :=
| Return (a : A)
| Throw (e : JsError).
Arguments Return {A} a.
Arguments Throw {A} e.

Definition is_return {A} (r : Result A) : bool :=
  match r with Return _ => true | Throw _ => false end.

(** Truthiness of a string: the empty string is falsy. *)
Definition truthy (s : string) : bool :=
  match s with EmptyString => false | String _ _ => true end.

(** Truthiness of an optional string ([undefined] is falsy). *)
Definition truthy_opt (o : option string) : bool :=
  match o with Some s => truthy s | None => false end.

(** ** Insertion-ordered maps (JavaScript [Map]) *)

Module JsMap.

Abbreviation t K V := (list (K * V)) (only parsing).

Section ops.
Context {K V : Type} `{EqDecision K}.
Implicit Types (m : t K V) (k : K) (v : V).

Definition empty : t K V := [].

Fixpoint get m k : option V :=
  match m with
  | [] => None
  | (k', v) :: m' => if decide (k' = k) then Some v else get m' k
  end.

Definition has m k : bool :=
  match get m k with Some _ => true | None => false end.

(** [set] keeps the position of an existing key and appends a new one. *)
Fixpoint set m k v : t K V :=
  match m with
  | [] => [(k, v)]
  | (k', v') :: m' =>
      if decide (k' = k) then (k', v) :: m' else (k', v') :: set m' k v
  end.

Definition delete m k : t K V := filter (fun p => p.1 ≠ k) m.

Definition size m : nat := length m.
Definition keys m : list K := m.*1.
Definition values m : list V := m.*2.

(** [m.keys().next().value] *)
Definition first_key m : option K := head (keys m).

(** Well-formed maps hold each key once. *)
Definition wf m : Prop := NoDup (keys m).

Lemma get_None_keys m k : get m k = None ↔ k ∉ keys m.
Proof.
  induction m as [|[k' v'] m IH]; simpl.
  - split; [intros _; apply not_elem_of_nil | done].
  - destruct (decide (k' = k)) as [->|Hne].
    + split; [done | intros Hn; exfalso; apply Hn; left].
    + rewrite IH, not_elem_of_cons. split; [by intros ?; split | by intros [_ ?]].
Qed.

Lemma get_Some_keys m k v : get m k = Some v → k ∈ keys m.
Proof.
  intros Hg. destruct (decide (k ∈ keys m)) as [|Hn]; [done|].
  apply get_None_keys in Hn. congruence.
Qed.

Lemma get_set_eq m k v : get (set m k v) k = Some v.
Proof.
  induction m as [|[k' v'] m IH]; simpl.
  - by rewrite decide_True.
  - destruct (decide (k' = k)) as [->|Hne]; simpl.
    + by rewrite decide_True.
    + by rewrite decide_False.
Qed.

Lemma get_set_ne m k k' v : k ≠ k' → get (set m k v) k' = get m k'.
Proof.
  intros Hne. induction m as [|[k0 v0] m IH]; simpl.
  - by rewrite decide_False.
  - destruct (decide (k0 = k)) as [->|Hne0]; simpl.
    + by case_decide.
    + by rewrite IH.
Qed.

Lemma get_delete_eq m k : get (delete m k) k = None.
Proof.
  apply get_None_keys. unfold keys, delete.
  intros [[k' v'] [-> Hin]]%list_elem_of_fmap.
  apply list_elem_of_filter in Hin as [Hne _]. by apply Hne.
Qed.

Lemma get_delete_ne m k k' : k ≠ k' → get (delete m k) k' = get m k'.
Proof.
  intros Hne. induction m as [|[k0 v0] m IH]; [done|].
  unfold delete in *. rewrite filter_cons. simpl.
  destruct (decide (k0 ≠ k)) as [Hk|Hk]; simpl.
  - by rewrite IH.
  - assert (k0 = k) as -> by (by apply dec_stable). by rewrite decide_False.
Qed.

Lemma keys_set_fresh m k v : k ∉ keys m → keys (set m k v) = keys m ++ [k].
Proof.
  induction m as [|[k' v'] m IH]; simpl; [done|].
  intros [Hne Hni]%not_elem_of_cons.
  rewrite decide_False by done. simpl. f_equal. by apply IH.
Qed.

Lemma set_fresh m k v : k ∉ keys m → set m k v = m ++ [(k, v)].
Proof.
  induction m as [|[k' v'] m IH]; simpl; [done|].
  intros [Hne Hni]%not_elem_of_cons.
  rewrite decide_False by done. f_equal. by apply IH.
Qed.

Lemma keys_set_present m k v : k ∈ keys m → keys (set m k v) = keys m.
Proof.
  induction m as [|[k' v'] m IH]; simpl.
  - by intros ?%elem_of_nil.
  - intros Hin. destruct (decide (k' = k)) as [->|Hne]; simpl; [done|].
    f_equal. apply IH. apply elem_of_cons in Hin as [->|]; done.
Qed.

Lemma keys_delete m k : keys (delete m k) = filter (fun k' => k' ≠ k) (keys m).
Proof.
  induction m as [|[k' v'] m IH]; [done|].
  unfold delete, keys in *. rewrite filter_cons, fmap_cons, filter_cons. cbn [fst].
  destruct (decide (k' ≠ k)); rewrite ?fmap_cons, IH; done.
Qed.

(** Deleting the head key of a well-formed map drops exactly the head. *)
Lemma delete_head k v m : wf ((k, v) :: m) → delete ((k, v) :: m) k = m.
Proof.
  unfold wf, delete. simpl. intros [Hni Hnd]%NoDup_cons.
  rewrite filter_cons. simpl. rewrite decide_False by (intros Hc; by apply Hc).
  clear Hnd. induction m as [|[k' v'] m IH]; [done|].
  simpl in Hni. apply not_elem_of_cons in Hni as [Hne Hni].
  rewrite filter_cons. simpl. rewrite decide_True by done.
  f_equal. by apply IH.
Qed.

Lemma delete_absent m k : k ∉ keys m → delete m k = m.
Proof.
  induction m as [|[k' v'] m IH]; [done|]. simpl.
  intros [Hne Hni]%not_elem_of_cons. unfold delete in *.
  rewrite filter_cons. simpl. rewrite decide_True by done.
  f_equal. by apply IH.
Qed.

Lemma wf_set m k v : wf m → wf (set m k v).
Proof.
  unfold wf. intros Hwf. destruct (decide (k ∈ keys m)) as [Hin|Hni].
  - by rewrite keys_set_present.
  - rewrite keys_set_fresh by done. apply NoDup_app. split_and!; [done| |apply NoDup_singleton].
    intros x Hx ->%list_elem_of_singleton. done.
Qed.

Lemma wf_delete m k : wf m → wf (delete m k).
Proof. unfold wf. rewrite keys_delete. apply NoDup_filter. Qed.

Lemma length_keys m : length (keys m) = size m.
Proof. unfold keys, size. by rewrite length_fmap. Qed.

Lemma length_values m : length (values m) = size m.
Proof. unfold values, size. by rewrite length_fmap. Qed.
End ops.

Arguments empty {K V}.
End JsMap.

(** ** The error monad of throwing code *)

#[export] Instance Result_ret : MRet Result := fun _ a => Return a.
#[export] Instance Result_bind : MBind Result := fun _ _ f r =>
  match r with Return a => f a | Throw e => Throw e end.
#[export] Instance Result_fmap : FMap Result := fun _ _ f r =>
  match r with Return a => Return (f a) | Throw e => Throw e end.

(** [try { body } catch { handler }] *)
Definition try_catch {A} (body : Result A) (handler : A) : Result A :=
  match body with Return a => Return a | Throw _ => Return handler end.

(** ** Strings as JavaScript uses them *)

Module Js.

(** [s.startsWith(p)] *)
Definition startsWith (s p : string) : bool := String.prefix p s.

(** [s.endsWith(p)] *)
Definition endsWith (s p : string) : bool :=
  (String.length p <=? String.length s)%nat
  && String.eqb (substring (String.length s - String.length p) (String.length p) s) p.

(** [s.slice(1, -1)]: from index 1 up to, not including, the last
    character; empty when the string has fewer than two characters. *)
Definition slice_1_m1 (s : string) : string :=
  substring 1 (String.length s - 2) s.

(** [s.replace(/c/g, f(c))] for a replacement that looks at one
    character at a time. *)
Fixpoint replace_each (f : ascii → string) (s : string) : string :=
  match s with
  | EmptyString => EmptyString
  | String c s' => f c +:+ replace_each f s'
  end.

Definition single (c : ascii) : string := String c EmptyString.

(** The character class [[.+^${}()|[\]\\]]. *)
Definition is_regex_meta (c : ascii) : bool :=
  existsb (Ascii.eqb c)
    ["."; "+"; "^"; "$"; "{"; "}"; "("; ")"; "|"; "["; "]"; "\"]%char.

(** [.replace(/[.+^${}()|[\]\\]/g, '\\$&')] *)
Definition escape_meta : string → string :=
  replace_each (fun c => if is_regex_meta c then String "\" (single c) else single c).

(** [.replace(/\*/g, '.*')] *)
Definition star_to_any : string → string :=
  replace_each (fun c => if Ascii.eqb c "*" then ".*" else single c).

(** [.replace(/\?/g, '.')] *)
Definition question_to_dot : string → string :=
  replace_each (fun c => if Ascii.eqb c "?" then "." else single c).

(** The three replacements every projection applies to a glob. *)
Definition glob_escape (pattern : string) : string :=
  question_to_dot (star_to_any (escape_meta pattern)).

End Js.

(** ** The regular-expression engine of the host

    [RegExp] is provided by the JavaScript runtime, not by the
    repository: the sources only construct expressions and call [test].
    The engine is an interface; [regexp_new] answers [None] where
    [new RegExp(source)] throws a [SyntaxError]. *)
Class RegExpEngine : Type := {
  RegExp : Type;
  regexp_new : string → option RegExp;
  regexp_test : RegExp → string → bool;
}.

Definition new_RegExp `{RegExpEngine} (source : string) : Result RegExp :=
  match regexp_new source with
  | Some r => Return r
  | None => Throw (SyntaxError source)
  end.

(** ** Protocol records (utils/types.ts), the fields the core reads *)

Definition ResourceType : Type := string.
Definition Headers : Type := list (string * string).

Record Location : Type := {
  loc_scriptId : string;
  loc_lineNumber : Z;
  loc_columnNumber : option Z;
}.

Record CallFrame : Type := {
  callFrameId : string;
  functionName : string;
  cf_location : Location;
  cf_url : string;
}.

Record ScriptInfo : Type := {
  scriptId : string;
  script_url : string;
  startLine : Z;
  endLine : Z;
  isModule : option bool;
}.

Record RequestData : Type := {
  rd_url : string;
  rd_method : string;
  rd_headers : option Headers;
  rd_postData : option string;
}.

Record FetchRequestPaused : Type := {
  frp_requestId : string;
  frp_request : RequestData;
  frp_frameId : string;
  frp_resourceType : ResourceType;
}.

Record HeaderEntry : Type := { he_name : string; he_value : string }.

(** ** state/FetchInterceptor.ts *)

Inductive InterceptAction : Type := pause | modify | mock | fail.

Record MockResponse : Type := {
  mock_status : Z;
  mock_headers : option Headers;
  mock_body : string;
}.

Record InterceptRule : Type := {
  rule_id : string;
  rule_pattern : string;
  rule_resourceTypes : option (list ResourceType);
  rule_action : InterceptAction;
  rule_modifyHeaders : option Headers;
  rule_modifyUrl : option string;
  rule_mockResponse : option MockResponse;
  rule_failReason : option string;
  rule_enabled : bool;
}.

(** [Omit<InterceptRule, 'id'>]; [enabled] may be missing at run time,
    which [addRule] provides for with [rule.enabled ?? true]. *)
Record RuleInput : Type := {
  in_pattern : string;
  in_resourceTypes : option (list ResourceType);
  in_action : InterceptAction;
  in_modifyHeaders : option Headers;
  in_modifyUrl : option string;
  in_mockResponse : option MockResponse;
  in_failReason : option string;
  in_enabled : option bool;
}.

(** [Partial<Omit<InterceptRule, 'id'>>]: [Some] for a key that is present. *)
Record RuleUpdates : Type := {
  up_pattern : option string;
  up_resourceTypes : option (list ResourceType);
  up_action : option InterceptAction;
  up_modifyHeaders : option Headers;
  up_modifyUrl : option string;
  up_mockResponse : option MockResponse;
  up_failReason : option string;
  up_enabled : option bool;
}.

(** The rule a paused request matched is recorded as it was when the
    request paused; no operation below reads through it. *)
Record PausedRequest : Type := {
  pr_requestId : string;
  pr_url : string;
  pr_method : string;
  pr_resourceType : ResourceType;
  pr_headers : Headers;
  pr_postData : option string;
  pr_timestamp : Z;
  pr_matchedRule : option InterceptRule;
}.

Record FetchSummary : Type := {
  ruleCount : nat;
  enabledRules : nat;
  pausedRequestCount : nat;
}.

Record CDPPattern : Type := {
  urlPattern : string;
  pat_resourceType : option string;
  requestStage : string;
}.

(** ** Base64, as [Buffer.from(text).toString('base64')] computes it *)

Module Base64.

Definition alphabet : string :=
  "ABCDEFGHIJKLMNOPQRSTUVWXYZabcdefghijklmnopqrstuvwxyz0123456789+/".

Definition digit (n : N) : ascii :=
  match String.get (N.to_nat n) alphabet with
  | Some c => c
  | None => "="%char
  end.

(** Three bytes give four digits; a tail of one or two bytes is padded. *)
Fixpoint encode (s : string) : string :=
  match s with
  | EmptyString => EmptyString
  | String a EmptyString =>
      let x := N_of_ascii a in
      String (digit (x / 4)) (String (digit ((x mod 4) * 16)) "==")
  | String a (String b EmptyString) =>
      let x := N_of_ascii a in
      let y := N_of_ascii b in
      String (digit (x / 4))
        (String (digit ((x mod 4) * 16 + y / 16))
           (String (digit ((y mod 16) * 4)) "="))
  | String a (String b (String c rest)) =>
      let x := N_of_ascii a in
      let y := N_of_ascii b in
      let z := N_of_ascii c in
      String (digit (x / 4))
        (String (digit ((x mod 4) * 16 + y / 16))
           (String (digit ((y mod 16) * 4 + z / 64))
              (String (digit (z mod 64)) (encode rest))))
  end%N.

End Base64.

Module FetchInterceptor.

Record t : Type := {
  rules : JsMap.t string InterceptRule;
  pausedRequests : JsMap.t string PausedRequest;
  enabled : bool;
  ruleIdCounter : N;
}.

(** Field initialisers of the class. *)
Definition new : t :=
  {| rules := []; pausedRequests := []; enabled := false; ruleIdCounter := 0 |}.

Definition setEnabled (s : t) (e : bool) : t :=
  {| rules := rules s;
     pausedRequests := if e then pausedRequests s else [];
     enabled := e;
     ruleIdCounter := ruleIdCounter s |}.

Definition isEnabled (s : t) : bool := enabled s.

(** [`rule-${n}`] *)
Definition rule_name (n : N) : string := "rule-" +:+ pretty n.

(** [{ ...rule, id, enabled: rule.enabled ?? true }] *)
Definition make_rule (id : string) (r : RuleInput) : InterceptRule :=
  {| rule_id := id;
     rule_pattern := in_pattern r;
     rule_resourceTypes := in_resourceTypes r;
     rule_action := in_action r;
     rule_modifyHeaders := in_modifyHeaders r;
     rule_modifyUrl := in_modifyUrl r;
     rule_mockResponse := in_mockResponse r;
     rule_failReason := in_failReason r;
     rule_enabled := default true (in_enabled r) |}.

Definition addRule (s : t) (rule : RuleInput) : string * t :=
  let n := (ruleIdCounter s + 1)%N in
  let id := rule_name n in
  (id, {| rules := JsMap.set (rules s) id (make_rule id rule);
          pausedRequests := pausedRequests s;
          enabled := enabled s;
          ruleIdCounter := n |}).

Definition with_rules (s : t) (rs : JsMap.t string InterceptRule) : t :=
  {| rules := rs; pausedRequests := pausedRequests s;
     enabled := enabled s; ruleIdCounter := ruleIdCounter s |}.

Definition with_paused (s : t) (ps : JsMap.t string PausedRequest) : t :=
  {| rules := rules s; pausedRequests := ps;
     enabled := enabled s; ruleIdCounter := ruleIdCounter s |}.

Definition removeRule (s : t) (ruleId : string) : bool * t :=
  (JsMap.has (rules s) ruleId, with_rules s (JsMap.delete (rules s) ruleId)).

Definition getRule (s : t) (ruleId : string) : option InterceptRule :=
  JsMap.get (rules s) ruleId.

Definition getAllRules (s : t) : list InterceptRule := JsMap.values (rules s).

(** [Object.assign(rule, updates)] *)
Definition assign_updates (r : InterceptRule) (u : RuleUpdates) : InterceptRule :=
  {| rule_id := rule_id r;
     rule_pattern := default (rule_pattern r) (up_pattern u);
     rule_resourceTypes :=
       match up_resourceTypes u with Some x => Some x | None => rule_resourceTypes r end;
     rule_action := default (rule_action r) (up_action u);
     rule_modifyHeaders :=
       match up_modifyHeaders u with Some x => Some x | None => rule_modifyHeaders r end;
     rule_modifyUrl :=
       match up_modifyUrl u with Some x => Some x | None => rule_modifyUrl r end;
     rule_mockResponse :=
       match up_mockResponse u with Some x => Some x | None => rule_mockResponse r end;
     rule_failReason :=
       match up_failReason u with Some x => Some x | None => rule_failReason r end;
     rule_enabled := default (rule_enabled r) (up_enabled u) |}.

Definition updateRule (s : t) (ruleId : string) (updates : RuleUpdates) : bool * t :=
  match JsMap.get (rules s) ruleId with
  | None => (false, s)
  | Some rule =>
      (true, with_rules s (JsMap.set (rules s) ruleId (assign_updates rule updates)))
  end.

Definition set_rule_enabled (r : InterceptRule) (e : bool) : InterceptRule :=
  {| rule_id := rule_id r; rule_pattern := rule_pattern r;
     rule_resourceTypes := rule_resourceTypes r; rule_action := rule_action r;
     rule_modifyHeaders := rule_modifyHeaders r; rule_modifyUrl := rule_modifyUrl r;
     rule_mockResponse := rule_mockResponse r; rule_failReason := rule_failReason r;
     rule_enabled := e |}.

Definition enableRule (s : t) (ruleId : string) (e : bool) : bool * t :=
  match JsMap.get (rules s) ruleId with
  | None => (false, s)
  | Some rule => (true, with_rules s (JsMap.set (rules s) ruleId (set_rule_enabled rule e)))
  end.

Definition clearRules (s : t) : t := with_rules s [].

Section matching.
Context `{RegExpEngine}.

Definition matchesPattern (url pattern : string) : Result bool :=
  if String.eqb pattern "*" then Return true
  else if Js.startsWith pattern "/" && Js.endsWith pattern "/" then
    try_catch
      (regex ← new_RegExp (Js.slice_1_m1 pattern);
       mret (regexp_test regex url))
      false
  else
    regex ← new_RegExp ("^" +:+ Js.glob_escape pattern +:+ "$");
    mret (regexp_test regex url).

(** The resource-type filter of one rule. *)
Definition type_filter_passes (rule : InterceptRule) (resourceType : ResourceType) : bool :=
  match rule_resourceTypes rule with
  | Some (ty :: tys) => existsb (String.eqb resourceType) (ty :: tys)
  | _ => true
  end.

Fixpoint find_in (rs : list InterceptRule) (url : string) (resourceType : ResourceType)
  : Result (option InterceptRule) :=
  match rs with
  | [] => Return None
  | rule :: rs' =>
      if negb (rule_enabled rule) then find_in rs' url resourceType
      else if negb (type_filter_passes rule resourceType) then find_in rs' url resourceType
      else
        hit ← matchesPattern url (rule_pattern rule);
        if (hit : bool) then mret (Some rule) else find_in rs' url resourceType
  end.

Definition findMatchingRule (s : t) (url : string) (resourceType : ResourceType)
  : Result (option InterceptRule) :=
  find_in (JsMap.values (rules s)) url resourceType.

(** [now] is the value of [Date.now()]. *)
Definition onRequestPaused (s : t) (event : FetchRequestPaused) (now : Z)
  : Result (PausedRequest * t) :=
  matched ← findMatchingRule s (rd_url (frp_request event)) (frp_resourceType event);
  let pausedReq :=
    {| pr_requestId := frp_requestId event;
       pr_url := rd_url (frp_request event);
       pr_method := rd_method (frp_request event);
       pr_resourceType := frp_resourceType event;
       pr_headers := default [] (rd_headers (frp_request event));
       pr_postData := rd_postData (frp_request event);
       pr_timestamp := now;
       pr_matchedRule := matched |} in
  mret (pausedReq,
        with_paused s (JsMap.set (pausedRequests s) (frp_requestId event) pausedReq)).
End matching.

Definition getPausedRequest (s : t) (requestId : string) : option PausedRequest :=
  JsMap.get (pausedRequests s) requestId.

Definition getAllPausedRequests (s : t) : list PausedRequest :=
  JsMap.values (pausedRequests s).

Definition removePausedRequest (s : t) (requestId : string) : t :=
  with_paused s (JsMap.delete (pausedRequests s) requestId).

Definition clearPausedRequests (s : t) : t := with_paused s [].

(** One rule's contribution to the CDP pattern list; [seen] is the set
    of keys already emitted. *)
Fixpoint add_typed (pattern : string) (types : list ResourceType)
    (acc : list CDPPattern * list string) : list CDPPattern * list string :=
  match types with
  | [] => acc
  | ty :: types' =>
      let key := pattern +:+ ":" +:+ ty in
      let acc' :=
        if bool_decide (key ∈ acc.2) then acc
        else (acc.1 ++ [{| urlPattern := pattern; pat_resourceType := Some ty;
                           requestStage := "Request" |}],
              acc.2 ++ [key]) in
      add_typed pattern types' acc'
  end.

Definition add_rule_patterns (acc : list CDPPattern * list string) (rule : InterceptRule)
  : list CDPPattern * list string :=
  if negb (rule_enabled rule) then acc
  else match rule_resourceTypes rule with
       | Some (ty :: tys) => add_typed (rule_pattern rule) (ty :: tys) acc
       | _ =>
           if bool_decide (rule_pattern rule ∈ acc.2) then acc
           else (acc.1 ++ [{| urlPattern := rule_pattern rule; pat_resourceType := None;
                              requestStage := "Request" |}],
                 acc.2 ++ [rule_pattern rule])
       end.

Definition getCDPPatterns (s : t) : list CDPPattern :=
  (foldl add_rule_patterns ([], []) (JsMap.values (rules s))).1.

Definition encodeResponseBody (body : string) : string := Base64.encode body.

Definition reset (s : t) : t :=
  {| rules := []; pausedRequests := []; enabled := enabled s; ruleIdCounter := 0 |}.

Definition getSummary (s : t) : FetchSummary :=
  {| ruleCount := JsMap.size (rules s);
     enabledRules := length (filter (fun r => rule_enabled r = true) (JsMap.values (rules s)));
     pausedRequestCount := JsMap.size (pausedRequests s) |}.

End FetchInterceptor.

Example base64_hello : Base64.encode "Hello, World!" = "SGVsbG8sIFdvcmxkIQ==".
Proof. reflexivity. Qed.

(** The body of the mocked response of the fetch scenario,
    [{"mocked":true}]; 034 is the code of the double quote. *)
Definition mocked_body : string :=
  "{" +:+ String "034" "mocked" +:+ String "034" ":true}".

Example base64_mocked : Base64.encode mocked_body = "eyJtb2NrZWQiOnRydWV9".
Proof. reflexivity. Qed.

Example rule_name_12 : FetchInterceptor.rule_name 12 = "rule-12".
Proof. reflexivity. Qed.

(** ** Untyped payloads

    Values the sources pass through as [unknown] or
    [Record<string, unknown>]. Numbers on this path are integers. *)
#[local] Set Warnings "-register-all".
Inductive Json : Type :=
| JNull
| JBool (b : bool)
| JNum (z : Z)
| JStr (s : string)
| JArr (items : list Json)
| JObj (fields : list (string * Json)).

(** [key in obj], for an object given by its fields. *)
Definition has_key (fields : list (string * Json)) (key : string) : bool :=
  JsMap.has fields key.

(** ** state/ScriptRegistry.ts *)

Module ScriptRegistry.

Record t : Type := {
  scripts : JsMap.t string ScriptInfo;
  urlToScriptIds : JsMap.t string (list string);
  sourceCache : JsMap.t string string;
}.

Definition new : t := {| scripts := []; urlToScriptIds := []; sourceCache := [] |}.

(** [Set.prototype.add] on a set kept in insertion order. *)
Definition set_add (ids : list string) (id : string) : list string :=
  if bool_decide (id ∈ ids) then ids else ids ++ [id].

Definition addScript (s : t) (script : ScriptInfo) : t :=
  {| scripts := JsMap.set (scripts s) (scriptId script) script;
     urlToScriptIds :=
       if truthy (script_url script) then
         let ids := default [] (JsMap.get (urlToScriptIds s) (script_url script)) in
         JsMap.set (urlToScriptIds s) (script_url script) (set_add ids (scriptId script))
       else urlToScriptIds s;
     sourceCache := sourceCache s |}.

Definition getScript (s : t) (id : string) : option ScriptInfo := JsMap.get (scripts s) id.

Definition getScriptsByUrl (s : t) (url : string) : list ScriptInfo :=
  match JsMap.get (urlToScriptIds s) url with
  | None => []
  | Some ids => omap (JsMap.get (scripts s)) ids
  end.

Definition getAllScripts (s : t) : list ScriptInfo := JsMap.values (scripts s).
Definition getScriptCount (s : t) : nat := JsMap.size (scripts s).

Definition hasSource (s : t) (id : string) : bool := JsMap.has (sourceCache s) id.

Section matching.
Context `{RegExpEngine}.

(** No [try] here: a [SyntaxError] of [new RegExp] escapes. *)
Definition patternToRegex (pattern : string) : Result RegExp :=
  if Js.startsWith pattern "/" && Js.endsWith pattern "/" then
    new_RegExp (Js.slice_1_m1 pattern)
  else
    new_RegExp ("^" +:+ Js.glob_escape pattern +:+ "$").

Definition findScriptsByUrlPattern (s : t) (pattern : string) : Result (list ScriptInfo) :=
  regex ← patternToRegex pattern;
  mret (List.filter
          (fun sc => truthy (script_url sc) && regexp_test regex (script_url sc))
          (JsMap.values (scripts s))).

Definition matchesUrl (url pattern : string) : Result bool :=
  regex ← patternToRegex pattern;
  mret (regexp_test regex url).
End matching.

Definition findScriptForLocation (s : t) (url : string) (lineNumber : Z) : option ScriptInfo :=
  let found := getScriptsByUrl s url in
  match found with
  | [] => None
  | first :: _ =>
      match List.find (fun sc => (startLine sc <=? lineNumber)%Z && (lineNumber <=? endLine sc)%Z) found with
      | Some sc => Some sc
      | None => Some first
      end
  end.

Definition clear (s : t) : t := new.

Definition getSummary (s : t) : nat * nat * nat :=
  (JsMap.size (scripts s),
   length (List.filter (fun sc => truthy (script_url sc)) (JsMap.values (scripts s))),
   length (List.filter (fun sc => default false (isModule sc)) (JsMap.values (scripts s)))).

End ScriptRegistry.

(** ** state/NetworkState.ts *)

Record ResponseData : Type := {
  resp_status : Z;
  resp_statusText : string;
  resp_mimeType : string;
}.

Record CollectedRequest : Type := {
  cr_requestId : string;
  cr_url : string;
  cr_method : string;
  cr_resourceType : ResourceType;
  cr_status : option Z;
  cr_statusText : option string;
  cr_mimeType : option string;
  cr_startTime : Z;
  cr_endTime : option Z;
  cr_duration : option Z;
  cr_encodedDataLength : option Z;
  cr_request : RequestData;
  cr_response : option ResponseData;
  cr_failed : option bool;
  cr_errorText : option string;
  cr_canceled : option bool;
  cr_responseBody : option string;
  cr_responseBodyBase64 : option bool;
}.

Record RequestWillBeSent : Type := {
  rws_requestId : string;
  rws_request : RequestData;
  rws_timestamp : Z;
  rws_type : ResourceType;
}.

Record ResponseReceived : Type := {
  rr_requestId : string;
  rr_response : ResponseData;
}.

Record LoadingFinished : Type := {
  lf_requestId : string;
  lf_timestamp : Z;
  lf_encodedDataLength : Z;
}.

Record LoadingFailed : Type := {
  lfail_requestId : string;
  lfail_timestamp : Z;
  lfail_errorText : string;
  lfail_canceled : option bool;
}.

Record NetworkSummary : Type := {
  net_total : nat;
  net_completed : nat;
  net_failed : nat;
  net_pending : nat;
}.

(** Truthiness of an optional number: [undefined] and [0] are falsy. *)
Definition truthy_num (o : option Z) : bool :=
  match o with Some z => negb (z =? 0)%Z | None => false end.

Module NetworkState.

Record t : Type := {
  requests : JsMap.t string CollectedRequest;
  enabled : bool;
  maxRequests : Z;
}.

Definition new : t := {| requests := []; enabled := false; maxRequests := 1000 |}.

Definition with_requests (s : t) (rs : JsMap.t string CollectedRequest) : t :=
  {| requests := rs; enabled := enabled s; maxRequests := maxRequests s |}.

Definition clear (s : t) : t := with_requests s [].

Definition setEnabled (s : t) (e : bool) : t :=
  let s' := {| requests := requests s; enabled := e; maxRequests := maxRequests s |} in
  if e then s' else clear s'.

Definition isEnabled (s : t) : bool := enabled s.

(** The record [onRequestWillBeSent] stores. *)
Definition record_of (p : RequestWillBeSent) : CollectedRequest :=
  {| cr_requestId := rws_requestId p;
     cr_url := rd_url (rws_request p);
     cr_method := rd_method (rws_request p);
     cr_resourceType := rws_type p;
     cr_status := None; cr_statusText := None; cr_mimeType := None;
     cr_startTime := rws_timestamp p;
     cr_endTime := None; cr_duration := None; cr_encodedDataLength := None;
     cr_request := rws_request p;
     cr_response := None; cr_failed := None; cr_errorText := None;
     cr_canceled := None; cr_responseBody := None; cr_responseBodyBase64 := None |}.

(** The eviction step: when the map is full, drop its oldest key,
    provided that key is truthy. *)
Definition evict_oldest (s : t) : JsMap.t string CollectedRequest :=
  if (maxRequests s <=? Z.of_nat (JsMap.size (requests s)))%Z then
    match JsMap.first_key (requests s) with
    | Some oldestKey =>
        if truthy oldestKey then JsMap.delete (requests s) oldestKey else requests s
    | None => requests s
    end
  else requests s.

Definition onRequestWillBeSent (s : t) (p : RequestWillBeSent) : t :=
  with_requests s (JsMap.set (evict_oldest s) (rws_requestId p) (record_of p)).

(** In-place update of the record of [id], when there is one. *)
Definition patch (s : t) (id : string) (f : CollectedRequest → CollectedRequest) : t :=
  match JsMap.get (requests s) id with
  | Some req => with_requests s (JsMap.set (requests s) id (f req))
  | None => s
  end.

Definition onResponseReceived (s : t) (p : ResponseReceived) : t :=
  patch s (rr_requestId p) (fun r =>
    {| cr_requestId := cr_requestId r; cr_url := cr_url r; cr_method := cr_method r;
       cr_resourceType := cr_resourceType r;
       cr_status := Some (resp_status (rr_response p));
       cr_statusText := Some (resp_statusText (rr_response p));
       cr_mimeType := Some (resp_mimeType (rr_response p));
       cr_startTime := cr_startTime r; cr_endTime := cr_endTime r;
       cr_duration := cr_duration r; cr_encodedDataLength := cr_encodedDataLength r;
       cr_request := cr_request r;
       cr_response := Some (rr_response p);
       cr_failed := cr_failed r; cr_errorText := cr_errorText r;
       cr_canceled := cr_canceled r; cr_responseBody := cr_responseBody r;
       cr_responseBodyBase64 := cr_responseBodyBase64 r |}).

Definition onLoadingFinished (s : t) (p : LoadingFinished) : t :=
  patch s (lf_requestId p) (fun r =>
    {| cr_requestId := cr_requestId r; cr_url := cr_url r; cr_method := cr_method r;
       cr_resourceType := cr_resourceType r;
       cr_status := cr_status r; cr_statusText := cr_statusText r;
       cr_mimeType := cr_mimeType r;
       cr_startTime := cr_startTime r;
       cr_endTime := Some (lf_timestamp p);
       cr_duration := Some (lf_timestamp p - cr_startTime r)%Z;
       cr_encodedDataLength := Some (lf_encodedDataLength p);
       cr_request := cr_request r; cr_response := cr_response r;
       cr_failed := cr_failed r; cr_errorText := cr_errorText r;
       cr_canceled := cr_canceled r; cr_responseBody := cr_responseBody r;
       cr_responseBodyBase64 := cr_responseBodyBase64 r |}).

Definition onLoadingFailed (s : t) (p : LoadingFailed) : t :=
  patch s (lfail_requestId p) (fun r =>
    {| cr_requestId := cr_requestId r; cr_url := cr_url r; cr_method := cr_method r;
       cr_resourceType := cr_resourceType r;
       cr_status := cr_status r; cr_statusText := cr_statusText r;
       cr_mimeType := cr_mimeType r;
       cr_startTime := cr_startTime r;
       cr_endTime := Some (lfail_timestamp p);
       cr_duration := Some (lfail_timestamp p - cr_startTime r)%Z;
       cr_encodedDataLength := cr_encodedDataLength r;
       cr_request := cr_request r; cr_response := cr_response r;
       cr_failed := Some true;
       cr_errorText := Some (lfail_errorText p);
       cr_canceled := lfail_canceled p;
       cr_responseBody := cr_responseBody r;
       cr_responseBodyBase64 := cr_responseBodyBase64 r |}).

Definition setResponseBody (s : t) (id body : string) (base64Encoded : bool) : t :=
  patch s id (fun r =>
    {| cr_requestId := cr_requestId r; cr_url := cr_url r; cr_method := cr_method r;
       cr_resourceType := cr_resourceType r;
       cr_status := cr_status r; cr_statusText := cr_statusText r;
       cr_mimeType := cr_mimeType r;
       cr_startTime := cr_startTime r; cr_endTime := cr_endTime r;
       cr_duration := cr_duration r; cr_encodedDataLength := cr_encodedDataLength r;
       cr_request := cr_request r; cr_response := cr_response r;
       cr_failed := cr_failed r; cr_errorText := cr_errorText r;
       cr_canceled := cr_canceled r;
       cr_responseBody := Some body;
       cr_responseBodyBase64 := Some base64Encoded |}).

Definition getRequest (s : t) (id : string) : option CollectedRequest :=
  JsMap.get (requests s) id.

Definition getAllRequests (s : t) : list CollectedRequest := JsMap.values (requests s).

Definition is_failed (r : CollectedRequest) : bool := default false (cr_failed r).

Section matching.
Context `{RegExpEngine}.

(** Unanchored, and without a [try]: a [SyntaxError] escapes. *)
Definition patternToRegex (pattern : string) : Result RegExp :=
  if Js.startsWith pattern "/" && Js.endsWith pattern "/" then
    new_RegExp (Js.slice_1_m1 pattern)
  else
    new_RegExp (Js.glob_escape pattern).

Definition getRequestsByUrl (s : t) (urlPattern : string) : Result (list CollectedRequest) :=
  regex ← patternToRegex urlPattern;
  mret (List.filter (fun r => regexp_test regex (cr_url r)) (getAllRequests s)).
End matching.

Definition getRequestsByType (s : t) (ty : ResourceType) : list CollectedRequest :=
  List.filter (fun r => String.eqb (cr_resourceType r) ty) (getAllRequests s).

Definition getFailedRequests (s : t) : list CollectedRequest :=
  List.filter is_failed (getAllRequests s).

Definition getPendingRequests (s : t) : list CollectedRequest :=
  List.filter (fun r => negb (truthy_num (cr_endTime r)) && negb (is_failed r))
    (getAllRequests s).

Definition getCount (s : t) : nat := JsMap.size (requests s).

Definition setMaxRequests (s : t) (max : Z) : t :=
  {| requests := requests s; enabled := enabled s; maxRequests := max |}.

Definition getSummary (s : t) : NetworkSummary :=
  let all := getAllRequests s in
  {| net_total := JsMap.size (requests s);
     net_completed :=
       length (List.filter (fun r => negb (is_failed r) && truthy_num (cr_endTime r)) all);
     net_failed := length (List.filter is_failed all);
     net_pending :=
       length (List.filter (fun r => negb (is_failed r) && negb (truthy_num (cr_endTime r))) all) |}.

End NetworkState.

(** ** state/DebugState.ts *)

Record PauseState : Type := {
  ps_isPaused : bool;
  ps_reason : option string;
  ps_callFrames : option (list CallFrame);
  ps_data : option Json;
  ps_asyncStackTrace : option Json;
  ps_hitBreakpoints : option (list string);
}.

Record ManagedBreakpoint : Type := {
  bp_id : string;
  bp_url : option string;
  bp_urlRegex : option string;
  bp_scriptId : option string;
  bp_lineNumber : Z;
  bp_columnNumber : option Z;
  bp_condition : option string;
  bp_locations : list Location;
  bp_enabled : bool;
}.

Inductive PauseOnExceptionsState : Type := poe_none | poe_uncaught | poe_all.

Record DebugStateJSON : Type := {
  json_enabled : bool;
  json_isPaused : bool;
  json_pauseReason : option string;
  json_callFrameCount : nat;
  json_breakpointCount : nat;
  json_pauseOnExceptions : PauseOnExceptionsState;
  json_asyncStackTraceDepth : Z;
}.

Module DebugState.

Record t : Type := {
  pauseState : PauseState;
  breakpoints : JsMap.t string ManagedBreakpoint;
  pauseOnExceptions : PauseOnExceptionsState;
  enabled : bool;
  asyncStackTraceDepth : Z;
  lastException : option Json;
}.

(** [{ isPaused: false }] *)
Definition running : PauseState :=
  {| ps_isPaused := false; ps_reason := None; ps_callFrames := None;
     ps_data := None; ps_asyncStackTrace := None; ps_hitBreakpoints := None |}.

Definition new : t :=
  {| pauseState := running; breakpoints := []; pauseOnExceptions := poe_none;
     enabled := false; asyncStackTraceDepth := 0; lastException := None |}.

Definition with_pauseState (s : t) (p : PauseState) : t :=
  {| pauseState := p; breakpoints := breakpoints s;
     pauseOnExceptions := pauseOnExceptions s; enabled := enabled s;
     asyncStackTraceDepth := asyncStackTraceDepth s; lastException := lastException s |}.

Definition with_breakpoints (s : t) (b : JsMap.t string ManagedBreakpoint) : t :=
  {| pauseState := pauseState s; breakpoints := b;
     pauseOnExceptions := pauseOnExceptions s; enabled := enabled s;
     asyncStackTraceDepth := asyncStackTraceDepth s; lastException := lastException s |}.

Definition setPaused (s : t) (reason : string) (callFrames : list CallFrame)
    (data asyncStackTrace : option Json) (hitBreakpoints : option (list string)) : t :=
  with_pauseState s
    {| ps_isPaused := true; ps_reason := Some reason; ps_callFrames := Some callFrames;
       ps_data := data; ps_asyncStackTrace := asyncStackTrace;
       ps_hitBreakpoints := hitBreakpoints |}.

Definition setResumed (s : t) : t := with_pauseState s running.

Definition getPauseState (s : t) : PauseState := pauseState s.
Definition isPaused (s : t) : bool := ps_isPaused (pauseState s).
Definition getCallFrames (s : t) : list CallFrame := default [] (ps_callFrames (pauseState s)).
Definition getCallFrame (s : t) (index : nat) : option CallFrame :=
  frames ← ps_callFrames (pauseState s); frames !! index.
Definition getTopCallFrame (s : t) : option CallFrame := getCallFrame s 0.

Definition addBreakpoint (s : t) (bp : ManagedBreakpoint) : t :=
  with_breakpoints s (JsMap.set (breakpoints s) (bp_id bp) bp).

Definition removeBreakpoint (s : t) (id : string) : bool * t :=
  (JsMap.has (breakpoints s) id, with_breakpoints s (JsMap.delete (breakpoints s) id)).

Definition getBreakpoint (s : t) (id : string) : option ManagedBreakpoint :=
  JsMap.get (breakpoints s) id.

Definition getAllBreakpoints (s : t) : list ManagedBreakpoint := JsMap.values (breakpoints s).

(** [bp.locations = locations] *)
Definition set_locations (bp : ManagedBreakpoint) (locations : list Location) : ManagedBreakpoint :=
  {| bp_id := bp_id bp; bp_url := bp_url bp; bp_urlRegex := bp_urlRegex bp;
     bp_scriptId := bp_scriptId bp; bp_lineNumber := bp_lineNumber bp;
     bp_columnNumber := bp_columnNumber bp; bp_condition := bp_condition bp;
     bp_locations := locations; bp_enabled := bp_enabled bp |}.

Definition updateBreakpointLocations (s : t) (id : string) (locations : list Location) : t :=
  match JsMap.get (breakpoints s) id with
  | Some bp => with_breakpoints s (JsMap.set (breakpoints s) id (set_locations bp locations))
  | None => s
  end.

Definition location_hits (scriptId : string) (lineNumber : Z) (columnNumber : option Z)
    (loc : Location) : bool :=
  String.eqb (loc_scriptId loc) scriptId && (loc_lineNumber loc =? lineNumber)%Z
  && match columnNumber with
     | None => true
     | Some c => match loc_columnNumber loc with Some c' => (c' =? c)%Z | None => false end
     end.

Definition findBreakpointByLocation (s : t) (scriptId : string) (lineNumber : Z)
    (columnNumber : option Z) : option ManagedBreakpoint :=
  List.find (fun bp => existsb (location_hits scriptId lineNumber columnNumber) (bp_locations bp))
    (JsMap.values (breakpoints s)).

Definition clearBreakpoints (s : t) : t := with_breakpoints s [].

Definition setPauseOnExceptions (s : t) (st : PauseOnExceptionsState) : t :=
  {| pauseState := pauseState s; breakpoints := breakpoints s; pauseOnExceptions := st;
     enabled := enabled s; asyncStackTraceDepth := asyncStackTraceDepth s;
     lastException := lastException s |}.

Definition getPauseOnExceptions (s : t) : PauseOnExceptionsState := pauseOnExceptions s.

Definition setLastException (s : t) (exception : option Json) : t :=
  {| pauseState := pauseState s; breakpoints := breakpoints s;
     pauseOnExceptions := pauseOnExceptions s; enabled := enabled s;
     asyncStackTraceDepth := asyncStackTraceDepth s; lastException := exception |}.

Definition getLastException (s : t) : option Json := lastException s.

Definition getAsyncStackTraceDepth (s : t) : Z := asyncStackTraceDepth s.

Definition setAsyncStackTraceDepth (s : t) (depth : Z) : t :=
  {| pauseState := pauseState s; breakpoints := breakpoints s;
     pauseOnExceptions := pauseOnExceptions s; enabled := enabled s;
     asyncStackTraceDepth := depth; lastException := lastException s |}.

Definition reset (s : t) : t :=
  {| pauseState := running; breakpoints := []; pauseOnExceptions := poe_none;
     enabled := enabled s; asyncStackTraceDepth := 0; lastException := None |}.

Definition setEnabled (s : t) (e : bool) : t :=
  let s' := {| pauseState := pauseState s; breakpoints := breakpoints s;
               pauseOnExceptions := pauseOnExceptions s; enabled := e;
               asyncStackTraceDepth := asyncStackTraceDepth s;
               lastException := lastException s |} in
  if e then s' else reset s'.

Definition isEnabled (s : t) : bool := enabled s.

Definition toJSON (s : t) : DebugStateJSON :=
  {| json_enabled := enabled s;
     json_isPaused := ps_isPaused (pauseState s);
     json_pauseReason := ps_reason (pauseState s);
     json_callFrameCount :=
       match ps_callFrames (pauseState s) with Some fs => length fs | None => 0%nat end;
     json_breakpointCount := JsMap.size (breakpoints s);
     json_pauseOnExceptions := pauseOnExceptions s;
     json_asyncStackTraceDepth := asyncStackTraceDepth s |}.

End DebugState.

(** ** state/ConsoleState.ts *)

(** A primitive carried by value in a [RemoteObject]. *)
Inductive Primitive : Type :=
| PStr (s : string)
| PInt (z : Z)
| PBool (b : bool)
| PNull.

Record RemoteObject : Type := {
  ro_type : string;
  ro_value : option Primitive;
  ro_description : option string;
}.

Record StackFrameInfo : Type := {
  sf_url : string;
  sf_lineNumber : Z;
  sf_columnNumber : Z;
}.

Record ConsoleAPICalled : Type := {
  cac_type : string;
  cac_args : list RemoteObject;
  cac_executionContextId : Z;
  cac_timestamp : Z;
  cac_stackTrace : option (list StackFrameInfo);
}.

Record CollectedConsoleMessage : Type := {
  msg_id : N;
  msg_type : string;
  msg_level : string;
  msg_text : string;
  msg_args : list RemoteObject;
  msg_url : option string;
  msg_line : option Z;
  msg_column : option Z;
  msg_timestamp : Z;
  msg_executionContextId : Z;
}.

Record CollectedException : Type := {
  exc_id : N;
  exc_timestamp : Z;
  exc_details : Json;
}.

Record ConsoleSummary : Type := {
  con_total : nat;
  con_errors : nat;
  con_warnings : nat;
  con_exceptions : nat;
}.

Module ConsoleState.

Record t : Type := {
  messages : list CollectedConsoleMessage;
  exceptions : list CollectedException;
  enabled : bool;
  maxMessages : Z;
  messageIdCounter : N;
  exceptionIdCounter : N;
}.

Definition new : t :=
  {| messages := []; exceptions := []; enabled := false; maxMessages := 1000;
     messageIdCounter := 0; exceptionIdCounter := 0 |}.

Definition clear (s : t) : t :=
  {| messages := []; exceptions := []; enabled := enabled s; maxMessages := maxMessages s;
     messageIdCounter := messageIdCounter s; exceptionIdCounter := exceptionIdCounter s |}.

Definition setEnabled (s : t) (e : bool) : t :=
  let s' := {| messages := messages s; exceptions := exceptions s; enabled := e;
               maxMessages := maxMessages s; messageIdCounter := messageIdCounter s;
               exceptionIdCounter := exceptionIdCounter s |} in
  if e then s' else clear s'.

Definition isEnabled (s : t) : bool := enabled s.

(** [String(value)] on a primitive. *)
Definition to_String (v : Primitive) : string :=
  match v with
  | PStr s => s
  | PInt z => pretty z
  | PBool true => "true"
  | PBool false => "false"
  | PNull => "null"
  end.

(** The text of one console argument. A string argument whose value
    is missing or [null] renders as the empty string, as [join] does. *)
Definition arg_text (arg : RemoteObject) : string :=
  if String.eqb (ro_type arg) "string" then
    match ro_value arg with
    | Some PNull | None => EmptyString
    | Some v => to_String v
    end
  else if String.eqb (ro_type arg) "undefined" then "undefined"
  else match ro_value arg with
       | Some v => to_String v
       | None =>
           if truthy_opt (ro_description arg) then default EmptyString (ro_description arg)
           else "[" +:+ ro_type arg +:+ "]"
       end.

(** [parts.join(' ')] *)
Fixpoint join_space (parts : list string) : string :=
  match parts with
  | [] => EmptyString
  | [p] => p
  | p :: rest => p +:+ " " +:+ join_space rest
  end.

Definition typeToLevel (ty : string) : string :=
  if String.eqb ty "error" || String.eqb ty "assert" then "error"
  else if String.eqb ty "warning" || String.eqb ty "warn" then "warning"
  else if String.eqb ty "info" then "info"
  else if String.eqb ty "debug" || String.eqb ty "trace" then "debug"
  else "log".

(** [shift] when full, then [push]. *)
Definition bounded_push {A} (max : Z) (l : list A) (x : A) : list A :=
  (if (max <=? Z.of_nat (length l))%Z then tail l else l) ++ [x].

Definition onConsoleAPICalled (s : t) (p : ConsoleAPICalled) : CollectedConsoleMessage * t :=
  let id := (messageIdCounter s + 1)%N in
  let frame := frames ← cac_stackTrace p; head frames in
  let msg :=
    {| msg_id := id; msg_type := cac_type p; msg_level := typeToLevel (cac_type p);
       msg_text := join_space (map arg_text (cac_args p));
       msg_args := cac_args p;
       msg_url := sf_url <$> frame;
       msg_line := sf_lineNumber <$> frame;
       msg_column := sf_columnNumber <$> frame;
       msg_timestamp := cac_timestamp p;
       msg_executionContextId := cac_executionContextId p |} in
  (msg, {| messages := bounded_push (maxMessages s) (messages s) msg;
           exceptions := exceptions s; enabled := enabled s;
           maxMessages := maxMessages s; messageIdCounter := id;
           exceptionIdCounter := exceptionIdCounter s |}).

Definition onExceptionThrown (s : t) (timestamp : Z) (details : Json) : CollectedException * t :=
  let id := (exceptionIdCounter s + 1)%N in
  let exc := {| exc_id := id; exc_timestamp := timestamp; exc_details := details |} in
  (exc, {| messages := messages s;
           exceptions := bounded_push (maxMessages s) (exceptions s) exc;
           enabled := enabled s; maxMessages := maxMessages s;
           messageIdCounter := messageIdCounter s; exceptionIdCounter := id |}).

Definition getMessages (s : t) : list CollectedConsoleMessage := messages s.

Definition getMessagesByLevel (s : t) (level : string) : list CollectedConsoleMessage :=
  List.filter (fun m => String.eqb (msg_level m) level) (messages s).

Definition getMessagesByType (s : t) (ty : string) : list CollectedConsoleMessage :=
  List.filter (fun m => String.eqb (msg_type m) ty) (messages s).

Definition getErrors (s : t) : list CollectedConsoleMessage := getMessagesByLevel s "error".
Definition getWarnings (s : t) : list CollectedConsoleMessage := getMessagesByLevel s "warning".
Definition getExceptions (s : t) : list CollectedException := exceptions s.
Definition getMessageCount (s : t) : nat := length (messages s).
Definition getExceptionCount (s : t) : nat := length (exceptions s).

Definition getSummary (s : t) : ConsoleSummary :=
  {| con_total := length (messages s);
     con_errors := length (getMessagesByLevel s "error");
     con_warnings := length (getMessagesByLevel s "warning");
     con_exceptions := length (exceptions s) |}.



End ConsoleState.

(** Console flattening, the scenario of the specification. *)
Example console_flattening :
  ConsoleState.join_space (map ConsoleState.arg_text
    [ {| ro_type := "number"; ro_value := Some (PInt 42); ro_description := None |};
      {| ro_type := "boolean"; ro_value := Some (PBool true); ro_description := None |};
      {| ro_type := "undefined"; ro_value := None; ro_description := None |};
      {| ro_type := "object"; ro_value := None; ro_description := Some "[object Object]" |} ])
  = "42 true undefined [object Object]".
Proof. reflexivity. Qed.

(** ** cdp-client.ts: the transport *)

Record CDPRequest : Type := {
  req_id : N;
  req_method : string;
  req_params : option (list (string * Json));
  req_sessionId : option string;
}.

Record CDPError : Type := {
  err_code : Z;
  err_message : string;
  err_data : option Json;
}.

Record CDPResponse : Type := {
  response_id : N;
  response_result : option Json;
  response_error : option CDPError;
}.

Record PausedParams : Type := {
  pp_callFrames : list CallFrame;
  pp_reason : string;
  pp_data : option Json;
  pp_hitBreakpoints : option (list string);
  pp_asyncStackTrace : option Json;
}.

Record LogEntry : Type := {
  log_source : string;
  log_level : string;
  log_text : string;
  log_timestamp : Z;
}.

Record ServiceWorkerRegistration : Type := {
  registrationId : string;
  scopeURL : string;
  isDeleted : bool;
}.

Record ServiceWorkerVersion : Type := {
  versionId : string;
  ver_registrationId : string;
  ver_status : string;
}.

(** The events the facade subscribes to, with the parameters its
    handlers read; any other method is [OtherEvent]. *)
Inductive CDPEvent : Type :=
| Debugger_scriptParsed (script : ScriptInfo)
| Debugger_paused (params : PausedParams)
| Debugger_resumed
| Debugger_breakpointResolved (breakpointId : string) (location : Location)
| Runtime_consoleAPICalled (params : ConsoleAPICalled)
| Runtime_exceptionThrown (timestamp : Z) (exceptionDetails : Json)
| Network_requestWillBeSent (params : RequestWillBeSent)
| Network_responseReceived (params : ResponseReceived)
| Network_loadingFinished (params : LoadingFinished)
| Network_loadingFailed (params : LoadingFailed)
| Fetch_requestPaused (params : FetchRequestPaused)
| Log_entryAdded (entry : LogEntry)
| ServiceWorker_workerRegistrationUpdated (registrations : list ServiceWorkerRegistration)
| ServiceWorker_workerVersionUpdated (versions : list ServiceWorkerVersion)
| DOM_documentUpdated
| OtherEvent (method : string) (params : Json).

(** An inbound frame, after [JSON.parse]. *)
Inductive Inbound : Type :=
| Malformed (data : string)
| InResponse (response : CDPResponse)
| InEvent (event : CDPEvent)
| InOther.

(** How a pending request was settled, by the code path that did it. *)
Inductive Settlement : Type :=
| ByResponse (result : option Json)
| ByProtocolError (error : CDPError)
| ByTimeout (method : string)
| ByDisconnect (message : string).

(** The value the caller's promise settles with. *)
Definition settlement_value (id : N) (o : Settlement) : Result (option Json) :=
  match o with
  | ByResponse result => Return result
  | ByProtocolError e => Throw (CDPClientError (err_code e) (err_message e))
  | ByTimeout method =>
      Throw (Error ("Request timeout: " +:+ method +:+ " (" +:+ pretty id +:+ ")"))
  | ByDisconnect message => Throw (Error message)
  end.

Record PendingRequest : Type := {
  pending_method : string;
  pending_timeout : N;
}.

Module CDPClient.

(** The fields of the class, and the part of the environment it acts
    on: the armed timers (each named by the request id its callback
    closes over, with the method it reports), the frames written to
    the socket, and the calls made to [resolve] and [reject]. *)
Record t : Type := {
  ws : bool;
  requestId : N;
  pendingRequests : JsMap.t N PendingRequest;
  sessionId : option string;
  timeout : Z;
  connected : bool;
  timers : list (N * string);
  wire : list CDPRequest;
  settled : list (N * Settlement);
}.

Definition new (timeout_option : option Z) : t :=
  {| ws := false; requestId := 0; pendingRequests := []; sessionId := None;
     timeout := default 30000%Z timeout_option; connected := false;
     timers := []; wire := []; settled := [] |}.

(** [clearTimeout(handle)] *)
Definition clearTimeout (ts : list (N * string)) (handle : N) : list (N * string) :=
  filter (fun e => e.1 ≠ handle) ts.

(** [connect]: a socket is created unless the client is connected. *)
Definition connect (c : t) : Result unit * t :=
  if connected c then (Throw (Error "Already connected"), c)
  else (Return (),
        {| ws := true; requestId := requestId c; pendingRequests := pendingRequests c;
           sessionId := sessionId c; timeout := timeout c; connected := connected c;
           timers := timers c; wire := wire c; settled := settled c |}).

(** The socket's [open] event. *)
Definition on_open (c : t) : t :=
  {| ws := ws c; requestId := requestId c; pendingRequests := pendingRequests c;
     sessionId := sessionId c; timeout := timeout c; connected := true;
     timers := timers c; wire := wire c; settled := settled c |}.

Definition isConnected (c : t) : bool := connected c.

Definition setSessionId (c : t) (sid : option string) : t :=
  {| ws := ws c; requestId := requestId c; pendingRequests := pendingRequests c;
     sessionId := sid; timeout := timeout c; connected := connected c;
     timers := timers c; wire := wire c; settled := settled c |}.

(** One turn of the loop of [rejectAllPending]. *)
Definition reject_one (message : string)
    (acc : list (N * string) * list (N * Settlement)) (entry : N * PendingRequest)
  : list (N * string) * list (N * Settlement) :=
  (clearTimeout acc.1 (pending_timeout entry.2), acc.2 ++ [(entry.1, ByDisconnect message)]).

Definition rejectAllPending (c : t) (message : string) : t :=
  let '(ts, log) := foldl (reject_one message) (timers c, settled c) (pendingRequests c) in
  {| ws := ws c; requestId := requestId c; pendingRequests := [];
     sessionId := sessionId c; timeout := timeout c; connected := connected c;
     timers := ts; wire := wire c; settled := log |}.

Definition disconnect (c : t) : t :=
  if ws c then
    rejectAllPending
      {| ws := false; requestId := requestId c; pendingRequests := pendingRequests c;
         sessionId := sessionId c; timeout := timeout c; connected := false;
         timers := timers c; wire := wire c; settled := settled c |}
      "Disconnected"
  else c.

(** The socket's [close] event. *)
Definition on_close (c : t) : t :=
  rejectAllPending
    {| ws := ws c; requestId := requestId c; pendingRequests := pendingRequests c;
       sessionId := sessionId c; timeout := timeout c; connected := false;
       timers := timers c; wire := wire c; settled := settled c |}
    "Connection closed".

(** [send], up to the point where the promise is handed back: the id
    is allocated, the timer armed, the slot registered and the frame
    written. The result is the id the caller now waits on. *)
Definition send (c : t) (method : string) (params : option (list (string * Json)))
  : Result N * t :=
  if negb (ws c) || negb (connected c) then (Throw (Error "Not connected"), c)
  else
    let id := (requestId c + 1)%N in
    (Return id,
     {| ws := ws c; requestId := id;
        pendingRequests :=
          JsMap.set (pendingRequests c) id {| pending_method := method; pending_timeout := id |};
        sessionId := sessionId c; timeout := timeout c; connected := connected c;
        timers := timers c ++ [(id, method)];
        wire := wire c ++ [{| req_id := id; req_method := method; req_params := params;
                              req_sessionId :=
                                if truthy_opt (sessionId c) then sessionId c else None |}];
        settled := settled c |}).

(** The callback of the timer armed by [send] for [id]; it runs only
    while the timer is armed. *)
Definition timer_fire (c : t) (id : N) : t :=
  match JsMap.get (timers c) id with
  | None => c
  | Some method =>
      {| ws := ws c; requestId := requestId c;
         pendingRequests := JsMap.delete (pendingRequests c) id;
         sessionId := sessionId c; timeout := timeout c; connected := connected c;
         timers := clearTimeout (timers c) id;
         wire := wire c;
         settled := settled c ++ [(id, ByTimeout method)] |}
  end.

Definition handleResponse (c : t) (response : CDPResponse) : t :=
  match JsMap.get (pendingRequests c) (response_id response) with
  | None => c
  | Some pending =>
      {| ws := ws c; requestId := requestId c;
         pendingRequests := JsMap.delete (pendingRequests c) (response_id response);
         sessionId := sessionId c; timeout := timeout c; connected := connected c;
         timers := clearTimeout (timers c) (pending_timeout pending);
         wire := wire c;
         settled :=
           settled c ++
             [(response_id response,
               match response_error response with
               | Some e => ByProtocolError e
               | None => ByResponse (response_result response)
               end)] |}
  end.

(** [handleMessage]: the new state and the event emitted, if any. *)
Definition handleMessage (c : t) (m : Inbound) : t * option CDPEvent :=
  match m with
  | Malformed _ => (c, None)
  | InResponse r => (handleResponse c r, None)
  | InEvent e => (c, Some e)
  | InOther => (c, None)
  end.

(** What can happen to a client, one step at a time. *)
Inductive Action : Type :=
| DoConnect
| SocketOpen
| DoSend (method : string) (params : option (list (string * Json)))
| Receive (m : Inbound)
| TimerFires (id : N)
| DoDisconnect
| SocketClose.

Definition step (c : t) (a : Action) : t :=
  match a with
  | DoConnect => (connect c).2
  | SocketOpen => on_open c
  | DoSend method params => (send c method params).2
  | Receive m => (handleMessage c m).1
  | TimerFires id => timer_fire c id
  | DoDisconnect => disconnect c
  | SocketClose => on_close c
  end.

Definition run (c : t) (trace : list Action) : t := foldl step c trace.

(** The slot of [id] is occupied. *)
Definition is_pending (c : t) (id : N) : bool := JsMap.has (pendingRequests c) id.

(** The settlements recorded for [id]. *)
Definition settlements_of (c : t) (id : N) : list Settlement :=
  (filter (fun e => e.1 = id) (settled c)).*2.

End CDPClient.

(** ** The environment's answer to an awaited CDP call *)

Inductive Reply : Type :=
| ReplyResult (result : option Json)
| ReplyError (error : CDPError)
| ReplyTimeout
| ReplyClose.

(** A promise, when the function that awaits it is resumed or left. *)
Inductive Awaited (A : Type) : Type :=
| Fulfilled (a : A)
| Rejected (e : JsError)
| Unsettled.
Arguments Fulfilled {A} a.
Arguments Rejected {A} e.
Arguments Unsettled {A}.

(** The answer of the environment, applied to the request [id]: the
    value the caller's promise settles with, and the client after the
    code path that settled it. *)
Definition apply_reply (c : CDPClient.t) (id : N) (method : string) (reply : Reply)
  : Result (option Json) * CDPClient.t :=
  match reply with
  | ReplyResult r =>
      (settlement_value id (ByResponse r),
       CDPClient.handleResponse c
         {| response_id := id; response_result := r; response_error := None |})
  | ReplyError e =>
      (settlement_value id (ByProtocolError e),
       CDPClient.handleResponse c
         {| response_id := id; response_result := None; response_error := Some e |})
  | ReplyTimeout => (settlement_value id (ByTimeout method), CDPClient.timer_fire c id)
  | ReplyClose => (settlement_value id (ByDisconnect "Connection closed"), CDPClient.on_close c)
  end.

(** [await this.client.send(method, params)], answered by [reply] with
    no other frame in between. *)
Definition await_send (c : CDPClient.t) (method : string)
    (params : option (list (string * Json))) (reply : Reply)
  : Result (option Json) * CDPClient.t :=
  match CDPClient.send c method params with
  | (Throw e, c') => (Throw e, c')
  | (Return id, c') => apply_reply c' id method reply
  end.

(** [e instanceof Error ? e.message : String(e)]; the text of a
    [SyntaxError] is the engine's, given here up to its diagnostic. *)
Definition error_message (e : JsError) : string :=
  match e with
  | Error m => m
  | SyntaxError source => "Invalid regular expression: /" +:+ source +:+ "/"
  | PausedError reason =>
      "Execution blocked: debugger is paused" +:+
        (if truthy_opt reason then " (" +:+ default EmptyString reason +:+ ")" else EmptyString)
  | CDPClientError _ m => m
  end.

(** ** DebugSession.ts: the facade *)

Record EvalOptions : Type := {
  eo_objectGroup : option string;
  eo_contextId : option Z;
  eo_returnByValue : option bool;
  eo_generatePreview : option bool;
  eo_awaitPromise : option bool;
  eo_timeout : option Z;
}.

Record EvalResult : Type := {
  ev_response : option Json;
  ev_paused : bool;
  ev_pauseReason : option string;
  ev_callFrames : option (list CallFrame);
}.

(** Which of the two racing promises of [evaluate] settles first. *)
Inductive Race : Type :=
| PauseFirst (params : PausedParams)
| ReplyFirst (reply : Reply).

Record ContinueOptions : Type := {
  co_url : option string;
  co_method : option string;
  co_postData : option string;
  co_headers : option (list HeaderEntry);
}.

(** The options object handed to [fulfillRequest]. The method declares
    and reads [responseHeaders], [body] and [responsePhrase];
    [bodyBase64] is a key the file tool puts in the object. *)
Record FulfillOptions : Type := {
  fo_responseHeaders : option (list HeaderEntry);
  fo_body : option string;
  fo_responsePhrase : option string;
  fo_bodyBase64 : option string;
}.

Definition headers_json (hs : list HeaderEntry) : Json :=
  JArr (map (fun h => JObj [("name", JStr (he_name h)); ("value", JStr (he_value h))]) hs).

(** [if (x) params.key = x], for an optional string. *)
Definition opt_field (key : string) (x : option string) : list (string * Json) :=
  match x with
  | Some v => if truthy v then [(key, JStr v)] else []
  | None => []
  end.

Module DebugSession.

Record t : Type := {
  client : CDPClient.t;
  debugState : DebugState.t;
  scriptRegistry : ScriptRegistry.t;
  networkState : NetworkState.t;
  fetchInterceptor : FetchInterceptor.t;
  consoleState : ConsoleState.t;
  logEntries : list LogEntry;
  logEnabled : bool;
  serviceWorkerRegistrations : JsMap.t string ServiceWorkerRegistration;
  serviceWorkerVersions : JsMap.t string ServiceWorkerVersion;
  serviceWorkerEnabled : bool;
  domEnabled : bool;
  documentNodeId : option Z;
  targetId : option string;
  sessionId : option string;
}.

Definition new (timeout_option : option Z) : t :=
  {| client := CDPClient.new timeout_option;
     debugState := DebugState.new;
     scriptRegistry := ScriptRegistry.new;
     networkState := NetworkState.new;
     fetchInterceptor := FetchInterceptor.new;
     consoleState := ConsoleState.new;
     logEntries := []; logEnabled := false;
     serviceWorkerRegistrations := []; serviceWorkerVersions := [];
     serviceWorkerEnabled := false; domEnabled := false;
     documentNodeId := None; targetId := None; sessionId := None |}.

Definition with_client (s : t) (c : CDPClient.t) : t :=
  {| client := c; debugState := debugState s; scriptRegistry := scriptRegistry s;
     networkState := networkState s; fetchInterceptor := fetchInterceptor s;
     consoleState := consoleState s; logEntries := logEntries s;
     logEnabled := logEnabled s;
     serviceWorkerRegistrations := serviceWorkerRegistrations s;
     serviceWorkerVersions := serviceWorkerVersions s;
     serviceWorkerEnabled := serviceWorkerEnabled s; domEnabled := domEnabled s;
     documentNodeId := documentNodeId s; targetId := targetId s;
     sessionId := sessionId s |}.

Definition with_debugState (s : t) (d : DebugState.t) : t :=
  {| client := client s; debugState := d; scriptRegistry := scriptRegistry s;
     networkState := networkState s; fetchInterceptor := fetchInterceptor s;
     consoleState := consoleState s; logEntries := logEntries s;
     logEnabled := logEnabled s;
     serviceWorkerRegistrations := serviceWorkerRegistrations s;
     serviceWorkerVersions := serviceWorkerVersions s;
     serviceWorkerEnabled := serviceWorkerEnabled s; domEnabled := domEnabled s;
     documentNodeId := documentNodeId s; targetId := targetId s;
     sessionId := sessionId s |}.

Definition with_scriptRegistry (s : t) (r : ScriptRegistry.t) : t :=
  {| client := client s; debugState := debugState s; scriptRegistry := r;
     networkState := networkState s; fetchInterceptor := fetchInterceptor s;
     consoleState := consoleState s; logEntries := logEntries s;
     logEnabled := logEnabled s;
     serviceWorkerRegistrations := serviceWorkerRegistrations s;
     serviceWorkerVersions := serviceWorkerVersions s;
     serviceWorkerEnabled := serviceWorkerEnabled s; domEnabled := domEnabled s;
     documentNodeId := documentNodeId s; targetId := targetId s;
     sessionId := sessionId s |}.

Definition with_networkState (s : t) (n : NetworkState.t) : t :=
  {| client := client s; debugState := debugState s; scriptRegistry := scriptRegistry s;
     networkState := n; fetchInterceptor := fetchInterceptor s;
     consoleState := consoleState s; logEntries := logEntries s;
     logEnabled := logEnabled s;
     serviceWorkerRegistrations := serviceWorkerRegistrations s;
     serviceWorkerVersions := serviceWorkerVersions s;
     serviceWorkerEnabled := serviceWorkerEnabled s; domEnabled := domEnabled s;
     documentNodeId := documentNodeId s; targetId := targetId s;
     sessionId := sessionId s |}.

Definition with_fetchInterceptor (s : t) (f : FetchInterceptor.t) : t :=
  {| client := client s; debugState := debugState s; scriptRegistry := scriptRegistry s;
     networkState := networkState s; fetchInterceptor := f;
     consoleState := consoleState s; logEntries := logEntries s;
     logEnabled := logEnabled s;
     serviceWorkerRegistrations := serviceWorkerRegistrations s;
     serviceWorkerVersions := serviceWorkerVersions s;
     serviceWorkerEnabled := serviceWorkerEnabled s; domEnabled := domEnabled s;
     documentNodeId := documentNodeId s; targetId := targetId s;
     sessionId := sessionId s |}.

Definition with_consoleState (s : t) (k : ConsoleState.t) : t :=
  {| client := client s; debugState := debugState s; scriptRegistry := scriptRegistry s;
     networkState := networkState s; fetchInterceptor := fetchInterceptor s;
     consoleState := k; logEntries := logEntries s;
     logEnabled := logEnabled s;
     serviceWorkerRegistrations := serviceWorkerRegistrations s;
     serviceWorkerVersions := serviceWorkerVersions s;
     serviceWorkerEnabled := serviceWorkerEnabled s; domEnabled := domEnabled s;
     documentNodeId := documentNodeId s; targetId := targetId s;
     sessionId := sessionId s |}.

(** The fields the facade keeps itself. *)
Definition with_own (s : t) (entries : list LogEntry)
    (regs : JsMap.t string ServiceWorkerRegistration)
    (vers : JsMap.t string ServiceWorkerVersion) (doc : option Z) : t :=
  {| client := client s; debugState := debugState s; scriptRegistry := scriptRegistry s;
     networkState := networkState s; fetchInterceptor := fetchInterceptor s;
     consoleState := consoleState s; logEntries := entries;
     logEnabled := logEnabled s;
     serviceWorkerRegistrations := regs; serviceWorkerVersions := vers;
     serviceWorkerEnabled := serviceWorkerEnabled s; domEnabled := domEnabled s;
     documentNodeId := doc; targetId := targetId s; sessionId := sessionId s |}.

(** [push], then [shift] once the buffer holds more than 1000. *)
Definition push_log (entries : list LogEntry) (e : LogEntry) : list LogEntry :=
  let entries' := entries ++ [e] in
  if (1000 <? length entries')%nat then tail entries' else entries'.

Definition upsert_registration (regs : JsMap.t string ServiceWorkerRegistration)
    (reg : ServiceWorkerRegistration) : JsMap.t string ServiceWorkerRegistration :=
  if isDeleted reg then JsMap.delete regs (registrationId reg)
  else JsMap.set regs (registrationId reg) reg.

Section handlers.
Context `{RegExpEngine}.

(** The handlers installed by [setupEventHandlers], by event.
    [now] is [Date.now()] at the time of the event. *)
Definition on_event (s : t) (e : CDPEvent) (now : Z) : Result t :=
  match e with
  | Debugger_scriptParsed script =>
      mret (with_scriptRegistry s (ScriptRegistry.addScript (scriptRegistry s) script))
  | Debugger_paused p =>
      mret (with_debugState s
              (DebugState.setPaused (debugState s) (pp_reason p) (pp_callFrames p)
                 (pp_data p) (pp_asyncStackTrace p) (pp_hitBreakpoints p)))
  | Debugger_resumed =>
      mret (with_debugState s (DebugState.setResumed (debugState s)))
  | Debugger_breakpointResolved breakpointId location =>
      mret (with_debugState s
              (DebugState.updateBreakpointLocations (debugState s) breakpointId [location]))
  | Runtime_consoleAPICalled p =>
      mret (with_consoleState s (ConsoleState.onConsoleAPICalled (consoleState s) p).2)
  | Runtime_exceptionThrown timestamp details =>
      mret (with_consoleState s
              (ConsoleState.onExceptionThrown (consoleState s) timestamp details).2)
  | Network_requestWillBeSent p =>
      mret (with_networkState s (NetworkState.onRequestWillBeSent (networkState s) p))
  | Network_responseReceived p =>
      mret (with_networkState s (NetworkState.onResponseReceived (networkState s) p))
  | Network_loadingFinished p =>
      mret (with_networkState s (NetworkState.onLoadingFinished (networkState s) p))
  | Network_loadingFailed p =>
      mret (with_networkState s (NetworkState.onLoadingFailed (networkState s) p))
  | Fetch_requestPaused p =>
      r ← FetchInterceptor.onRequestPaused (fetchInterceptor s) p now;
      mret (with_fetchInterceptor s r.2)
  | Log_entryAdded entry =>
      mret (with_own s (push_log (logEntries s) entry) (serviceWorkerRegistrations s)
              (serviceWorkerVersions s) (documentNodeId s))
  | ServiceWorker_workerRegistrationUpdated regs =>
      mret (with_own s (logEntries s)
              (foldl upsert_registration (serviceWorkerRegistrations s) regs)
              (serviceWorkerVersions s) (documentNodeId s))
  | ServiceWorker_workerVersionUpdated vers =>
      mret (with_own s (logEntries s) (serviceWorkerRegistrations s)
              (foldl (fun m v => JsMap.set m (versionId v) v) (serviceWorkerVersions s) vers)
              (documentNodeId s))
  | DOM_documentUpdated =>
      mret (with_own s (logEntries s) (serviceWorkerRegistrations s)
              (serviceWorkerVersions s) None)
  | OtherEvent _ _ => mret s
  end.
End handlers.

(** [reset], run on disconnect and kill. *)
Definition reset (s : t) : t :=
  {| client := client s;
     debugState := DebugState.reset (debugState s);
     scriptRegistry := ScriptRegistry.clear (scriptRegistry s);
     networkState := NetworkState.clear (networkState s);
     fetchInterceptor := FetchInterceptor.reset (fetchInterceptor s);
     consoleState := ConsoleState.clear (consoleState s);
     logEntries := []; logEnabled := logEnabled s;
     serviceWorkerRegistrations := []; serviceWorkerVersions := [];
     serviceWorkerEnabled := serviceWorkerEnabled s; domEnabled := domEnabled s;
     documentNodeId := None; targetId := None; sessionId := None |}.

Definition disconnect (s : t) : t :=
  reset (with_client s (CDPClient.disconnect (client s))).

(** A command that awaits one CDP call and then runs [after] on the
    session; a failed call leaves the projections as they were. *)
Definition command (s : t) (method : string) (params : option (list (string * Json)))
    (reply : Reply) (after : t → t) : Result unit * t :=
  match await_send (client s) method params reply with
  | (Return _, c) => (Return (), after (with_client s c))
  | (Throw e, c) => (Throw e, with_client s c)
  end.


Definition disableDebugger (s : t) (reply : Reply) : Result unit * t :=
  command s "Debugger.disable" None reply
    (fun s' => with_debugState s' (DebugState.setEnabled (debugState s') false)).

Definition enableRuntime (s : t) (reply : Reply) : Result unit * t :=
  command s "Runtime.enable" None reply
    (fun s' => with_consoleState s' (ConsoleState.setEnabled (consoleState s') true)).

Definition disableRuntime (s : t) (reply : Reply) : Result unit * t :=
  command s "Runtime.disable" None reply
    (fun s' => with_consoleState s' (ConsoleState.setEnabled (consoleState s') false)).

Definition enableNetwork (s : t) (reply : Reply) : Result unit * t :=
  command s "Network.enable" None reply
    (fun s' => with_networkState s' (NetworkState.setEnabled (networkState s') true)).

Definition disableNetwork (s : t) (reply : Reply) : Result unit * t :=
  command s "Network.disable" None reply
    (fun s' => with_networkState s' (NetworkState.setEnabled (networkState s') false)).

Definition disableFetch (s : t) (reply : Reply) : Result unit * t :=
  command s "Fetch.disable" None reply
    (fun s' => with_fetchInterceptor s' (FetchInterceptor.setEnabled (fetchInterceptor s') false)).

(** The parameters of [Runtime.evaluate]. *)
Definition evaluate_params (expression : string) (options : EvalOptions)
  : list (string * Json) :=
  [("expression", JStr expression);
   ("objectGroup", JStr (default "console" (eo_objectGroup options)));
   ("returnByValue", JBool (default false (eo_returnByValue options)));
   ("generatePreview", JBool (default true (eo_generatePreview options)));
   ("awaitPromise", JBool (default false (eo_awaitPromise options)))].

(** The result returned when the pause wins the race. *)
Definition paused_result (p : PausedParams) : EvalResult :=
  {| ev_response := Some (JObj [("result", JObj [("type", JStr "undefined")])]);
     ev_paused := true;
     ev_pauseReason := Some (pp_reason p);
     ev_callFrames := Some (pp_callFrames p) |}.

Definition plain_result (r : option Json) : EvalResult :=
  {| ev_response := r; ev_paused := false; ev_pauseReason := None; ev_callFrames := None |}.

Definition settle_eval (r : Result (option Json)) : Awaited EvalResult :=
  match r with
  | Return v => Fulfilled (plain_result v)
  | Throw e => Rejected e
  end.

(** [evaluate]. The pause check comes first and throws before
    anything is sent. Otherwise the call is issued; with the debugger
    disabled the reply alone settles the promise, with it enabled the
    reply races the next [Debugger.paused] event, whose handler has
    stored the pause by the time the race is decided. *)
Definition evaluate (s : t) (expression : string) (options : EvalOptions) (race : Race)
  : Awaited EvalResult * t :=
  if DebugState.isPaused (debugState s) then
    (Rejected (PausedError (ps_reason (DebugState.getPauseState (debugState s)))), s)
  else
    match CDPClient.send (client s) "Runtime.evaluate"
            (Some (evaluate_params expression options)) with
    | (Throw e, c) => (Rejected e, with_client s c)
    | (Return id, c) =>
        let s1 := with_client s c in
        match race with
        | ReplyFirst reply =>
            let '(r, c') := apply_reply c id "Runtime.evaluate" reply in
            (settle_eval r, with_client s1 c')
        | PauseFirst p =>
            let s2 := with_debugState s1
                        (DebugState.setPaused (debugState s1) (pp_reason p) (pp_callFrames p)
                           (pp_data p) (pp_asyncStackTrace p) (pp_hitBreakpoints p)) in
            if DebugState.isEnabled (debugState s) then (Fulfilled (paused_result p), s2)
            else (Unsettled, s2)
        end
    end.

Definition continue_params (requestId : string) (options : ContinueOptions)
  : list (string * Json) :=
  [("requestId", JStr requestId)]
    ++ opt_field "url" (co_url options)
    ++ opt_field "method" (co_method options)
    ++ opt_field "postData" (co_postData options)
    ++ match co_headers options with
       | Some hs => [("headers", headers_json hs)]
       | None => []
       end.

Definition remove_paused (requestId : string) (s : t) : t :=
  with_fetchInterceptor s
    (FetchInterceptor.removePausedRequest (fetchInterceptor s) requestId).

Definition continueRequest (s : t) (requestId : string) (options : ContinueOptions)
    (reply : Reply) : Result unit * t :=
  command s "Fetch.continueRequest" (Some (continue_params requestId options)) reply
    (remove_paused requestId).

(** [params] of [Fetch.fulfillRequest]: the body, when truthy, is
    encoded with [Buffer.from(body).toString('base64')]. *)
Definition fulfill_params (requestId : string) (responseCode : Z) (options : FulfillOptions)
  : list (string * Json) :=
  [("requestId", JStr requestId); ("responseCode", JNum responseCode)]
    ++ match fo_responseHeaders options with
       | Some hs => [("responseHeaders", headers_json hs)]
       | None => []
       end
    ++ match fo_body options with
       | Some body => if truthy body then [("body", JStr (Base64.encode body))] else []
       | None => []
       end
    ++ opt_field "responsePhrase" (fo_responsePhrase options).

Definition fulfillRequest (s : t) (requestId : string) (responseCode : Z)
    (options : FulfillOptions) (reply : Reply) : Result unit * t :=
  command s "Fetch.fulfillRequest" (Some (fulfill_params requestId responseCode options)) reply
    (remove_paused requestId).

Definition failRequest (s : t) (requestId errorReason : string) (reply : Reply)
  : Result unit * t :=
  command s "Fetch.failRequest"
    (Some [("requestId", JStr requestId); ("errorReason", JStr errorReason)]) reply
    (remove_paused requestId).

(** The entries of the [patterns] argument of [enableFetch]; a key is
    written to the frame when it is present. *)
Record FetchPattern : Type := {
  fp_urlPattern : option string;
  fp_resourceType : option string;
  fp_requestStage : option string;
}.

Definition of_cdp_pattern (p : CDPPattern) : FetchPattern :=
  {| fp_urlPattern := Some (urlPattern p); fp_resourceType := pat_resourceType p;
     fp_requestStage := Some (requestStage p) |}.

(** [{ urlPattern: '*', requestStage: 'Request' }] *)
Definition catch_all : FetchPattern :=
  {| fp_urlPattern := Some "*"; fp_resourceType := None; fp_requestStage := Some "Request" |}.

Definition present_field (key : string) (x : option string) : list (string * Json) :=
  match x with Some v => [(key, JStr v)] | None => [] end.

Definition pattern_json (p : FetchPattern) : Json :=
  JObj (present_field "urlPattern" (fp_urlPattern p)
        ++ present_field "resourceType" (fp_resourceType p)
        ++ present_field "requestStage" (fp_requestStage p)).

(** [patterns ?? getCDPPatterns()], replaced by the catch-all when empty. *)
Definition actual_patterns (s : t) (patterns : option (list FetchPattern)) : list FetchPattern :=
  let actual :=
    default (map of_cdp_pattern (FetchInterceptor.getCDPPatterns (fetchInterceptor s))) patterns in
  match actual with
  | [] => [catch_all]
  | _ :: _ => actual
  end.

Definition enableFetch (s : t) (patterns : option (list FetchPattern)) (reply : Reply)
  : Result unit * t :=
  command s "Fetch.enable"
    (Some [("patterns", JArr (map pattern_json (actual_patterns s patterns)))]) reply
    (fun s' => with_fetchInterceptor s' (FetchInterceptor.setEnabled (fetchInterceptor s') true)).


Definition location_json (l : Location) : Json :=
  JObj ([("scriptId", JStr (loc_scriptId l)); ("lineNumber", JNum (loc_lineNumber l))]
        ++ match loc_columnNumber l with
           | Some c => [("columnNumber", JNum c)]
           | None => []
           end).

Definition breakpointByUrl_params (lineNumber : Z) (url urlRegex : option string)
    (columnNumber : option Z) (condition : option string) : list (string * Json) :=
  [("lineNumber", JNum lineNumber)]
    ++ opt_field "url" url
    ++ opt_field "urlRegex" urlRegex
    ++ match columnNumber with Some c => [("columnNumber", JNum c)] | None => [] end
    ++ opt_field "condition" condition.

(** [setBreakpointByUrl]. [breakpointId] and [locations] are the fields
    of the result, read when the call succeeds. *)
Definition setBreakpointByUrl (s : t) (lineNumber : Z) (url urlRegex : option string)
    (columnNumber : option Z) (condition : option string) (reply : Reply)
    (breakpointId : string) (locations : list Location) : Result unit * t :=
  command s "Debugger.setBreakpointByUrl"
    (Some (breakpointByUrl_params lineNumber url urlRegex columnNumber condition)) reply
    (fun s' =>
       with_debugState s'
         (DebugState.addBreakpoint (debugState s')
            {| bp_id := breakpointId; bp_url := url; bp_urlRegex := urlRegex;
               bp_scriptId := None; bp_lineNumber := lineNumber;
               bp_columnNumber := columnNumber; bp_condition := condition;
               bp_locations := locations; bp_enabled := true |})).

(** [setBreakpoint]. [breakpointId] and [actualLocation] are the fields
    of the result. *)
Definition setBreakpoint (s : t) (location : Location) (condition : option string)
    (reply : Reply) (breakpointId : string) (actualLocation : Location) : Result unit * t :=
  command s "Debugger.setBreakpoint"
    (Some ([("location", location_json location)] ++ opt_field "condition" condition)) reply
    (fun s' =>
       with_debugState s'
         (DebugState.addBreakpoint (debugState s')
            {| bp_id := breakpointId; bp_url := None; bp_urlRegex := None;
               bp_scriptId := Some (loc_scriptId location);
               bp_lineNumber := loc_lineNumber location;
               bp_columnNumber := loc_columnNumber location; bp_condition := condition;
               bp_locations := [actualLocation]; bp_enabled := true |})).

Definition removeBreakpoint (s : t) (breakpointId : string) (reply : Reply) : Result unit * t :=
  command s "Debugger.removeBreakpoint" (Some [("breakpointId", JStr breakpointId)]) reply
    (fun s' => with_debugState s' (DebugState.removeBreakpoint (debugState s') breakpointId).2).

Record FrameEvalOptions : Type := {
  feo_objectGroup : option string;
  feo_returnByValue : option bool;
  feo_generatePreview : option bool;
}.

Definition evaluateOnCallFrame_params (callFrameId expression : string)
    (options : FrameEvalOptions) : list (string * Json) :=
  [("callFrameId", JStr callFrameId);
   ("expression", JStr expression);
   ("objectGroup", JStr (default "debugger" (feo_objectGroup options)));
   ("returnByValue", JBool (default false (feo_returnByValue options)));
   ("generatePreview", JBool (default true (feo_generatePreview options)))].

(** [evaluateOnCallFrame]: no pause check and no look at the enabled
    flag; the call is issued and always races the next pause. *)
Definition evaluateOnCallFrame (s : t) (callFrameId expression : string)
    (options : FrameEvalOptions) (race : Race) : Awaited EvalResult * t :=
  match CDPClient.send (client s) "Debugger.evaluateOnCallFrame"
          (Some (evaluateOnCallFrame_params callFrameId expression options)) with
  | (Throw e, c) => (Rejected e, with_client s c)
  | (Return id, c) =>
      let s1 := with_client s c in
      match race with
      | ReplyFirst reply =>
          let '(r, c') := apply_reply c id "Debugger.evaluateOnCallFrame" reply in
          (settle_eval r, with_client s1 c')
      | PauseFirst p =>
          (Fulfilled (paused_result p),
           with_debugState s1
             (DebugState.setPaused (debugState s1) (pp_reason p) (pp_callFrames p)
                (pp_data p) (pp_asyncStackTrace p) (pp_hitBreakpoints p)))
      end
  end.

Definition getLogEntries (s : t) : list LogEntry := logEntries s.

Definition clearLog (s : t) (reply : Reply) : Result unit * t :=
  command s "Log.clear" None reply
    (fun s' => with_own s' [] (serviceWorkerRegistrations s') (serviceWorkerVersions s')
                 (documentNodeId s')).

(** [getResponseBody]. [body] and [base64Encoded] are the fields of
    the result, read when the call succeeds. *)
Definition getResponseBody (s : t) (requestId : string) (reply : Reply)
    (body : string) (base64Encoded : bool) : Result unit * t :=
  command s "Network.getResponseBody" (Some [("requestId", JStr requestId)]) reply
    (fun s' =>
       with_networkState s'
         (NetworkState.setResponseBody (networkState s') requestId body base64Encoded)).

Definition poe_name (st : PauseOnExceptionsState) : string :=
  match st with
  | poe_none => "none"
  | poe_uncaught => "uncaught"
  | poe_all => "all"
  end.

Definition setPauseOnExceptions (s : t) (st : PauseOnExceptionsState) (reply : Reply)
  : Result unit * t :=
  command s "Debugger.setPauseOnExceptions" (Some [("state", JStr (poe_name st))]) reply
    (fun s' => with_debugState s' (DebugState.setPauseOnExceptions (debugState s') st)).

Definition setAsyncCallStackDepth (s : t) (maxDepth : Z) (reply : Reply) : Result unit * t :=
  command s "Debugger.setAsyncCallStackDepth" (Some [("maxDepth", JNum maxDepth)]) reply
    (fun s' => with_debugState s' (DebugState.setAsyncStackTraceDepth (debugState s') maxDepth)).

End DebugSession.

(** ** tools/types.ts and tools/fetch.ts: the dispatch tools *)

Record ToolResult : Type := {
  tool_text : string;
  tool_isError : bool;
}.

Definition success (text : string) : ToolResult :=
  {| tool_text := text; tool_isError := false |}.

Definition error (message : string) : ToolResult :=
  {| tool_text := "Error: " +:+ message; tool_isError := true |}.

Record ContinueArgs : Type := {
  ca_requestId : string;
  ca_url : option string;
  ca_method : option string;
  ca_postData : option string;
  ca_headers : option Headers;
}.

Record FulfillArgs : Type := {
  fa_requestId : string;
  fa_status : Z;
  fa_statusText : option string;
  fa_headers : option Headers;
  fa_body : option string;
}.

Record FulfillFileArgs : Type := {
  ff_requestId : string;
  ff_filePath : string;
  ff_status : option Z;
  ff_statusText : option string;
  ff_contentType : option string;
  ff_headers : option Headers;
}.

Record FailArgs : Type := {
  fl_requestId : string;
  fl_reason : string;
}.

Module FetchTools.

(** [Object.entries(headers).map(([name, value]) => ({ name, value }))] *)
Definition entries (hs : Headers) : list HeaderEntry :=
  map (fun kv => {| he_name := kv.1; he_value := kv.2 |}) hs.

Definition not_found : ToolResult := error "Request not found in paused requests".

(** The shape shared by the handlers: look the request up, run the
    facade call, report. *)
Definition finish (r : Result unit * DebugSession.t) (text : string)
  : ToolResult * DebugSession.t :=
  match r with
  | (Return _, s') => (success text, s')
  | (Throw e, s') => (error (error_message e), s')
  end.

Definition continueRequest (s : DebugSession.t) (p : ContinueArgs) (reply : Reply)
  : ToolResult * DebugSession.t :=
  match FetchInterceptor.getPausedRequest (DebugSession.fetchInterceptor s) (ca_requestId p) with
  | None => (not_found, s)
  | Some _ =>
      finish
        (DebugSession.continueRequest s (ca_requestId p)
           {| co_url := ca_url p; co_method := ca_method p; co_postData := ca_postData p;
              co_headers := entries <$> ca_headers p |} reply)
        "Request continued"
  end.

Definition fulfillRequest (s : DebugSession.t) (p : FulfillArgs) (reply : Reply)
  : ToolResult * DebugSession.t :=
  match FetchInterceptor.getPausedRequest (DebugSession.fetchInterceptor s) (fa_requestId p) with
  | None => (not_found, s)
  | Some _ =>
      finish
        (DebugSession.fulfillRequest s (fa_requestId p) (fa_status p)
           {| fo_responseHeaders := entries <$> fa_headers p;
              fo_body := fa_body p;
              fo_responsePhrase := fa_statusText p;
              fo_bodyBase64 := None |} reply)
        "Request fulfilled with mock response"
  end.

(** The options object the file tool builds: the encoded file goes
    under the key [bodyBase64]. *)
Definition file_options (p : FulfillFileArgs) (contentType fileContent : string)
  : FulfillOptions :=
  {| fo_responseHeaders :=
       Some ([ {| he_name := "Content-Type"; he_value := contentType |};
               {| he_name := "Content-Length";
                  he_value := pretty (N.of_nat (String.length fileContent)) |} ]
             ++ entries (default [] (ff_headers p)));
     fo_body := None;
     fo_responsePhrase := ff_statusText p;
     fo_bodyBase64 := Some (Base64.encode fileContent) |}.

(** [file] is what [readFile(p.filePath)] gives, [detected] what
    [getMimeType(p.filePath)] gives; both belong to the environment.
    On success the handler reports a summary object, given here by
    its message. *)
Definition fulfillRequestWithFile (s : DebugSession.t) (p : FulfillFileArgs)
    (file : Result string) (detected : string) (reply : Reply)
  : ToolResult * DebugSession.t :=
  match FetchInterceptor.getPausedRequest (DebugSession.fetchInterceptor s) (ff_requestId p) with
  | None => (not_found, s)
  | Some _ =>
      match file with
      | Throw e => (error (error_message e), s)
      | Return fileContent =>
          finish
            (DebugSession.fulfillRequest s (ff_requestId p) (default 200%Z (ff_status p))
               (file_options p (default detected (ff_contentType p)) fileContent) reply)
            "Request fulfilled with file contents"
      end
  end.

Definition failRequest (s : DebugSession.t) (p : FailArgs) (reply : Reply)
  : ToolResult * DebugSession.t :=
  match FetchInterceptor.getPausedRequest (DebugSession.fetchInterceptor s) (fl_requestId p) with
  | None => (not_found, s)
  | Some _ =>
      finish (DebugSession.failRequest s (fl_requestId p) (fl_reason p) reply) "Request failed"
  end.

End FetchTools.

(** ** tools/network.ts and tools/log.ts: the listing tools *)

(** A JavaScript number: a finite value, given as a fraction, an
    infinity, or [NaN]. Every finite double is such a fraction. *)
Inductive JsNumber : Type :=
| Finite (num : Z) (den : positive)
| PlusInfinity
| MinusInfinity
| NotANumber.

(** Truthiness of a number: zero and [NaN] are falsy. *)
Definition truthy_number (n : JsNumber) : bool :=
  match n with
  | Finite num _ => negb (num =? 0)%Z
  | PlusInfinity | MinusInfinity => true
  | NotANumber => false
  end.

(** Unary minus. *)
Definition negated (n : JsNumber) : JsNumber :=
  match n with
  | Finite num den => Finite (- num) den
  | PlusInfinity => MinusInfinity
  | MinusInfinity => PlusInfinity
  | NotANumber => NotANumber
  end.

(** [arr.slice(start)]: [start] is cut to an integer towards zero,
    [NaN] counting as zero; a negative [start] counts from the end;
    either is clamped to the array. *)
Definition slice_from {A} (start : JsNumber) (l : list A) : list A :=
  let len := Z.of_nat (length l) in
  match start with
  | NotANumber => l
  | MinusInfinity => l
  | PlusInfinity => []
  | Finite num den =>
      let relativeStart := (num ÷ Z.pos den)%Z in
      let k := if (relativeStart <? 0)%Z then Z.max (len + relativeStart) 0
               else Z.min relativeStart len in
      drop (Z.to_nat k) l
  end.

(** [if (p.limit) xs = xs.slice(-p.limit)] *)
Definition apply_limit {A} (limit : option JsNumber) (l : list A) : list A :=
  match limit with
  | Some n => if truthy_number n then slice_from (negated n) l else l
  | None => l
  end.

Module NetworkTools.

Record ListRequestsArgs : Type := {
  lr_urlPattern : option string;
  lr_resourceType : option string;
  lr_failedOnly : option bool;
  lr_limit : option JsNumber;
}.

Section matching.
Context `{RegExpEngine}.

(** The requests the handler of [list_requests] reports, before they
    are formatted; an error thrown here becomes the error result. *)
Definition listRequests_selected (s : DebugSession.t) (p : ListRequestsArgs)
  : Result (list CollectedRequest) :=
  requests ← (if truthy_opt (lr_urlPattern p)
              then NetworkState.getRequestsByUrl (DebugSession.networkState s)
                     (default EmptyString (lr_urlPattern p))
              else mret (NetworkState.getAllRequests (DebugSession.networkState s)));
  let requests :=
    if truthy_opt (lr_resourceType p)
    then List.filter
           (fun r => String.eqb (cr_resourceType r) (default EmptyString (lr_resourceType p)))
           requests
    else requests in
  let requests :=
    if default false (lr_failedOnly p) then List.filter NetworkState.is_failed requests
    else requests in
  mret (apply_limit (lr_limit p) requests).
End matching.

End NetworkTools.

Module LogTools.

Record GetLogEntriesArgs : Type := {
  gl_level : option string;
  gl_source : option string;
  gl_limit : option JsNumber;
}.

(** The entries the handler of [get_log_entries] reports, before they
    are formatted. *)
Definition getLogEntries_selected (s : DebugSession.t) (p : GetLogEntriesArgs)
  : list LogEntry :=
  let entries := DebugSession.getLogEntries s in
  let entries :=
    if truthy_opt (gl_level p)
    then List.filter (fun e => String.eqb (log_level e) (default EmptyString (gl_level p))) entries
    else entries in
  let entries :=
    if truthy_opt (gl_source p)
    then List.filter (fun e => String.eqb (log_source e) (default EmptyString (gl_source p)))
           entries
    else entries in
  apply_limit (gl_limit p) entries.

End LogTools.

(** * Properties *)

(** ** A small engine to run examples with

    It reads every accepted source as literal text and tests by
    substring search; a source holding an opening bracket is refused,
    as an unterminated character class is by the host's engine. *)

Fixpoint contains (needle s : string) : bool :=
  String.prefix needle s
  || match s with
     | EmptyString => false
     | String _ s' => contains needle s'
     end.

#[local] Instance literal_engine : RegExpEngine := {|
  RegExp := string;
  regexp_new source := if contains "[" source then None else Some source;
  regexp_test r url := contains r url;
|}.

(** ** Sample states *)

Definition sample_rule : RuleInput :=
  {| in_pattern := "*/api/*"; in_resourceTypes := None; in_action := pause;
     in_modifyHeaders := None; in_modifyUrl := None; in_mockResponse := None;
     in_failReason := None; in_enabled := Some true |}.

Definition sample_request (url : string) : RequestData :=
  {| rd_url := url; rd_method := "GET"; rd_headers := Some []; rd_postData := None |}.

Definition sample_paused_event (id : string) : FetchRequestPaused :=
  {| frp_requestId := id; frp_request := sample_request "http://example.com/api";
     frp_frameId := "frame1"; frp_resourceType := "XHR" |}.

Definition sample_paused_request (id : string) : PausedRequest :=
  {| pr_requestId := id; pr_url := "http://example.com/api"; pr_method := "GET";
     pr_resourceType := "XHR"; pr_headers := []; pr_postData := None;
     pr_timestamp := 0; pr_matchedRule := None |}.

(** A client whose socket is open. *)
Definition connected_client : CDPClient.t :=
  CDPClient.on_open (CDPClient.connect (CDPClient.new None)).2.

(** A connected session that holds the paused request [r1]. *)
Definition session_with_paused : DebugSession.t :=
  DebugSession.with_fetchInterceptor
    (DebugSession.with_client (DebugSession.new None) connected_client)
    (FetchInterceptor.with_paused FetchInterceptor.new [("r1", sample_paused_request "r1")]).

Definition sample_location (line : Z) : Location :=
  {| loc_scriptId := "script1"; loc_lineNumber := line; loc_columnNumber := None |}.

Definition sample_breakpoint (id : string) (locations : list Location) : ManagedBreakpoint :=
  {| bp_id := id; bp_url := Some "test.js"; bp_urlRegex := None; bp_scriptId := None;
     bp_lineNumber := 10; bp_columnNumber := None; bp_condition := None;
     bp_locations := locations; bp_enabled := true |}.

Definition sample_frame : CallFrame :=
  {| callFrameId := "frame1"; functionName := "testFunction";
     cf_location := sample_location 10; cf_url := "test.js" |}.

Definition sample_pause : PausedParams :=
  {| pp_callFrames := [sample_frame]; pp_reason := "breakpoint"; pp_data := None;
     pp_hitBreakpoints := None; pp_asyncStackTrace := None |}.

(** A connected session stopped at a breakpoint. *)
Definition paused_session : DebugSession.t :=
  let s := DebugSession.with_client (DebugSession.new None) connected_client in
  DebugSession.with_debugState s
    (DebugState.setPaused (DebugSession.debugState s) (pp_reason sample_pause)
       (pp_callFrames sample_pause) None None None).

Definition no_eval_options : EvalOptions :=
  {| eo_objectGroup := None; eo_contextId := None; eo_returnByValue := None;
     eo_generatePreview := None; eo_awaitPromise := None; eo_timeout := None |}.

(** ** Evaluation while paused *)

Example paused_error_text :
  error_message (PausedError (Some "breakpoint"))
  = "Execution blocked: debugger is paused (breakpoint)".
Proof. reflexivity. Qed.

Example evaluate_running_sends :
  let '(r, s) := DebugSession.evaluate (DebugSession.with_client (DebugSession.new None) connected_client)
                   "1+2" no_eval_options (ReplyFirst (ReplyResult (Some (JNum 3)))) in
  r = Fulfilled (DebugSession.plain_result (Some (JNum 3)))
  ∧ CDPClient.requestId (DebugSession.client s) = 1%N
  ∧ length (CDPClient.wire (DebugSession.client s)) = 1%nat
  ∧ CDPClient.pendingRequests (DebugSession.client s) = [].
Proof. vm_compute. done. Qed.

(** C1. A call of [evaluate] made while the debug state is paused is
    rejected at once with the paused error built from the pause reason,
    and nothing is sent: the session, and with it the transport's
    pending table, its request-id counter and the frames written, is
    exactly what it was. *)
Theorem C1_evaluate_while_paused
    (s : DebugSession.t) (expression : string) (options : EvalOptions) (race : Race) :
  DebugState.isPaused (DebugSession.debugState s) = true →
  let '(outcome, s') := DebugSession.evaluate s expression options race in
  outcome = Rejected (PausedError (ps_reason (DebugState.getPauseState (DebugSession.debugState s))))
  ∧ s' = s
  ∧ CDPClient.pendingRequests (DebugSession.client s')
    = CDPClient.pendingRequests (DebugSession.client s)
  ∧ CDPClient.requestId (DebugSession.client s') = CDPClient.requestId (DebugSession.client s)
  ∧ CDPClient.wire (DebugSession.client s') = CDPClient.wire (DebugSession.client s).
Proof.
  intros Hp. unfold DebugSession.evaluate. rewrite Hp. by repeat split.
Qed.

Lemma C1_evaluate_while_paused_witness :
  DebugState.isPaused (DebugSession.debugState paused_session) = true
  ∧ let '(outcome, s') :=
        DebugSession.evaluate paused_session "1+2" no_eval_options
          (ReplyFirst (ReplyResult None)) in
    outcome = Rejected (PausedError (Some "breakpoint")) ∧ s' = paused_session.
Proof.
  split; [reflexivity|].
  pose proof (C1_evaluate_while_paused paused_session "1+2" no_eval_options
                (ReplyFirst (ReplyResult None)) eq_refl) as H.
  destruct (DebugSession.evaluate paused_session "1+2" no_eval_options
              (ReplyFirst (ReplyResult None))) as [o s'].
  destruct H as (-> & -> & _). by split.
Defined.

(** ** Breakpoint resolution *)

(** Events handled one after the other. *)
Fixpoint on_events `{RegExpEngine} (s : DebugSession.t) (events : list CDPEvent) (now : Z)
  : Result DebugSession.t :=
  match events with
  | [] => Return s
  | e :: rest => s' ← DebugSession.on_event s e now; on_events s' rest now
  end.

Definition is_breakpointResolved (e : CDPEvent) : bool :=
  match e with Debugger_breakpointResolved _ _ => true | _ => false end.

(** The locations the session holds for a breakpoint. *)
Definition locations_of (s : DebugSession.t) (id : string) : option (list Location) :=
  bp_locations <$> DebugState.getBreakpoint (DebugSession.debugState s) id.

(** A session whose breakpoint [bp1] was created with one location. *)
Definition session_with_breakpoint : DebugSession.t :=
  DebugSession.with_debugState (DebugSession.new None)
    (DebugState.addBreakpoint DebugState.new (sample_breakpoint "bp1" [sample_location 10])).

(** C2, as stated, fails: a breakpoint created with the location of
    line 10 and then resolved at line 20 holds the location of line 20
    alone, not both. *)
Lemma C2_counterexample :
  locations_of session_with_breakpoint "bp1" = Some [sample_location 10]
  ∧ (s' ← on_events session_with_breakpoint
            [Debugger_breakpointResolved "bp1" (sample_location 20)] 0;
     mret (locations_of s' "bp1"))
    = Return (Some [sample_location 20])
  ∧ Some [sample_location 20] ≠ Some [sample_location 10; sample_location 20].
Proof. split_and!; [reflexivity | reflexivity | discriminate]. Qed.

Lemma on_events_snoc `{RegExpEngine} (s : DebugSession.t) (events : list CDPEvent)
    (e : CDPEvent) (now : Z) :
  on_events s (events ++ [e]) now
  = (s' ← on_events s events now; DebugSession.on_event s' e now).
Proof.
  revert s. induction events as [|e0 events IH]; intros s; simpl.
  - by destruct (DebugSession.on_event s e now).
  - destruct (DebugSession.on_event s e0 now) as [s0|err]; simpl; [apply IH | done].
Qed.

Lemma resolved_events_return `{RegExpEngine} (s : DebugSession.t) (id : string)
    (locations : list Location) (now : Z) :
  ∃ s', on_events s (map (Debugger_breakpointResolved id) locations) now = Return s'
        ∧ (is_Some (locations_of s id) → is_Some (locations_of s' id)).
Proof.
  revert s. induction locations as [|l locations IH]; intros s; simpl.
  - by exists s.
  - destruct (IH (DebugSession.with_debugState s
                    (DebugState.updateBreakpointLocations (DebugSession.debugState s) id [l])))
      as (s' & Hs' & Hsome).
    exists s'. split; [done|]. intros Hbp. apply Hsome.
    unfold locations_of, DebugState.getBreakpoint, DebugState.updateBreakpointLocations in *.
    simpl. destruct (JsMap.get (DebugState.breakpoints (DebugSession.debugState s)) id) as [bp|] eqn:Hg.
    + simpl. rewrite JsMap.get_set_eq. by eexists.
    + by destruct Hbp.
Qed.

(** C2, amended. Handling [Debugger.breakpointResolved] for a managed
    breakpoint replaces its list of locations by the one location of
    the event and changes nothing else of it; other breakpoints, and
    the whole state when the id is unknown, are as before; after any
    non-empty run of such events for one breakpoint the list holds the
    last location only. No other event changes the breakpoint table. *)
Theorem C2_breakpointResolved_replaces `{RegExpEngine} (s : DebugSession.t) (now : Z) :
  (∀ id location,
     ∃ s', DebugSession.on_event s (Debugger_breakpointResolved id location) now = Return s'
       ∧ DebugState.getBreakpoint (DebugSession.debugState s') id
         = (fun bp => DebugState.set_locations bp [location])
             <$> DebugState.getBreakpoint (DebugSession.debugState s) id
       ∧ (∀ other, other ≠ id →
            DebugState.getBreakpoint (DebugSession.debugState s') other
            = DebugState.getBreakpoint (DebugSession.debugState s) other)
       ∧ (DebugState.getBreakpoint (DebugSession.debugState s) id = None → s' = s))
  ∧ (∀ id earlier location,
       is_Some (locations_of s id) →
       ∃ s', on_events s (map (Debugger_breakpointResolved id) (earlier ++ [location])) now
             = Return s'
         ∧ locations_of s' id = Some [location])
  ∧ (∀ e s', is_breakpointResolved e = false →
       DebugSession.on_event s e now = Return s' →
       DebugState.breakpoints (DebugSession.debugState s')
       = DebugState.breakpoints (DebugSession.debugState s)).
Proof.
  split_and!.
  - intros id location. eexists. split; [reflexivity|].
    unfold DebugState.getBreakpoint, DebugState.updateBreakpointLocations. simpl.
    destruct (JsMap.get (DebugState.breakpoints (DebugSession.debugState s)) id) as [bp|] eqn:Hg;
      simpl.
    + split_and!; [by rewrite JsMap.get_set_eq | | done].
      intros other Hne. by rewrite JsMap.get_set_ne.
    + rewrite Hg. split_and!; [done | done |]. intros _. by destruct s.
  - intros id earlier location Hbp.
    rewrite map_app. cbn [map]. rewrite on_events_snoc.
    destruct (resolved_events_return s id earlier now) as (s1 & -> & Hsome).
    specialize (Hsome Hbp). simpl. eexists. split; [reflexivity|].
    unfold locations_of, DebugState.getBreakpoint, DebugState.updateBreakpointLocations in *.
    simpl. destruct (JsMap.get (DebugState.breakpoints (DebugSession.debugState s1)) id) as [bp|].
    + simpl. by rewrite JsMap.get_set_eq.
    + by destruct Hsome.
  - intros e s' He Hev.
    destruct e; simpl in *; try discriminate; try (by injection Hev as <-).
    destruct (FetchInterceptor.onRequestPaused _ _ _) as [r|]; simpl in Hev; [|discriminate].
    by injection Hev as <-.
Qed.

Lemma C2_breakpointResolved_replaces_witness :
  is_Some (locations_of session_with_breakpoint "bp1")
  ∧ ∃ s', on_events session_with_breakpoint
            (map (Debugger_breakpointResolved "bp1") ([sample_location 20] ++ [sample_location 30])) 0
          = Return s'
        ∧ locations_of s' "bp1" = Some [sample_location 30].
Proof.
  split; [by eexists|].
  exact (proj1 (proj2 (C2_breakpointResolved_replaces session_with_breakpoint 0))
           "bp1" [sample_location 20] (sample_location 30) (ex_intro _ _ eq_refl)).
Defined.

(** ** Disabling a projection *)

(** An interceptor holding one rule and one paused request. *)
Definition interceptor_with_rule : FetchInterceptor.t :=
  FetchInterceptor.with_paused (FetchInterceptor.addRule FetchInterceptor.new sample_rule).2
    [("r1", sample_paused_request "r1")].

(** C8, as stated, fails for the interceptor: after [setEnabled(false)]
    its rule is still listed and still counted. *)
Lemma C8_counterexample :
  let s' := FetchInterceptor.setEnabled interceptor_with_rule false in
  FetchInterceptor.getAllRules s' = [FetchInterceptor.make_rule "rule-1" sample_rule]
  ∧ FetchInterceptor.getSummary s'
    = {| ruleCount := 1; enabledRules := 1; pausedRequestCount := 0 |}.
Proof. split; reflexivity. Qed.

(** C8, amended. [setEnabled(false)] empties [DebugState],
    [NetworkState] and [ConsoleState]: every query answers with nothing
    and every count is zero (a URL query answers with nothing whenever
    its pattern compiles). On the [FetchInterceptor] it empties the
    paused-request table only: the rules, their count and the count of
    enabled rules are what they were. [ScriptRegistry] has no
    [setEnabled], and the facade's [disableDebugger] leaves it alone. *)
Theorem C8_setEnabled_false `{RegExpEngine} :
  (∀ d : DebugState.t,
     let d' := DebugState.setEnabled d false in
     DebugState.getAllBreakpoints d' = []
     ∧ DebugState.isPaused d' = false
     ∧ DebugState.getCallFrames d' = []
     ∧ DebugState.getPauseState d' = DebugState.running
     ∧ DebugState.getTopCallFrame d' = None
     ∧ (∀ index, DebugState.getCallFrame d' index = None)
     ∧ DebugState.getLastException d' = None
     ∧ DebugState.getPauseOnExceptions d' = poe_none
     ∧ DebugState.getAsyncStackTraceDepth d' = 0%Z
     ∧ (∀ id, DebugState.getBreakpoint d' id = None)
     ∧ (∀ sid line col, DebugState.findBreakpointByLocation d' sid line col = None)
     ∧ DebugState.toJSON d'
       = {| json_enabled := false; json_isPaused := false; json_pauseReason := None;
            json_callFrameCount := 0; json_breakpointCount := 0;
            json_pauseOnExceptions := poe_none; json_asyncStackTraceDepth := 0 |})
  ∧ (∀ n : NetworkState.t,
       let n' := NetworkState.setEnabled n false in
       NetworkState.getAllRequests n' = []
       ∧ NetworkState.getCount n' = 0%nat
       ∧ (∀ id, NetworkState.getRequest n' id = None)
       ∧ (∀ ty, NetworkState.getRequestsByType n' ty = [])
       ∧ NetworkState.getFailedRequests n' = []
       ∧ NetworkState.getPendingRequests n' = []
       ∧ (∀ pattern, NetworkState.getRequestsByUrl n' pattern
                     = (_ ← NetworkState.patternToRegex pattern; mret []))
       ∧ NetworkState.getSummary n'
         = {| net_total := 0; net_completed := 0; net_failed := 0; net_pending := 0 |})
  ∧ (∀ c : ConsoleState.t,
       let c' := ConsoleState.setEnabled c false in
       ConsoleState.getMessages c' = []
       ∧ ConsoleState.getExceptions c' = []
       ∧ (∀ level, ConsoleState.getMessagesByLevel c' level = [])
       ∧ (∀ ty, ConsoleState.getMessagesByType c' ty = [])
       ∧ ConsoleState.getErrors c' = []
       ∧ ConsoleState.getWarnings c' = []
       ∧ ConsoleState.getMessageCount c' = 0%nat
       ∧ ConsoleState.getExceptionCount c' = 0%nat
       ∧ ConsoleState.getSummary c'
         = {| con_total := 0; con_errors := 0; con_warnings := 0; con_exceptions := 0 |})
  ∧ (∀ f : FetchInterceptor.t,
       let f' := FetchInterceptor.setEnabled f false in
       FetchInterceptor.getAllPausedRequests f' = []
       ∧ (∀ id, FetchInterceptor.getPausedRequest f' id = None)
       ∧ pausedRequestCount (FetchInterceptor.getSummary f') = 0%nat
       ∧ FetchInterceptor.getAllRules f' = FetchInterceptor.getAllRules f
       ∧ (∀ id, FetchInterceptor.getRule f' id = FetchInterceptor.getRule f id)
       ∧ (∀ url ty, FetchInterceptor.findMatchingRule f' url ty
                    = FetchInterceptor.findMatchingRule f url ty)
       ∧ ruleCount (FetchInterceptor.getSummary f') = ruleCount (FetchInterceptor.getSummary f)
       ∧ enabledRules (FetchInterceptor.getSummary f')
         = enabledRules (FetchInterceptor.getSummary f)
       ∧ FetchInterceptor.getCDPPatterns f' = FetchInterceptor.getCDPPatterns f)
  ∧ (∀ (s : DebugSession.t) (reply : Reply),
       DebugSession.scriptRegistry (DebugSession.disableDebugger s reply).2
       = DebugSession.scriptRegistry s).
Proof.
  split_and!.
  - intros d. by repeat split.
  - intros n. by repeat split.
  - intros c. by repeat split.
  - intros f. by repeat split.
  - intros s reply. unfold DebugSession.disableDebugger, DebugSession.command.
    by destruct (await_send _ _ _ _) as [[?|?] ?].
Qed.

(** C10. [setEnabled(false)] on the interceptor, which the facade's
    [disableFetch] runs once [Fetch.disable] has succeeded, empties the
    paused-request table and leaves the rule map and the rule-id
    counter as they were. *)
Theorem C10_setEnabled_false_drops_paused :
  (∀ f : FetchInterceptor.t,
     let f' := FetchInterceptor.setEnabled f false in
     FetchInterceptor.pausedRequests f' = []
     ∧ FetchInterceptor.getAllPausedRequests f' = []
     ∧ FetchInterceptor.rules f' = FetchInterceptor.rules f
     ∧ FetchInterceptor.ruleIdCounter f' = FetchInterceptor.ruleIdCounter f
     ∧ FetchInterceptor.isEnabled f' = false)
  ∧ (∀ (s : DebugSession.t) (reply : Reply),
       DebugSession.fetchInterceptor (DebugSession.disableFetch s reply).2
       = if is_return (DebugSession.disableFetch s reply).1
         then FetchInterceptor.setEnabled (DebugSession.fetchInterceptor s) false
         else DebugSession.fetchInterceptor s).
Proof.
  split.
  - intros f. by repeat split.
  - intros s reply. unfold DebugSession.disableFetch, DebugSession.command.
    by destruct (await_send _ _ _ _) as [[?|?] ?].
Qed.

Example disableFetch_drops_paused :
  FetchInterceptor.getAllPausedRequests
    (DebugSession.fetchInterceptor
       (DebugSession.disableFetch session_with_paused (ReplyResult None)).2) = [].
Proof. reflexivity. Qed.

(** ** Base64 can be read back *)

(** The position of a character in a string. *)
Fixpoint index_of (c : ascii) (s : string) : option N :=
  match s with
  | EmptyString => None
  | String d s' => if Ascii.eqb c d then Some 0%N else N.succ <$> index_of c s'
  end.

Definition digit_value (c : ascii) : option N := index_of c Base64.alphabet.

(** The reading of [Buffer.from(text, 'base64')] on padded input. *)
Fixpoint base64_decode (s : string) : option string :=
  match s with
  | EmptyString => Some EmptyString
  | String a (String b (String c (String d rest))) =>
      va ← digit_value a;
      vb ← digit_value b;
      if Ascii.eqb d "=" then
        match rest with
        | EmptyString =>
            if Ascii.eqb c "=" then
              Some (String (ascii_of_N (va * 4 + vb / 16)) EmptyString)
            else
              vc ← digit_value c;
              Some (String (ascii_of_N (va * 4 + vb / 16))
                      (String (ascii_of_N ((vb mod 16) * 16 + vc / 4)) EmptyString))
        | String _ _ => None
        end
      else
        vc ← digit_value c;
        vd ← digit_value d;
        bytes ← base64_decode rest;
        Some (String (ascii_of_N (va * 4 + vb / 16))
                (String (ascii_of_N ((vb mod 16) * 16 + vc / 4))
                   (String (ascii_of_N ((vc mod 4) * 64 + vd)) bytes)))
  | _ => None
  end%N.

Lemma digit_value_digit (n : N) :
  (n < 64)%N →
  digit_value (Base64.digit n) = Some n ∧ Ascii.eqb (Base64.digit n) "=" = false.
Proof.
  intros Hn.
  assert (Hall : Forall (fun n => digit_value (Base64.digit n) = Some n
                                  ∧ Ascii.eqb (Base64.digit n) "=" = false)
                   (N.of_nat <$> seq 0 64))
    by (apply (bool_decide_unpack _); by vm_compute).
  eapply Forall_forall in Hall; [exact Hall|].
  apply list_elem_of_fmap. exists (N.to_nat n). split; [lia|].
  apply elem_of_seq. lia.
Qed.

Lemma N_of_ascii_bound (a : ascii) : (N_of_ascii a < 256)%N.
Proof. apply N_ascii_bounded. Qed.

Local Ltac split_bytes :=
  repeat match goal with
         | |- context [N_of_ascii ?a] =>
             let x := fresh "x" in
             let Hx := fresh "Hx" in
             let Ha := fresh "Ha" in
             pose proof (N_of_ascii_bound a) as Hx;
             pose proof (ascii_N_embedding a) as Ha;
             remember (N_of_ascii a) as x
         end.

Lemma regroup (x y z : N) :
  (x < 256 → y < 256 → z < 256 →
   x / 4 * 4 + (x mod 4 * 16 + y / 16) / 16 = x
   ∧ (x mod 4 * 16 + y / 16) mod 16 * 16 + (y mod 16 * 4 + z / 64) / 4 = y
   ∧ (y mod 16 * 4 + z / 64) mod 4 * 64 + z mod 64 = z
   ∧ x / 4 < 64 ∧ x mod 4 * 16 + y / 16 < 64 ∧ y mod 16 * 4 + z / 64 < 64 ∧ z mod 64 < 64)%N.
Proof.
  intros Hx Hy Hz.
  pose proof (N.div_mod x 4 ltac:(lia)). pose proof (N.mod_lt x 4 ltac:(lia)).
  pose proof (N.div_mod y 16 ltac:(lia)). pose proof (N.mod_lt y 16 ltac:(lia)).
  pose proof (N.div_mod z 64 ltac:(lia)). pose proof (N.mod_lt z 64 ltac:(lia)).
  remember (x / 4)%N as xq. remember (x mod 4)%N as xr.
  remember (y / 16)%N as yq. remember (y mod 16)%N as yr.
  remember (z / 64)%N as zq. remember (z mod 64)%N as zr.
  clear Heqxq Heqxr Heqyq Heqyr Heqzq Heqzr.
  assert (Hq1 : ((xr * 16 + yq) / 16 = xr)%N).
  { symmetry. apply (N.div_unique _ 16 _ yq); lia. }
  assert (Hr1 : ((xr * 16 + yq) mod 16 = yq)%N).
  { symmetry. apply (N.mod_unique _ 16 xr); lia. }
  assert (Hq2 : ((yr * 4 + zq) / 4 = yr)%N).
  { symmetry. apply (N.div_unique _ 4 _ zq); lia. }
  assert (Hr2 : ((yr * 4 + zq) mod 4 = zq)%N).
  { symmetry. apply (N.mod_unique _ 4 yr); lia. }
  rewrite Hq1, Hr1, Hq2, Hr2. lia.
Qed.

Lemma string_ind3 (P : string → Prop) :
  P EmptyString →
  (∀ a, P (String a EmptyString)) →
  (∀ a b, P (String a (String b EmptyString))) →
  (∀ a b c rest, P rest → P (String a (String b (String c rest)))) →
  ∀ s, P s.
Proof.
  intros H0 H1 H2 H3 s.
  assert (Hall : P s ∧ (∀ a, P (String a s)) ∧ (∀ a b, P (String a (String b s)))).
  { induction s as [|c s (IH0 & IH1 & IH2)]; [by split_and! | split_and!; [done | done |]].
    intros a b. by apply H3. }
  by destruct Hall.
Qed.

(** [base64_decode] on one group of four characters. *)
Lemma decode_group (a b c d : ascii) (rest : string) (va vb vc vd : N) :
  digit_value a = Some va → digit_value b = Some vb →
  digit_value c = Some vc → digit_value d = Some vd →
  Ascii.eqb d "=" = false →
  base64_decode (String a (String b (String c (String d rest))))
  = (bytes ← base64_decode rest;
     Some (String (ascii_of_N (va * 4 + vb / 16))
             (String (ascii_of_N ((vb mod 16) * 16 + vc / 4))
                (String (ascii_of_N ((vc mod 4) * 64 + vd)) bytes))))%N.
Proof. intros Ha Hb Hc Hd Hq. cbn [base64_decode]. by rewrite Ha, Hb, Hc, Hd, Hq. Qed.

Lemma decode_padded_1 (a b c : ascii) (va vb vc : N) :
  digit_value a = Some va → digit_value b = Some vb → digit_value c = Some vc →
  Ascii.eqb c "=" = false →
  base64_decode (String a (String b (String c "=")))
  = Some (String (ascii_of_N (va * 4 + vb / 16))
            (String (ascii_of_N ((vb mod 16) * 16 + vc / 4)) EmptyString))%N.
Proof. intros Ha Hb Hc Hq. cbn [base64_decode]. by rewrite Ha, Hb, Hc, Hq. Qed.

Lemma decode_padded_2 (a b : ascii) (va vb : N) :
  digit_value a = Some va → digit_value b = Some vb →
  base64_decode (String a (String b "=="))
  = Some (String (ascii_of_N (va * 4 + vb / 16)) EmptyString)%N.
Proof. intros Ha Hb. cbn [base64_decode]. by rewrite Ha, Hb. Qed.

(** Decoding what [encode] produces gives the bytes back. *)
Theorem base64_roundtrip (s : string) : base64_decode (Base64.encode s) = Some s.
Proof.
  induction s as [|a|a b|a b c rest IH] using string_ind3.
  - done.
  - cbn [Base64.encode]. split_bytes.
    destruct (regroup x 0 0) as (E1 & _ & _ & B1 & B2 & _); [lia..|].
    change (0 / 16)%N with 0%N in *. rewrite N.add_0_r in *.
    destruct (digit_value_digit _ B1) as [V1 _]. destruct (digit_value_digit _ B2) as [V2 _].
    rewrite (decode_padded_2 _ _ _ _ V1 V2), E1. by rewrite Ha.
  - cbn [Base64.encode]. split_bytes.
    destruct (regroup x x0 0) as (E1 & E2 & _ & B1 & B2 & B3 & _); [lia..|].
    change (0 / 64)%N with 0%N in *. rewrite N.add_0_r in *.
    destruct (digit_value_digit _ B1) as [V1 _]. destruct (digit_value_digit _ B2) as [V2 _].
    destruct (digit_value_digit _ B3) as [V3 Q3].
    rewrite (decode_padded_1 _ _ _ _ _ _ V1 V2 V3 Q3), E1, E2. by rewrite Ha, Ha0.
  - cbn [Base64.encode]. split_bytes.
    destruct (regroup x x0 x1) as (E1 & E2 & E3 & B1 & B2 & B3 & B4); [lia..|].
    destruct (digit_value_digit _ B1) as [V1 _]. destruct (digit_value_digit _ B2) as [V2 _].
    destruct (digit_value_digit _ B3) as [V3 _]. destruct (digit_value_digit _ B4) as [V4 Q4].
    rewrite (decode_group _ _ _ _ _ _ _ _ _ V1 V2 V3 V4 Q4), IH. cbn [mbind option_bind].
    rewrite E1, E2, E3. by rewrite Ha, Ha0, Ha1.
Qed.

(** ** The body of a fulfilled request *)

Definition file_args (id path : string) : FulfillFileArgs :=
  {| ff_requestId := id; ff_filePath := path; ff_status := None; ff_statusText := None;
     ff_contentType := None; ff_headers := None |}.

(** The parameters of the last frame written to the socket. *)
Definition last_params (s : DebugSession.t) : option (list (string * Json)) :=
  r ← last (CDPClient.wire (DebugSession.client s)); req_params r.

(** Frames are written by [send] only. *)
Lemma wire_apply_reply (c : CDPClient.t) (id : N) (method : string) (reply : Reply) :
  CDPClient.wire (apply_reply c id method reply).2 = CDPClient.wire c.
Proof.
  destruct reply; simpl;
    unfold CDPClient.handleResponse, CDPClient.timer_fire, CDPClient.on_close,
      CDPClient.rejectAllPending;
    repeat match goal with
           | |- context [JsMap.get ?m ?k] => destruct (JsMap.get m k)
           | |- context [foldl ?f ?a ?l] => destruct (foldl f a l)
           end; done.
Qed.

Lemma command_frame (s : DebugSession.t) (method : string)
    (params : option (list (string * Json))) (reply : Reply) (id : string) :
  CDPClient.connected (DebugSession.client s) = true →
  CDPClient.ws (DebugSession.client s) = true →
  last_params (DebugSession.command s method params reply (DebugSession.remove_paused id)).2
  = params.
Proof.
  intros Hc Hw. unfold last_params, DebugSession.command, await_send, CDPClient.send.
  rewrite Hc, Hw. cbn [negb orb].
  match goal with
  | |- context [apply_reply ?c ?i ?m ?r] =>
      pose proof (wire_apply_reply c i m r) as Hwire; destruct (apply_reply c i m r) as [[v|e] c']
  end; cbn [fst snd] in *; unfold DebugSession.remove_paused; cbn [DebugSession.client
    DebugSession.with_client DebugSession.with_fetchInterceptor];
    rewrite Hwire; cbn [CDPClient.wire]; rewrite last_snoc; done.
Qed.

(** Fulfilling with the text [{"mocked":true}] puts its base64 form on
    the wire. *)
Example fulfill_text_on_the_wire :
  let '(result, s') :=
    FetchTools.fulfillRequest session_with_paused
      {| fa_requestId := "r1"; fa_status := 200; fa_statusText := None;
         fa_headers := Some [("Content-Type", "application/json")];
         fa_body := Some mocked_body |}
      (ReplyResult None) in
  result = success "Request fulfilled with mock response"
  ∧ (params ← last_params s'; JsMap.get params "body") = Some (JStr "eyJtb2NrZWQiOnRydWV9")
  ∧ FetchInterceptor.getAllPausedRequests (DebugSession.fetchInterceptor s') = [].
Proof. vm_compute. done. Qed.

(** C9. A non-empty text body is put on the wire as its base64
    encoding, from which the text can be read back. The body of the file tool is not: the tool hands the
    encoded file to [fulfillRequest] under the key [bodyBase64], which
    [fulfillRequest] does not read, so the frame of
    [Fetch.fulfillRequest] carries no body at all, whatever the file
    holds; with the file [hello] the tool still reports success. On a
    connected session the parameters computed are the parameters of
    the frame written. *)
Theorem C9_fulfill_body_on_the_wire :
  (∀ requestId code options body,
     fo_body options = Some body → truthy body = true →
     JsMap.get (DebugSession.fulfill_params requestId code options) "body"
     = Some (JStr (Base64.encode body))
     ∧ base64_decode (Base64.encode body) = Some body)
  ∧ (∀ s requestId code options reply,
       CDPClient.connected (DebugSession.client s) = true →
       CDPClient.ws (DebugSession.client s) = true →
       last_params (DebugSession.fulfillRequest s requestId code options reply).2
       = Some (DebugSession.fulfill_params requestId code options))
  ∧ (∀ requestId code p contentType fileContent,
       fo_bodyBase64 (FetchTools.file_options p contentType fileContent)
       = Some (Base64.encode fileContent)
       ∧ JsMap.get (DebugSession.fulfill_params requestId code
                      (FetchTools.file_options p contentType fileContent)) "body"
         = None)
  ∧ (let '(result, s') :=
       FetchTools.fulfillRequestWithFile session_with_paused (file_args "r1" "/tmp/hello.txt")
         (Return "hello") "text/plain" (ReplyResult None) in
     result = success "Request fulfilled with file contents"
     ∧ (params ← last_params s'; Some (has_key params "body")) = Some false
     ∧ (params ← last_params s'; JsMap.get params "responseCode") = Some (JNum 200)).
Proof.
  split_and!.
  - intros requestId code options body Hbody Htruthy. split; [|apply base64_roundtrip].
    unfold DebugSession.fulfill_params. rewrite Hbody, Htruthy.
    destruct (fo_responseHeaders options); destruct (fo_responsePhrase options) as [ph|];
      try destruct (truthy ph) eqn:?; reflexivity.
  - intros s requestId code options reply Hc Hw. by apply command_frame.
  - intros requestId code p contentType fileContent. split; [reflexivity|].
    unfold DebugSession.fulfill_params, FetchTools.file_options. simpl.
    destruct (ff_statusText p) as [ph|]; [destruct ph|]; reflexivity.
  - vm_compute. done.
Qed.

Lemma C9_fulfill_body_on_the_wire_witness :
  JsMap.get
    (DebugSession.fulfill_params "r1" 200
       {| fo_responseHeaders := None; fo_body := Some "hello"; fo_responsePhrase := None;
          fo_bodyBase64 := None |}) "body"
  = Some (JStr "aGVsbG8=").
Proof.
  exact (proj1 (proj1 C9_fulfill_body_on_the_wire "r1" 200%Z
                  {| fo_responseHeaders := None; fo_body := Some "hello";
                     fo_responsePhrase := None; fo_bodyBase64 := None |}
                  "hello" eq_refl eq_refl)).
Defined.

(** ** Entries of a map *)

Lemma Forall_set {K V} `{EqDecision K} (P : K * V → Prop) (m : JsMap.t K V) (k : K) (v : V) :
  Forall P m → P (k, v) → Forall P (JsMap.set m k v).
Proof.
  intros Hall Hnew. induction m as [|[k' v'] m IH]; simpl.
  - by constructor.
  - apply Forall_cons in Hall as [Hhd Htl].
    destruct (decide (k' = k)) as [->|Hne]; constructor; auto.
Qed.

Lemma Forall_delete {K V} `{EqDecision K} (P : K * V → Prop) (m : JsMap.t K V) (k : K) :
  Forall P m → Forall P (JsMap.delete m k).
Proof.
  intros Hall. unfold JsMap.delete. apply Forall_forall.
  intros e [_ He]%list_elem_of_filter. by eapply Forall_forall in Hall.
Qed.

Lemma get_Forall {K V} `{EqDecision K} (P : K * V → Prop) (m : JsMap.t K V) (k : K) (v : V) :
  Forall P m → JsMap.get m k = Some v → P (k, v).
Proof.
  intros Hall Hget. induction m as [|[k' v'] m IH]; [done|].
  apply Forall_cons in Hall as [Hhd Htl]. simpl in Hget.
  destruct (decide (k' = k)) as [->|Hne]; [by injection Hget as <- | by apply IH].
Qed.

(** ** Calls over an open socket *)

(** The session can send: it holds a socket that is open. *)
Definition online (s : DebugSession.t) : Prop :=
  CDPClient.ws (DebugSession.client s) = true
  ∧ CDPClient.connected (DebugSession.client s) = true.

(** A reply that carries a result. *)
Definition is_result (reply : Reply) : bool :=
  match reply with ReplyResult _ => true | _ => false end.

(** The error a call with request id [id] is rejected with when it is
    answered by [reply]: the protocol error Chrome returned, the
    timeout of the request, or the close of the connection. A reply
    with a result rejects nothing. *)
Definition failure (id : N) (method : string) (reply : Reply) : option JsError :=
  match reply with
  | ReplyResult _ => None
  | ReplyError e => Some (CDPClientError (err_code e) (err_message e))
  | ReplyTimeout =>
      Some (Error ("Request timeout: " +:+ method +:+ " (" +:+ pretty id +:+ ")"))
  | ReplyClose => Some (Error "Connection closed")
  end.

(** The frame [send] writes for a call. *)
Definition frame_of (c : CDPClient.t) (method : string)
    (params : option (list (string * Json))) : CDPRequest :=
  {| req_id := (CDPClient.requestId c + 1)%N; req_method := method; req_params := params;
     req_sessionId := if truthy_opt (CDPClient.sessionId c) then CDPClient.sessionId c else None |}.

Lemma frame_apply_reply (c : CDPClient.t) (id : N) (method : string) (v : option Json) :
  let c' := (apply_reply c id method (ReplyResult v)).2 in
  CDPClient.ws c' = CDPClient.ws c ∧ CDPClient.connected c' = CDPClient.connected c.
Proof.
  simpl. unfold CDPClient.handleResponse. cbn [response_id].
  by destruct (JsMap.get (CDPClient.pendingRequests c) id).
Qed.

(** A call over an open socket writes its frame, whatever the answer. *)
Lemma await_send_frame (c : CDPClient.t) (method : string)
    (params : option (list (string * Json))) (reply : Reply) :
  CDPClient.ws c = true → CDPClient.connected c = true →
  CDPClient.wire (await_send c method params reply).2
  = CDPClient.wire c ++ [frame_of c method params].
Proof.
  intros Hws Hc. unfold await_send, CDPClient.send. rewrite Hws, Hc. cbn [negb orb].
  by rewrite wire_apply_reply.
Qed.

(** What a call over an open socket settles with. *)
Lemma await_send_settles (c : CDPClient.t) (method : string)
    (params : option (list (string * Json))) (reply : Reply) :
  CDPClient.ws c = true → CDPClient.connected c = true →
  (await_send c method params reply).1
  = match reply with
    | ReplyResult v => Return v
    | _ => match failure (CDPClient.requestId c + 1) method reply with
           | Some e => Throw e
           | None => Return None
           end
    end.
Proof.
  intros Hws Hc. unfold await_send, CDPClient.send. rewrite Hws, Hc. cbn [negb orb].
  by destruct reply.
Qed.

(** Without an open socket nothing is sent. *)
Lemma await_send_offline (c : CDPClient.t) (method : string)
    (params : option (list (string * Json))) (reply : Reply) :
  CDPClient.ws c = false ∨ CDPClient.connected c = false →
  await_send c method params reply = (Throw (Error "Not connected"), c).
Proof.
  intros Hoff. unfold await_send, CDPClient.send.
  by destruct Hoff as [-> | ->]; [|rewrite orb_true_r].
Qed.

(** A call over an open socket that is answered with a result
    succeeds, and the socket is still open afterwards. *)
Lemma await_send_online (c : CDPClient.t) (method : string)
    (params : option (list (string * Json))) (v : option Json) :
  CDPClient.ws c = true → CDPClient.connected c = true →
  ∃ c', await_send c method params (ReplyResult v) = (Return v, c')
        ∧ CDPClient.ws c' = true ∧ CDPClient.connected c' = true
        ∧ CDPClient.wire c' = CDPClient.wire c ++ [frame_of c method params].
Proof.
  intros Hws Hc.
  pose proof (await_send_settles c method params (ReplyResult v) Hws Hc) as Hres.
  pose proof (await_send_frame c method params (ReplyResult v) Hws Hc) as Hwire.
  unfold await_send, CDPClient.send in *. rewrite Hws, Hc in *. cbn [negb orb] in *.
  match goal with
  | |- context [apply_reply ?c0 ?i ?m (ReplyResult v)] =>
      pose proof (frame_apply_reply c0 i m v) as [Hw' Hc'];
      destruct (apply_reply c0 i m (ReplyResult v)) as [r c']
  end.
  cbn [fst snd CDPClient.ws CDPClient.connected] in *. exists c'. subst r.
  by rewrite Hw', Hc', Hwire.
Qed.

(** Only a reply with a result makes a call succeed. *)
Lemma await_send_Return (c : CDPClient.t) (method : string)
    (params : option (list (string * Json))) (reply : Reply) (v : option Json) :
  (await_send c method params reply).1 = Return v → is_result reply = true.
Proof.
  unfold await_send.
  destruct (CDPClient.send c method params) as [[id|e] c']; [|done].
  by destruct reply.
Qed.

Lemma command_online (s : DebugSession.t) (method : string)
    (params : option (list (string * Json))) (v : option Json)
    (after : DebugSession.t → DebugSession.t) :
  online s →
  ∃ c', DebugSession.command s method params (ReplyResult v) after
        = (Return (), after (DebugSession.with_client s c'))
        ∧ CDPClient.ws c' = true ∧ CDPClient.connected c' = true
        ∧ await_send (DebugSession.client s) method params (ReplyResult v) = (Return v, c').
Proof.
  intros [Hws Hc]. unfold DebugSession.command.
  destruct (await_send_online (DebugSession.client s) method params v Hws Hc)
    as (c' & Hsend & Hw' & Hc' & _).
  exists c'. by rewrite Hsend.
Qed.

(** A command that fails changes nothing but the transport. *)
Lemma command_Throw (s : DebugSession.t) (method : string)
    (params : option (list (string * Json))) (reply : Reply)
    (after : DebugSession.t → DebugSession.t) (e : JsError) :
  (DebugSession.command s method params reply after).1 = Throw e →
  (DebugSession.command s method params reply after).2
  = DebugSession.with_client s (DebugSession.client (DebugSession.command s method params reply after).2).
Proof.
  unfold DebugSession.command. by destruct (await_send _ _ _ _) as [[v|e'] c].
Qed.

Lemma command_Return (s : DebugSession.t) (method : string)
    (params : option (list (string * Json))) (reply : Reply)
    (after : DebugSession.t → DebugSession.t) :
  (DebugSession.command s method params reply after).1 = Return () →
  ∃ c', (DebugSession.command s method params reply after).2
        = after (DebugSession.with_client s c').
Proof.
  unfold DebugSession.command. destruct (await_send _ _ _ _) as [[v|e'] c]; [|done].
  by exists c.
Qed.

(** A command over an open socket, by the answer it gets: its frame is
    written either way; with a result it returns and [after] has run,
    with anything else it throws the error of the answer and only the
    transport has changed. *)
Lemma command_by_reply (s : DebugSession.t) (method : string)
    (params : option (list (string * Json))) (reply : Reply)
    (after : DebugSession.t → DebugSession.t) :
  online s →
  (∀ s0 c, DebugSession.client (after (DebugSession.with_client s0 c)) = c) →
  let r := DebugSession.command s method params reply after in
  CDPClient.wire (DebugSession.client r.2)
  = CDPClient.wire (DebugSession.client s) ++ [frame_of (DebugSession.client s) method params]
  ∧ match failure (CDPClient.requestId (DebugSession.client s) + 1) method reply with
    | None => r.1 = Return ()
              ∧ r.2 = after (DebugSession.with_client s (DebugSession.client r.2))
              ∧ online r.2
    | Some e => r.1 = Throw e ∧ r.2 = DebugSession.with_client s (DebugSession.client r.2)
    end.
Proof.
  intros [Hws Hc] Hafter r. subst r. unfold DebugSession.command.
  pose proof (await_send_frame (DebugSession.client s) method params reply Hws Hc) as Hwire.
  pose proof (await_send_settles (DebugSession.client s) method params reply Hws Hc) as Hres.
  destruct reply as [v| e | |].
  - destruct (await_send_online (DebugSession.client s) method params v Hws Hc)
      as (c' & Hsend & Hw' & Hc' & _).
    rewrite Hsend in *. cbn [fst snd failure] in *. rewrite !Hafter. split; [done|].
    split_and!; [done | done |]. unfold online. by rewrite Hafter.
  - destruct (await_send _ _ _ _) as [res c']. cbn [fst snd failure] in *. subst res.
    by cbn [fst snd DebugSession.client DebugSession.with_client].
  - destruct (await_send _ _ _ _) as [res c']. cbn [fst snd failure] in *. subst res.
    by cbn [fst snd DebugSession.client DebugSession.with_client].
  - destruct (await_send _ _ _ _) as [res c']. cbn [fst snd failure] in *. subst res.
    by cbn [fst snd DebugSession.client DebugSession.with_client].
Qed.

(** A command without an open socket throws and changes nothing. *)
Lemma command_offline (s : DebugSession.t) (method : string)
    (params : option (list (string * Json))) (reply : Reply)
    (after : DebugSession.t → DebugSession.t) :
  CDPClient.ws (DebugSession.client s) = false
  ∨ CDPClient.connected (DebugSession.client s) = false →
  DebugSession.command s method params reply after = (Throw (Error "Not connected"), s).
Proof.
  intros Hoff. unfold DebugSession.command. rewrite await_send_offline by done.
  by destruct s.
Qed.

(** ** Dispatching a paused request *)

(** The three dispatch tools, with their arguments. *)
Inductive Dispatch : Type :=
| continue_request (p : ContinueArgs)
| fulfill_request (p : FulfillArgs)
| fail_request (p : FailArgs).

Definition dispatch_id (d : Dispatch) : string :=
  match d with
  | continue_request p => ca_requestId p
  | fulfill_request p => fa_requestId p
  | fail_request p => fl_requestId p
  end.

Definition dispatch (s : DebugSession.t) (d : Dispatch) (reply : Reply)
  : ToolResult * DebugSession.t :=
  match d with
  | continue_request p => FetchTools.continueRequest s p reply
  | fulfill_request p => FetchTools.fulfillRequest s p reply
  | fail_request p => FetchTools.failRequest s p reply
  end.

Definition paused_in (s : DebugSession.t) (id : string) : option PausedRequest :=
  FetchInterceptor.getPausedRequest (DebugSession.fetchInterceptor s) id.

Definition continue_r1 : Dispatch :=
  continue_request
    {| ca_requestId := "r1"; ca_url := None; ca_method := None; ca_postData := None;
       ca_headers := None |}.

Definition invalid_interception : CDPError :=
  {| err_code := -32602; err_message := "Invalid InterceptionId."; err_data := None |}.

(** C7, as stated, fails: when Chrome answers [Fetch.continueRequest]
    with an error, the tool reports the error and the request stays in
    the paused table. *)
Lemma C7_counterexample :
  let '(result, s') := dispatch session_with_paused continue_r1 (ReplyError invalid_interception) in
  paused_in session_with_paused "r1" = Some (sample_paused_request "r1")
  ∧ result = error "Invalid InterceptionId."
  ∧ paused_in s' "r1" = Some (sample_paused_request "r1").
Proof. vm_compute. done. Qed.

(** The request-id counter moves in [send] only. *)
Lemma requestId_rejectAllPending (c : CDPClient.t) (message : string) :
  CDPClient.requestId (CDPClient.rejectAllPending c message) = CDPClient.requestId c.
Proof.
  unfold CDPClient.rejectAllPending.
  by destruct (foldl _ _ _).
Qed.

Lemma requestId_handleResponse (c : CDPClient.t) (r : CDPResponse) :
  CDPClient.requestId (CDPClient.handleResponse c r) = CDPClient.requestId c.
Proof.
  unfold CDPClient.handleResponse.
  by destruct (JsMap.get _ _).
Qed.

Lemma requestId_timer_fire (c : CDPClient.t) (id : N) :
  CDPClient.requestId (CDPClient.timer_fire c id) = CDPClient.requestId c.
Proof.
  unfold CDPClient.timer_fire.
  by destruct (JsMap.get _ _).
Qed.

Lemma requestId_apply_reply (c : CDPClient.t) (id : N) (method : string) (reply : Reply) :
  CDPClient.requestId (apply_reply c id method reply).2 = CDPClient.requestId c.
Proof.
  destruct reply; simpl;
    [apply requestId_handleResponse | apply requestId_handleResponse
    | apply requestId_timer_fire
    | unfold CDPClient.on_close; by rewrite requestId_rejectAllPending].
Qed.

Lemma requestId_await_send (c : CDPClient.t) (method : string)
    (params : option (list (string * Json))) (reply : Reply) :
  CDPClient.requestId (await_send c method params reply).2
  = CDPClient.requestId (CDPClient.send c method params).2.
Proof.
  unfold await_send.
  destruct (CDPClient.send c method params) as [[id|e] c']; simpl; [|done].
  apply requestId_apply_reply.
Qed.

Lemma finish_command (s : DebugSession.t) (method : string)
    (params : option (list (string * Json))) (reply : Reply) (id text : string) :
  let r := FetchTools.finish
             (DebugSession.command s method params reply (DebugSession.remove_paused id)) text in
  (tool_isError r.1 = false ∧ r.1 = success text
   ∧ DebugSession.fetchInterceptor r.2
     = FetchInterceptor.removePausedRequest (DebugSession.fetchInterceptor s) id)
  ∨ (tool_isError r.1 = true
     ∧ DebugSession.fetchInterceptor r.2 = DebugSession.fetchInterceptor s).
Proof.
  unfold DebugSession.command, FetchTools.finish.
  destruct (await_send _ _ _ _) as [[v|e] c]; simpl; [left | right]; done.
Qed.

Lemma removed_paused (f : FetchInterceptor.t) (id : string) :
  FetchInterceptor.getPausedRequest (FetchInterceptor.removePausedRequest f id) id = None
  ∧ ∀ other, other ≠ id →
      FetchInterceptor.getPausedRequest (FetchInterceptor.removePausedRequest f id) other
      = FetchInterceptor.getPausedRequest f other.
Proof.
  unfold FetchInterceptor.getPausedRequest, FetchInterceptor.removePausedRequest.
  simpl. split; [apply JsMap.get_delete_eq | intros; by apply JsMap.get_delete_ne].
Qed.

Lemma command_requestId (s : DebugSession.t) (method : string)
    (params : option (list (string * Json))) (reply : Reply) (id : string) :
  CDPClient.connected (DebugSession.client s) = true →
  CDPClient.ws (DebugSession.client s) = true →
  CDPClient.requestId
    (DebugSession.client
       (DebugSession.command s method params reply (DebugSession.remove_paused id)).2)
  = (CDPClient.requestId (DebugSession.client s) + 1)%N.
Proof.
  intros Hc Hw.
  pose proof (requestId_await_send (DebugSession.client s) method params reply) as Hreq.
  unfold CDPClient.send in Hreq. rewrite Hc, Hw in Hreq. simpl in Hreq.
  unfold DebugSession.command.
  destruct (await_send _ _ _ _) as [[?|?] ?]; simpl in *; done.
Qed.

(** The common shape of the three handlers. *)
Lemma handler_shape (s : DebugSession.t) (id text method : string)
    (params : option (list (string * Json))) (reply : Reply) :
  let r := match FetchInterceptor.getPausedRequest (DebugSession.fetchInterceptor s) id with
           | None => (FetchTools.not_found, s)
           | Some _ =>
               FetchTools.finish
                 (DebugSession.command s method params reply (DebugSession.remove_paused id)) text
           end in
  (paused_in s id = None →
     r.1 = error "Request not found in paused requests" ∧ r.2 = s)
  ∧ (is_Some (paused_in s id) → tool_isError r.1 = false →
       paused_in r.2 id = None
       ∧ ∀ other, other ≠ id → paused_in r.2 other = paused_in s other)
  ∧ (is_Some (paused_in s id) → tool_isError r.1 = true →
       DebugSession.fetchInterceptor r.2 = DebugSession.fetchInterceptor s)
  ∧ (is_Some (paused_in s id) → CDPClient.connected (DebugSession.client s) = true →
       CDPClient.ws (DebugSession.client s) = true →
       CDPClient.requestId (DebugSession.client r.2)
       = (CDPClient.requestId (DebugSession.client s) + 1)%N).
Proof.
  unfold paused_in.
  pose proof (finish_command s method params reply id text) as Hfin.
  pose proof (command_requestId s method params reply id) as Hid.
  destruct (FetchInterceptor.getPausedRequest (DebugSession.fetchInterceptor s) id) as [pr|];
    simpl in *.
  - split_and!.
    + done.
    + intros _ Herr. destruct Hfin as [(_ & _ & Hf)|(Hbad & _)]; [|congruence].
      rewrite Hf. apply removed_paused.
    + intros _ Herr. destruct Hfin as [(Hok & _ & _)|(_ & Hf)]; [congruence | done].
    + intros _ Hc Hw. rewrite <- (Hid Hc Hw). unfold FetchTools.finish.
      by destruct (DebugSession.command _ _ _ _ _) as [[?|?] ?].
  - split_and!; [done | by intros [? ?] | by intros [? ?] | by intros [? ?]].
Qed.

(** The CDP method a dispatch tool calls. *)
Definition dispatch_method (d : Dispatch) : string :=
  match d with
  | continue_request _ => "Fetch.continueRequest"
  | fulfill_request _ => "Fetch.fulfillRequest"
  | fail_request _ => "Fetch.failRequest"
  end.

(** The parameters it calls it with. *)
Definition dispatch_params (d : Dispatch) : list (string * Json) :=
  match d with
  | continue_request p =>
      DebugSession.continue_params (ca_requestId p)
        {| co_url := ca_url p; co_method := ca_method p; co_postData := ca_postData p;
           co_headers := FetchTools.entries <$> ca_headers p |}
  | fulfill_request p =>
      DebugSession.fulfill_params (fa_requestId p) (fa_status p)
        {| fo_responseHeaders := FetchTools.entries <$> fa_headers p; fo_body := fa_body p;
           fo_responsePhrase := fa_statusText p; fo_bodyBase64 := None |}
  | fail_request p =>
      [("requestId", JStr (fl_requestId p)); ("errorReason", JStr (fl_reason p))]
  end.

(** The text it reports on success. *)
Definition dispatch_text (d : Dispatch) : string :=
  match d with
  | continue_request _ => "Request continued"
  | fulfill_request _ => "Request fulfilled with mock response"
  | fail_request _ => "Request failed"
  end.

Lemma client_remove_paused (id : string) (s0 : DebugSession.t) (c : CDPClient.t) :
  DebugSession.client (DebugSession.remove_paused id (DebugSession.with_client s0 c)) = c.
Proof. done. Qed.

(** The handlers once more, by the answer to the call. *)
Lemma handler_by_reply (s : DebugSession.t) (id text method : string)
    (params : option (list (string * Json))) (reply : Reply) :
  let r := match FetchInterceptor.getPausedRequest (DebugSession.fetchInterceptor s) id with
           | None => (FetchTools.not_found, s)
           | Some _ =>
               FetchTools.finish
                 (DebugSession.command s method params reply (DebugSession.remove_paused id)) text
           end in
  is_Some (paused_in s id) →
  (online s →
     CDPClient.wire (DebugSession.client r.2)
     = CDPClient.wire (DebugSession.client s) ++ [frame_of (DebugSession.client s) method params]
     ∧ match failure (CDPClient.requestId (DebugSession.client s) + 1) method reply with
       | None =>
           r.1 = success text
           ∧ paused_in r.2 id = None
           ∧ ∀ other, other ≠ id → paused_in r.2 other = paused_in s other
       | Some e =>
           r.1 = error (error_message e)
           ∧ DebugSession.fetchInterceptor r.2 = DebugSession.fetchInterceptor s
       end)
  ∧ (CDPClient.ws (DebugSession.client s) = false
     ∨ CDPClient.connected (DebugSession.client s) = false →
     r = (error "Not connected", s)).
Proof.
  cbv zeta. unfold paused_in. intros [pr Hpr]. rewrite Hpr. split.
  - intros Hon.
    pose proof (command_by_reply s method params reply (DebugSession.remove_paused id) Hon
                  (client_remove_paused id)) as [Hwire Hout].
    unfold FetchTools.finish.
    destruct (DebugSession.command s method params reply (DebugSession.remove_paused id))
      as [[u|e] s'] eqn:Hcmd; cbn [fst snd] in *.
    + split; [done|].
      destruct (failure _ method reply) as [e|]; [by destruct Hout|].
      destruct Hout as (_ & -> & _). split; [done|]. apply removed_paused.
    + split; [done|].
      destruct (failure _ method reply) as [e'|]; [|by destruct Hout].
      destruct Hout as [[= <-] ->]. by split.
  - intros Hoff. by rewrite command_offline.
Qed.

(** C7, amended. A dispatch tool called for a request id that is not
    in the paused table answers with the not-found error and touches
    nothing: no frame is written, no request id is used, the table is
    as it was. Called for an id that is in the table, on a session
    whose socket is open, it issues its CDP call: the frame written
    carries the next request id, the [Fetch] method of the tool and the
    parameters built from its arguments. When Chrome answers the call
    with a result, the tool reports success and the entry of that id,
    and only that one, is removed. When the call fails, by a protocol
    error, a timeout or the close of the connection, the tool reports
    that error and the table is as it was. On a session without an
    open socket the tool reports [Not connected] and the session is as
    it was. In every case, a tool that reports no error has removed
    the entry and a tool that reports an error has left the table
    alone. *)
Theorem C7_dispatch_paused_request (s : DebugSession.t) (d : Dispatch) (reply : Reply) :
  let id := dispatch_id d in
  let result := (dispatch s d reply).1 in
  let s' := (dispatch s d reply).2 in
  (paused_in s id = None →
     result = error "Request not found in paused requests" ∧ s' = s)
  ∧ (is_Some (paused_in s id) → tool_isError result = false →
       paused_in s' id = None
       ∧ ∀ other, other ≠ id → paused_in s' other = paused_in s other)
  ∧ (is_Some (paused_in s id) → tool_isError result = true →
       DebugSession.fetchInterceptor s' = DebugSession.fetchInterceptor s)
  ∧ (is_Some (paused_in s id) → CDPClient.connected (DebugSession.client s) = true →
       CDPClient.ws (DebugSession.client s) = true →
       CDPClient.requestId (DebugSession.client s')
       = (CDPClient.requestId (DebugSession.client s) + 1)%N)
  ∧ (is_Some (paused_in s id) → online s →
       CDPClient.wire (DebugSession.client s')
       = CDPClient.wire (DebugSession.client s)
         ++ [{| req_id := (CDPClient.requestId (DebugSession.client s) + 1)%N;
                req_method := dispatch_method d;
                req_params := Some (dispatch_params d);
                req_sessionId :=
                  if truthy_opt (CDPClient.sessionId (DebugSession.client s))
                  then CDPClient.sessionId (DebugSession.client s) else None |}]
       ∧ match failure (CDPClient.requestId (DebugSession.client s) + 1)
                 (dispatch_method d) reply with
         | None =>
             result = success (dispatch_text d)
             ∧ paused_in s' id = None
             ∧ ∀ other, other ≠ id → paused_in s' other = paused_in s other
         | Some e =>
             result = error (error_message e)
             ∧ DebugSession.fetchInterceptor s' = DebugSession.fetchInterceptor s
         end)
  ∧ (is_Some (paused_in s id) →
     CDPClient.ws (DebugSession.client s) = false
     ∨ CDPClient.connected (DebugSession.client s) = false →
     result = error "Not connected" ∧ s' = s).
Proof.
  intros id result s'.
  assert (Hshape :
    (paused_in s id = None →
       result = error "Request not found in paused requests" ∧ s' = s)
    ∧ (is_Some (paused_in s id) → tool_isError result = false →
         paused_in s' id = None
         ∧ ∀ other, other ≠ id → paused_in s' other = paused_in s other)
    ∧ (is_Some (paused_in s id) → tool_isError result = true →
         DebugSession.fetchInterceptor s' = DebugSession.fetchInterceptor s)
    ∧ (is_Some (paused_in s id) → CDPClient.connected (DebugSession.client s) = true →
         CDPClient.ws (DebugSession.client s) = true →
         CDPClient.requestId (DebugSession.client s')
         = (CDPClient.requestId (DebugSession.client s) + 1)%N)).
  { subst id result s'. destruct d as [p|p|p]; simpl;
      [ apply (handler_shape s (ca_requestId p) "Request continued" "Fetch.continueRequest")
      | apply (handler_shape s (fa_requestId p) "Request fulfilled with mock response"
                 "Fetch.fulfillRequest")
      | apply (handler_shape s (fl_requestId p) "Request failed" "Fetch.failRequest") ]. }
  destruct Hshape as (H1 & H2 & H3 & H4). split_and!; [done | done | done | done | |].
  - intros Hin Hon. subst id result s'.
    destruct d as [p|p|p]; cbn [dispatch dispatch_id dispatch_method dispatch_params
                                 dispatch_text] in *.
    + exact (proj1 (handler_by_reply s (ca_requestId p) "Request continued"
                      "Fetch.continueRequest"
                      (Some (dispatch_params (continue_request p))) reply Hin) Hon).
    + exact (proj1 (handler_by_reply s (fa_requestId p) "Request fulfilled with mock response"
                      "Fetch.fulfillRequest"
                      (Some (dispatch_params (fulfill_request p))) reply Hin) Hon).
    + exact (proj1 (handler_by_reply s (fl_requestId p) "Request failed"
                      "Fetch.failRequest"
                      (Some (dispatch_params (fail_request p))) reply Hin) Hon).
  - intros Hin Hoff. subst id result s'.
    destruct d as [p|p|p]; cbn [dispatch dispatch_id] in *.
    + assert (Hr : FetchTools.continueRequest s p reply = (error "Not connected", s))
        by exact (proj2 (handler_by_reply s (ca_requestId p) "Request continued"
                           "Fetch.continueRequest"
                           (Some (dispatch_params (continue_request p))) reply Hin) Hoff).
      by rewrite Hr.
    + assert (Hr : FetchTools.fulfillRequest s p reply = (error "Not connected", s))
        by exact (proj2 (handler_by_reply s (fa_requestId p)
                           "Request fulfilled with mock response" "Fetch.fulfillRequest"
                           (Some (dispatch_params (fulfill_request p))) reply Hin) Hoff).
      by rewrite Hr.
    + assert (Hr : FetchTools.failRequest s p reply = (error "Not connected", s))
        by exact (proj2 (handler_by_reply s (fl_requestId p) "Request failed"
                           "Fetch.failRequest"
                           (Some (dispatch_params (fail_request p))) reply Hin) Hoff).
      by rewrite Hr.
Qed.

Lemma C7_dispatch_paused_request_witness :
  let done := dispatch session_with_paused continue_r1 (ReplyResult None) in
  let failed := dispatch session_with_paused continue_r1 ReplyTimeout in
  is_Some (paused_in session_with_paused "r1")
  ∧ done.1 = success "Request continued"
  ∧ paused_in done.2 "r1" = None
  ∧ failed.1 = error "Request timeout: Fetch.continueRequest (1)"
  ∧ paused_in failed.2 "r1" = Some (sample_paused_request "r1").
Proof.
  assert (Hin : is_Some (paused_in session_with_paused "r1")) by (by eexists).
  assert (Hon : online session_with_paused) by (by split).
  destruct (C7_dispatch_paused_request session_with_paused continue_r1 (ReplyResult None))
    as (_ & _ & _ & _ & Hdone & _).
  destruct (C7_dispatch_paused_request session_with_paused continue_r1 ReplyTimeout)
    as (_ & _ & _ & _ & Hfailed & _).
  destruct (Hdone Hin Hon) as (_ & Hok & Hgone & _).
  destruct (Hfailed Hin Hon) as (_ & Herr & Hkept).
  split_and!; [exact Hin | exact Hok | exact Hgone | exact Herr |].
  unfold paused_in. by rewrite Hkept.
Defined.

(** ** Patterns that do not compile *)

Lemma length_app_string (x y : string) :
  String.length (x +:+ y) = (String.length x + String.length y)%nat.
Proof. induction x as [|c x IH]; simpl; [done | by rewrite IH]. Qed.

Lemma substring_app_l (x y : string) : substring 0 (String.length x) (x +:+ y) = x.
Proof. induction x as [|c x IH]; simpl; [by destruct y | by rewrite IH]. Qed.

Lemma substring_all (y : string) : substring 0 (String.length y) y = y.
Proof. induction y as [|d y IHy]; simpl; [done | by rewrite IHy]. Qed.

Lemma substring_app_r (x y : string) :
  substring (String.length x) (String.length y) (x +:+ y) = y.
Proof. induction x as [|c x IH]; [apply substring_all | exact IH]. Qed.

(** The text [/inner/] is read as a regular expression with source [inner]. *)
Lemma slashed_pattern (inner : string) :
  let pattern := "/" +:+ inner +:+ "/" in
  String.eqb pattern "*" = false
  ∧ Js.startsWith pattern "/" = true
  ∧ Js.endsWith pattern "/" = true
  ∧ Js.slice_1_m1 pattern = inner.
Proof.
  change ("/" +:+ inner +:+ "/") with (String "/" (inner +:+ "/")).
  cbv zeta. split_and!.
  - reflexivity.
  - unfold Js.startsWith. by destruct (inner +:+ "/").
  - unfold Js.endsWith. cbn [String.length]. rewrite length_app_string. cbn [String.length].
    apply andb_true_intro. split; [apply Nat.leb_le; lia|].
    replace (S (String.length inner + 1) - 1)%nat
      with (String.length (String "/" inner)) by (cbn [String.length]; lia).
    change (String "/" (inner +:+ "/")) with (String "/" inner +:+ "/").
    change 1%nat with (String.length "/") at 1.
    by rewrite (substring_app_r (String "/" inner) "/").
  - unfold Js.slice_1_m1. cbn [String.length]. rewrite length_app_string. cbn [String.length].
    replace (S (String.length inner + 1) - 2)%nat with (String.length inner) by lia.
    cbn [substring]. apply substring_app_l.
Qed.

(** C3. For a pattern [/inner/] whose source does not compile,
    [FetchInterceptor.matchesPattern] answers [false] without throwing.
    The other two users of the pattern language do not: they build the
    expression outside any [try], so [ScriptRegistry.matchesUrl],
    [ScriptRegistry.findScriptsByUrlPattern] and
    [NetworkState.getRequestsByUrl] throw the [SyntaxError] of
    [new RegExp]. *)
Theorem C3_pattern_that_does_not_compile `{RegExpEngine} (url inner : string) :
  regexp_new inner = None →
  let pattern := "/" +:+ inner +:+ "/" in
  FetchInterceptor.matchesPattern url pattern = Return false
  ∧ ScriptRegistry.matchesUrl url pattern = Throw (SyntaxError inner)
  ∧ (∀ registry, ScriptRegistry.findScriptsByUrlPattern registry pattern
                 = Throw (SyntaxError inner))
  ∧ (∀ state, NetworkState.getRequestsByUrl state pattern = Throw (SyntaxError inner)).
Proof.
  intros Hbad pattern.
  destruct (slashed_pattern inner) as (Hstar & Hstart & Hend & Hslice).
  fold pattern in Hstar, Hstart, Hend, Hslice.
  unfold FetchInterceptor.matchesPattern, ScriptRegistry.matchesUrl,
    ScriptRegistry.findScriptsByUrlPattern, NetworkState.getRequestsByUrl,
    ScriptRegistry.patternToRegex, NetworkState.patternToRegex, new_RegExp.
  rewrite Hstar, Hstart, Hend, Hslice, Hbad. simpl. done.
Qed.

Lemma C3_pattern_that_does_not_compile_witness :
  FetchInterceptor.matchesPattern "test" "/[invalid/" = Return false
  ∧ ScriptRegistry.matchesUrl "test" "/[invalid/" = Throw (SyntaxError "[invalid")
  ∧ NetworkState.getRequestsByUrl NetworkState.new "/[invalid/" = Throw (SyntaxError "[invalid").
Proof.
  assert (Hbad : regexp_new "[invalid" = None) by (vm_compute; reflexivity).
  destruct (C3_pattern_that_does_not_compile "test" "[invalid" Hbad) as (H1 & H2 & _ & H4).
  split_and!; [exact H1 | exact H2 | exact (H4 NetworkState.new)].
Defined.

(** ** Rule identifiers *)

(** The operations of the interceptor, as a session may interleave them. *)
Inductive RuleOp : Type :=
| OpAddRule (rule : RuleInput)
| OpRemoveRule (ruleId : string)
| OpUpdateRule (ruleId : string) (updates : RuleUpdates)
| OpEnableRule (ruleId : string) (e : bool)
| OpClearRules
| OpSetEnabled (e : bool)
| OpRequestPaused (event : FetchRequestPaused) (now : Z)
| OpRemovePausedRequest (requestId : string)
| OpClearPausedRequests
| OpReset.

Definition is_reset (op : RuleOp) : bool :=
  match op with OpReset => true | _ => false end.

Definition is_add (op : RuleOp) : bool :=
  match op with OpAddRule _ => true | _ => false end.

(** One operation: the id it returns, if it is [addRule], and the state
    it leaves. A [requestPaused] event whose handler throws leaves the
    state as it was. *)
Definition apply_op `{RegExpEngine} (s : FetchInterceptor.t) (op : RuleOp)
  : option string * FetchInterceptor.t :=
  match op with
  | OpAddRule rule => let '(id, s') := FetchInterceptor.addRule s rule in (Some id, s')
  | OpRemoveRule ruleId => (None, (FetchInterceptor.removeRule s ruleId).2)
  | OpUpdateRule ruleId updates => (None, (FetchInterceptor.updateRule s ruleId updates).2)
  | OpEnableRule ruleId e => (None, (FetchInterceptor.enableRule s ruleId e).2)
  | OpClearRules => (None, FetchInterceptor.clearRules s)
  | OpSetEnabled e => (None, FetchInterceptor.setEnabled s e)
  | OpRequestPaused event now =>
      (None, match FetchInterceptor.onRequestPaused s event now with
             | Return r => r.2
             | Throw _ => s
             end)
  | OpRemovePausedRequest requestId => (None, FetchInterceptor.removePausedRequest s requestId)
  | OpClearPausedRequests => (None, FetchInterceptor.clearPausedRequests s)
  | OpReset => (None, FetchInterceptor.reset s)
  end.

(** A run of operations: the ids [addRule] returned, in order, and the
    final state. *)
Fixpoint run_ops `{RegExpEngine} (s : FetchInterceptor.t) (ops : list RuleOp)
  : list string * FetchInterceptor.t :=
  match ops with
  | [] => ([], s)
  | op :: rest =>
      let '(returned, s') := apply_op s op in
      let '(ids, s'') := run_ops s' rest in
      (match returned with Some id => id :: ids | None => ids end, s'')
  end.

Definition has_reset (ops : list RuleOp) : bool := existsb is_reset ops.

(** The names of the [k] counter values after [c]. *)
Fixpoint names_after (c : N) (k : nat) : list string :=
  match k with
  | O => []
  | S k' => FetchInterceptor.rule_name (c + 1) :: names_after (c + 1) k'
  end.

Lemma rule_name_inj (a b : N) :
  FetchInterceptor.rule_name a = FetchInterceptor.rule_name b → a = b.
Proof.
  unfold FetchInterceptor.rule_name. intros Heq%(inj (String.app "rule-")).
  by apply (inj pretty).
Qed.

Lemma names_after_above (c : N) (k : nat) (n : N) :
  FetchInterceptor.rule_name n ∈ names_after c k → (c < n)%N.
Proof.
  revert c. induction k as [|k IH]; intros c; simpl.
  - by intros ?%elem_of_nil.
  - intros [Heq|Hin]%elem_of_cons.
    + apply rule_name_inj in Heq. lia.
    + apply IH in Hin. lia.
Qed.

Lemma names_after_NoDup (c : N) (k : nat) : NoDup (names_after c k).
Proof.
  revert c. induction k as [|k IH]; intros c; simpl; [apply NoDup_nil_2|].
  apply NoDup_cons. split; [|apply IH].
  intros Hin%names_after_above. lia.
Qed.

(** Without [reset], the counter moves in [addRule] only, by one. *)
Lemma counter_apply_op `{RegExpEngine} (s : FetchInterceptor.t) (op : RuleOp) :
  is_reset op = false →
  FetchInterceptor.ruleIdCounter (apply_op s op).2
  = (FetchInterceptor.ruleIdCounter s + if is_add op then 1 else 0)%N
  ∧ (apply_op s op).1
    = if is_add op then Some (FetchInterceptor.rule_name (FetchInterceptor.ruleIdCounter s + 1))
      else None.
Proof.
  intros Hr. destruct op; simpl in *; try discriminate; try (split; [lia | done]).
  - unfold FetchInterceptor.updateRule. destruct (JsMap.get _ _); simpl; (split; [lia | done]).
  - unfold FetchInterceptor.enableRule. destruct (JsMap.get _ _); simpl; (split; [lia | done]).
  - unfold FetchInterceptor.onRequestPaused.
    destruct (FetchInterceptor.findMatchingRule _ _ _); simpl; (split; [lia | done]).
Qed.

Lemma run_ops_names `{RegExpEngine} (ops : list RuleOp) (s : FetchInterceptor.t) :
  has_reset ops = false →
  (run_ops s ops).1
  = names_after (FetchInterceptor.ruleIdCounter s) (length (List.filter is_add ops))
  ∧ FetchInterceptor.ruleIdCounter (run_ops s ops).2
    = (FetchInterceptor.ruleIdCounter s + N.of_nat (length (List.filter is_add ops)))%N.
Proof.
  revert s. induction ops as [|op ops IH]; intros s Hr; simpl.
  - split; [done | lia].
  - simpl in Hr. apply orb_false_elim in Hr as [Hop Hops].
    destruct (counter_apply_op s op Hop) as [Hc Hid].
    destruct (apply_op s op) as [returned s'] eqn:Hap. simpl in Hc, Hid.
    destruct (IH s' Hops) as [IH1 IH2].
    destruct (run_ops s' ops) as [ids s''] eqn:Hrun. simpl in IH1, IH2 |- *.
    rewrite Hc in IH1, IH2. subst returned ids.
    destruct (is_add op); simpl.
    + split; [done | lia].
    + rewrite N.add_0_r in *. split; [done | lia].
Qed.

(** C5. From the start of a session, and indeed from any state, a run
    of interceptor operations without [reset] never returns the same id
    from [addRule] twice: the ids are the names of the successive values
    of the counter. The counter moves by one in [addRule], is left
    alone by every other operation but [reset], and is set back to zero
    by [reset], after which the ids repeat. *)
Theorem C5_rule_ids_not_reused `{RegExpEngine} :
  (∀ ops, has_reset ops = false → NoDup (run_ops FetchInterceptor.new ops).1)
  ∧ (∀ s ops, has_reset ops = false →
       NoDup (run_ops s ops).1
       ∧ ∀ n, FetchInterceptor.rule_name n ∈ (run_ops s ops).1 →
              (FetchInterceptor.ruleIdCounter s < n)%N)
  ∧ (∀ s op, is_reset op = false →
       FetchInterceptor.ruleIdCounter (apply_op s op).2
       = (FetchInterceptor.ruleIdCounter s + if is_add op then 1 else 0)%N)
  ∧ (∀ s, FetchInterceptor.ruleIdCounter (FetchInterceptor.reset s) = 0%N)
  ∧ (run_ops FetchInterceptor.new
       [OpAddRule sample_rule; OpRemoveRule "rule-1"; OpAddRule sample_rule]).1
    = ["rule-1"; "rule-2"]
  ∧ (run_ops FetchInterceptor.new [OpAddRule sample_rule; OpReset; OpAddRule sample_rule]).1
    = ["rule-1"; "rule-1"].
Proof.
  split_and!.
  - intros ops Hr. destruct (run_ops_names ops FetchInterceptor.new Hr) as [-> _].
    apply names_after_NoDup.
  - intros s ops Hr. destruct (run_ops_names ops s Hr) as [-> _].
    split; [apply names_after_NoDup | intros n; apply names_after_above].
  - intros s op Hr. by destruct (counter_apply_op s op Hr).
  - done.
  - reflexivity.
  - reflexivity.
Qed.

Lemma C5_rule_ids_not_reused_witness :
  NoDup (run_ops FetchInterceptor.new
           [OpAddRule sample_rule; OpRemoveRule "rule-1"; OpClearRules; OpAddRule sample_rule;
            OpEnableRule "rule-2" false; OpAddRule sample_rule]).1.
Proof.
  exact (proj1 (C5_rule_ids_not_reused (H := literal_engine))
           [OpAddRule sample_rule; OpRemoveRule "rule-1"; OpClearRules; OpAddRule sample_rule;
            OpEnableRule "rule-2" false; OpAddRule sample_rule] eq_refl).
Defined.

(** ** Bounded collection of network requests *)

Definition sample_sent (id : string) : RequestWillBeSent :=
  {| rws_requestId := id; rws_request := sample_request "http://example.com/api";
     rws_timestamp := 1000; rws_type := "XHR" |}.

(** A fresh collector with the given bound, fed a run of events. *)
Definition collect (max : Z) (events : list RequestWillBeSent) : NetworkState.t :=
  foldl NetworkState.onRequestWillBeSent
    (NetworkState.setMaxRequests NetworkState.new max) events.

(** The scenario of the specification: bound 5, ids [req0] to [req9]. *)
Example network_bounded_eviction :
  let s := collect 5 (map (fun i => sample_sent ("req" +:+ pretty i)) (seq 0 10)) in
  NetworkState.getCount s = 5%nat
  ∧ map cr_requestId (NetworkState.getAllRequests s) = ["req5"; "req6"; "req7"; "req8"; "req9"].
Proof. vm_compute. done. Qed.

(** C4, as stated, fails at the bound 0: the record just inserted is
    always kept, so one event leaves one record, not zero. *)
Lemma C4_counterexample :
  let s := collect 0 [sample_sent "req0"] in
  NetworkState.maxRequests s = 0%Z
  ∧ NetworkState.getCount s = 1%nat
  ∧ NetworkState.getAllRequests s = [NetworkState.record_of (sample_sent "req0")].
Proof. vm_compute. done. Qed.

(** A record whose id is the empty string is never evicted: the guard
    on the oldest key reads the empty string as no key. The amended
    statement below leaves such ids out. *)
Example empty_id_is_never_evicted :
  map cr_requestId
    (NetworkState.getAllRequests (collect 1 [sample_sent EmptyString; sample_sent "a"; sample_sent "b"]))
  = [EmptyString; "a"; "b"].
Proof. vm_compute. done. Qed.

(** The entry stored for an event. *)
Definition entry_of (p : RequestWillBeSent) : string * CollectedRequest :=
  (rws_requestId p, NetworkState.record_of p).

(** The [m] most recent elements of a list. *)
Definition most_recent {A} (m : nat) (l : list A) : list A := drop (length l - m) l.

Lemma most_recent_short {A} (m : nat) (l : list A) :
  (length l ≤ m)%nat → most_recent m l = l.
Proof. intros Hl. unfold most_recent. by replace (length l - m)%nat with 0%nat by lia. Qed.

Lemma most_recent_length {A} (m : nat) (l : list A) :
  length (most_recent m l) = min m (length l).
Proof. unfold most_recent. rewrite length_drop. lia. Qed.

Lemma most_recent_snoc_full {A} (m : nat) (l : list A) (x : A) :
  (1 ≤ m)%nat → (m ≤ length l)%nat →
  most_recent m (l ++ [x]) = drop 1 (most_recent m l) ++ [x].
Proof.
  intros Hpos Hm. unfold most_recent. rewrite length_app. simpl.
  rewrite drop_drop.
  replace (length l + 1 - m)%nat with (length l - m + 1)%nat by lia.
  rewrite drop_app_le by lia. done.
Qed.

Lemma maxRequests_onRequestWillBeSent (s : NetworkState.t) (p : RequestWillBeSent) :
  NetworkState.maxRequests (NetworkState.onRequestWillBeSent s p) = NetworkState.maxRequests s.
Proof. done. Qed.

(** One event, on a collector that holds the most recent entries of a
    duplicate-free history with truthy ids. *)
Lemma onRequestWillBeSent_most_recent (s : NetworkState.t) (history : list RequestWillBeSent)
    (p : RequestWillBeSent) :
  (1 ≤ NetworkState.maxRequests s)%Z →
  NoDup (map rws_requestId (history ++ [p])) →
  Forall (fun e => truthy (rws_requestId e) = true) history →
  NetworkState.requests s
  = map entry_of (most_recent (Z.to_nat (NetworkState.maxRequests s)) history) →
  NetworkState.requests (NetworkState.onRequestWillBeSent s p)
  = map entry_of (most_recent (Z.to_nat (NetworkState.maxRequests s)) (history ++ [p])).
Proof.
  intros Hmax Hnd Htruthy Hreq.
  set (m := Z.to_nat (NetworkState.maxRequests s)) in *.
  rewrite map_app in Hnd. apply NoDup_app in Hnd as (Hnd & Hfresh & _).
  assert (Hp : ∀ l, l ⊆ history → rws_requestId p ∉ JsMap.keys (map entry_of l)).
  { intros l Hl Hin. unfold JsMap.keys in Hin. rewrite <- list_fmap_compose in Hin.
    apply list_elem_of_fmap in Hin as (e & He & Hein). simpl in He.
    apply (Hfresh (rws_requestId e)).
    - apply list_elem_of_fmap. exists e. split; [done | by apply Hl].
    - rewrite <- He. apply list_elem_of_here. }
  unfold NetworkState.onRequestWillBeSent, NetworkState.evict_oldest. simpl.
  rewrite Hreq. unfold JsMap.size. rewrite length_map, most_recent_length.
  destruct (decide (length history < m)%nat) as [Hlt|Hge].
  - (* room left: nothing is evicted *)
    replace (NetworkState.maxRequests s <=? Z.of_nat (min m (length history)))%Z with false
      by (symmetry; apply Z.leb_gt; lia).
    rewrite !most_recent_short by (rewrite ?length_app; simpl; lia).
    rewrite JsMap.set_fresh by (by apply Hp).
    by rewrite map_app.
  - (* full: the oldest entry goes, the new one is appended *)
    replace (NetworkState.maxRequests s <=? Z.of_nat (min m (length history)))%Z with true
      by (symmetry; apply Z.leb_le; lia).
    rewrite most_recent_snoc_full by lia.
    pose proof (most_recent_length m history) as Hlen.
    assert (Hsub : most_recent m history ⊆ history)
      by (unfold most_recent; apply subseteq_drop).
    destruct (most_recent m history) as [|oldest kept] eqn:Hrecent;
      [simpl in Hlen; lia|].
    assert (Hold : truthy (rws_requestId oldest) = true).
    { eapply Forall_forall in Htruthy; [exact Htruthy|]. apply Hsub, list_elem_of_here. }
    simpl. rewrite Hold.
    assert (Hwf : JsMap.wf (entry_of oldest :: map entry_of kept)).
    { unfold JsMap.wf, JsMap.keys.
      change (entry_of oldest :: map entry_of kept) with (map entry_of (oldest :: kept)).
      rewrite <- list_fmap_compose. rewrite <- Hrecent. unfold most_recent.
      apply (sublist_NoDup _ (map rws_requestId history)); [done|].
      apply fmap_sublist, sublist_drop. }
    rewrite (JsMap.delete_head (rws_requestId oldest) (NetworkState.record_of oldest)) by exact Hwf.
    rewrite JsMap.set_fresh.
    + by rewrite drop_0, map_app.
    + apply Hp. intros x Hx. apply Hsub. by apply list_elem_of_further.
Qed.

Lemma collect_most_recent (events history : list RequestWillBeSent) (s : NetworkState.t) :
  (1 ≤ NetworkState.maxRequests s)%Z →
  NoDup (map rws_requestId (history ++ events)) →
  Forall (fun e => truthy (rws_requestId e) = true) (history ++ events) →
  NetworkState.requests s
  = map entry_of (most_recent (Z.to_nat (NetworkState.maxRequests s)) history) →
  NetworkState.requests (foldl NetworkState.onRequestWillBeSent s events)
  = map entry_of (most_recent (Z.to_nat (NetworkState.maxRequests s)) (history ++ events))
  ∧ NetworkState.maxRequests (foldl NetworkState.onRequestWillBeSent s events)
    = NetworkState.maxRequests s.
Proof.
  revert history s. induction events as [|p events IH]; intros history s Hmax Hnd Htruthy Hreq.
  - simpl. by rewrite app_nil_r.
  - simpl. rewrite cons_middle, app_assoc in Hnd, Htruthy |- *.
    assert (Hstep : NetworkState.requests (NetworkState.onRequestWillBeSent s p)
                    = map entry_of
                        (most_recent (Z.to_nat (NetworkState.maxRequests s)) (history ++ [p]))).
    { apply onRequestWillBeSent_most_recent; try done.
      + rewrite map_app in Hnd. by apply NoDup_app in Hnd as (Hnd & _ & _).
      + by apply Forall_app in Htruthy as [[? _]%Forall_app _]. }
    exact (IH (history ++ [p]) (NetworkState.onRequestWillBeSent s p) Hmax Hnd Htruthy Hstep).
Qed.

(** C4, amended. With a bound of at least one and request ids that are
    distinct and not the empty string, a fresh collector fed more
    events than the bound holds exactly [maxRequests] records, and
    they are the records of the most recent events, in the order the
    events came. *)
Theorem C4_bounded_eviction (max : Z) (events : list RequestWillBeSent) :
  (1 ≤ max)%Z →
  NoDup (map rws_requestId events) →
  Forall (fun e => truthy (rws_requestId e) = true) events →
  (max < Z.of_nat (length events))%Z →
  NetworkState.getCount (collect max events) = Z.to_nat max
  ∧ NetworkState.getAllRequests (collect max events)
    = map NetworkState.record_of (drop (length events - Z.to_nat max) events).
Proof.
  intros Hmax Hnd Htruthy Hmany.
  destruct (collect_most_recent events [] (NetworkState.setMaxRequests NetworkState.new max))
    as [Hreq _]; try done.
  unfold NetworkState.getCount, NetworkState.getAllRequests, JsMap.size, JsMap.values, collect.
  rewrite Hreq. simpl. unfold most_recent. split.
  - rewrite length_map, length_drop. lia.
  - rewrite <- list_fmap_compose. done.
Qed.

Lemma C4_bounded_eviction_witness :
  NetworkState.getCount (collect 2 [sample_sent "a"; sample_sent "b"; sample_sent "c"]) = 2%nat
  ∧ NetworkState.getAllRequests (collect 2 [sample_sent "a"; sample_sent "b"; sample_sent "c"])
    = map NetworkState.record_of [sample_sent "b"; sample_sent "c"].
Proof.
  apply (C4_bounded_eviction 2 [sample_sent "a"; sample_sent "b"; sample_sent "c"]).
  - lia.
  - apply (bool_decide_unpack _). by vm_compute.
  - repeat constructor.
  - simpl. lia.
Defined.

(** ** The pending table of the transport *)

Definition pending_ids (c : CDPClient.t) : list N := JsMap.keys (CDPClient.pendingRequests c).
Definition timer_ids (c : CDPClient.t) : list N := JsMap.keys (CDPClient.timers c).
Definition settled_ids (c : CDPClient.t) : list N := (CDPClient.settled c).*1.

(** What holds of every client a run can reach: each pending request
    holds the handle of the timer armed for it, the armed timers are
    those of the pending requests, and the settled and the pending ids
    together list every id issued so far, each once. *)
Record transport_inv (c : CDPClient.t) : Prop := {
  inv_handles : Forall (fun e => pending_timeout e.2 = e.1) (CDPClient.pendingRequests c);
  inv_timers : timer_ids c = pending_ids c;
  inv_once : NoDup (settled_ids c ++ pending_ids c);
  inv_issued : ∀ id, id ∈ settled_ids c ++ pending_ids c ↔ (1 ≤ id ≤ CDPClient.requestId c)%N;
}.

(** Reduce the projections of a client built on the spot, nothing else. *)
Ltac client_fields :=
  cbn [CDPClient.ws CDPClient.requestId CDPClient.pendingRequests CDPClient.sessionId
       CDPClient.timeout CDPClient.connected CDPClient.timers CDPClient.wire
       CDPClient.settled fst snd] in *.

Lemma transport_inv_new (timeout_option : option Z) : transport_inv (CDPClient.new timeout_option).
Proof.
  split; simpl.
  - constructor.
  - done.
  - apply NoDup_nil_2.
  - intros id. split; [by intros ?%elem_of_nil | cbn; lia].
Qed.

Lemma transport_inv_send (c : CDPClient.t) (method : string)
    (params : option (list (string * Json))) :
  transport_inv c → transport_inv (CDPClient.send c method params).2.
Proof.
  intros [Hh Ht Ho Hi]. unfold CDPClient.send.
  destruct (negb (CDPClient.ws c) || negb (CDPClient.connected c)); [by split|].
  assert (Hfresh : (CDPClient.requestId c + 1)%N ∉ pending_ids c).
  { intros Hin. assert (Hin' : (CDPClient.requestId c + 1)%N ∈ settled_ids c ++ pending_ids c)
      by (apply elem_of_app; by right).
    apply Hi in Hin'. lia. }
  split; unfold pending_ids, timer_ids, settled_ids in *; client_fields.
  - rewrite JsMap.set_fresh by done. apply Forall_app. split; [done|]. by repeat constructor.
  - rewrite JsMap.keys_set_fresh by done. unfold JsMap.keys in *. by rewrite fmap_app, Ht.
  - rewrite JsMap.keys_set_fresh by done. rewrite app_assoc.
    apply NoDup_app. split_and!; [done | | apply NoDup_singleton].
    intros x Hx ->%list_elem_of_singleton. apply Hi in Hx. lia.
  - intros id. rewrite JsMap.keys_set_fresh by done. rewrite app_assoc, elem_of_app, Hi.
    rewrite list_elem_of_singleton. lia.
Qed.

(** Freeing one pending slot: the id leaves the pending ids and joins
    the settled ones. *)
Lemma free_slot (settled_before pending : list N) (id : N) :
  NoDup (settled_before ++ pending) → id ∈ pending →
  NoDup ((settled_before ++ [id]) ++ filter (fun k => k ≠ id) pending)
  ∧ ∀ x, x ∈ (settled_before ++ [id]) ++ filter (fun k => k ≠ id) pending
         ↔ x ∈ settled_before ++ pending.
Proof.
  intros (Hs & Hdisj & Hp)%NoDup_app Hin. split.
  - apply NoDup_app. split_and!.
    + apply NoDup_app. split_and!; [done | | apply NoDup_singleton].
      intros x Hx ->%list_elem_of_singleton. by apply (Hdisj id).
    + intros x [Hx| ->%list_elem_of_singleton]%elem_of_app [Hne Hxp]%list_elem_of_filter;
        [by apply (Hdisj x) | done].
    + by apply NoDup_filter.
  - intros x. rewrite !elem_of_app, list_elem_of_filter, list_elem_of_singleton.
    destruct (decide (x = id)) as [->|Hne]; [tauto | intuition].
Qed.

Lemma transport_inv_free (c : CDPClient.t) (id : N) (o : Settlement) :
  transport_inv c → id ∈ pending_ids c →
  transport_inv
    {| CDPClient.ws := CDPClient.ws c; CDPClient.requestId := CDPClient.requestId c;
       CDPClient.pendingRequests := JsMap.delete (CDPClient.pendingRequests c) id;
       CDPClient.sessionId := CDPClient.sessionId c; CDPClient.timeout := CDPClient.timeout c;
       CDPClient.connected := CDPClient.connected c;
       CDPClient.timers := CDPClient.clearTimeout (CDPClient.timers c) id;
       CDPClient.wire := CDPClient.wire c;
       CDPClient.settled := CDPClient.settled c ++ [(id, o)] |}.
Proof.
  intros [Hh Ht Ho Hi] Hin.
  destruct (free_slot (settled_ids c) (pending_ids c) id Ho Hin) as [Hnd Hmem].
  split; unfold pending_ids, timer_ids, settled_ids in *; client_fields.
  - unfold JsMap.delete. apply Forall_forall. intros e [_ He]%list_elem_of_filter.
    by eapply Forall_forall in Hh.
  - change (CDPClient.clearTimeout (CDPClient.timers c) id)
      with (JsMap.delete (CDPClient.timers c) id).
    by rewrite !JsMap.keys_delete, Ht.
  - rewrite fmap_app, JsMap.keys_delete. exact Hnd.
  - intros x. rewrite fmap_app, JsMap.keys_delete. cbn [fmap list_fmap fst]. rewrite Hmem. apply Hi.
Qed.

Lemma transport_inv_handleResponse (c : CDPClient.t) (r : CDPResponse) :
  transport_inv c → transport_inv (CDPClient.handleResponse c r).
Proof.
  intros Hinv. unfold CDPClient.handleResponse.
  destruct (JsMap.get (CDPClient.pendingRequests c) (response_id r)) as [p|] eqn:Hget; [|done].
  assert (Hh : pending_timeout p = response_id r).
  { pose proof (inv_handles c Hinv) as Hall. clear Hinv.
    induction (CDPClient.pendingRequests c) as [|[k v] m IH]; [done|].
    apply Forall_cons in Hall as [Hkv Hall]. simpl in Hget.
    destruct (decide (k = response_id r)) as [<-|Hne]; [by injection Hget as <- | by apply IH]. }
  rewrite Hh. apply transport_inv_free; [done|].
  by apply JsMap.get_Some_keys in Hget.
Qed.

Lemma transport_inv_timer_fire (c : CDPClient.t) (id : N) :
  transport_inv c → transport_inv (CDPClient.timer_fire c id).
Proof.
  intros Hinv. unfold CDPClient.timer_fire.
  destruct (JsMap.get (CDPClient.timers c) id) as [method|] eqn:Hget; [|done].
  apply transport_inv_free; [done|].
  apply JsMap.get_Some_keys in Hget. by rewrite <- (inv_timers c Hinv).
Qed.

(** The loop of [rejectAllPending], in closed form. *)
Lemma reject_all_fold (message : string) (pending : list (N * PendingRequest))
    (ts : list (N * string)) (log : list (N * Settlement)) :
  (foldl (CDPClient.reject_one message) (ts, log) pending).2
  = log ++ map (fun e => (e.1, ByDisconnect message)) pending
  ∧ ∀ k, k ∈ JsMap.keys (foldl (CDPClient.reject_one message) (ts, log) pending).1 →
         k ∈ JsMap.keys ts ∧ k ∉ map (fun e => pending_timeout e.2) pending.
Proof.
  revert ts log. induction pending as [|e pending IH]; intros ts log; simpl.
  - split; [by rewrite app_nil_r|]. intros k Hk. split; [done | apply not_elem_of_nil].
  - destruct (IH (CDPClient.clearTimeout ts (pending_timeout e.2))
                (log ++ [(e.1, ByDisconnect message)])) as [IH1 IH2].
    unfold CDPClient.reject_one at 2 4. simpl. split.
    + by rewrite IH1, <- app_assoc.
    + intros k Hk. apply IH2 in Hk as [Hk Hni].
      change (CDPClient.clearTimeout ts (pending_timeout e.2))
        with (JsMap.delete ts (pending_timeout e.2)) in Hk.
      rewrite JsMap.keys_delete in Hk. apply list_elem_of_filter in Hk as [Hne Hk].
      split; [done|]. by apply not_elem_of_cons.
Qed.

Lemma transport_inv_rejectAllPending (c : CDPClient.t) (message : string) :
  transport_inv c → transport_inv (CDPClient.rejectAllPending c message).
Proof.
  intros [Hh Ht Ho Hi]. unfold CDPClient.rejectAllPending.
  destruct (reject_all_fold message (CDPClient.pendingRequests c) (CDPClient.timers c)
              (CDPClient.settled c)) as [Hlog Hts].
  destruct (foldl _ _ _) as [ts log]. simpl in Hlog, Hts. subst log.
  assert (Hids : (CDPClient.settled c
                  ++ map (fun e => (e.1, ByDisconnect message)) (CDPClient.pendingRequests c)).*1
                 = settled_ids c ++ pending_ids c).
  { unfold settled_ids, pending_ids, JsMap.keys. rewrite fmap_app. f_equal.
    rewrite <- list_fmap_compose. done. }
  assert (Hempty : JsMap.keys ts = []).
  { destruct (JsMap.keys ts) as [|k ks] eqn:Hk; [done|]. exfalso.
    destruct (Hts k) as [Hin Hni]; [rewrite ?Hk; apply list_elem_of_here|].
    apply Hni. unfold timer_ids, pending_ids in Ht. rewrite Ht in Hin. clear -Hin Hh.
    induction (CDPClient.pendingRequests c) as [|[k' v'] m IH]; [by apply elem_of_nil in Hin|].
    apply Forall_cons in Hh as [Hkv Hh]. simpl in *.
    apply elem_of_cons in Hin as [->|Hin]; [rewrite Hkv; apply list_elem_of_here|].
    apply list_elem_of_further. by apply IH. }
  split; unfold pending_ids, timer_ids, settled_ids in *; client_fields.
  - constructor.
  - done.
  - rewrite Hids, app_nil_r. exact Ho.
  - intros id. rewrite Hids, app_nil_r. apply Hi.
Qed.

Lemma transport_inv_frame (c : CDPClient.t) (w : bool) (sid : option string) (k : bool) :
  transport_inv c →
  transport_inv
    {| CDPClient.ws := w; CDPClient.requestId := CDPClient.requestId c;
       CDPClient.pendingRequests := CDPClient.pendingRequests c;
       CDPClient.sessionId := sid; CDPClient.timeout := CDPClient.timeout c;
       CDPClient.connected := k; CDPClient.timers := CDPClient.timers c;
       CDPClient.wire := CDPClient.wire c; CDPClient.settled := CDPClient.settled c |}.
Proof. intros [Hh Ht Ho Hi]. by split. Qed.

Lemma transport_inv_step (c : CDPClient.t) (a : CDPClient.Action) :
  transport_inv c → transport_inv (CDPClient.step c a).
Proof.
  intros Hinv. destruct a as [| |method params|m|id| |]; simpl.
  - unfold CDPClient.connect. destruct (CDPClient.connected c); [done|].
    by apply transport_inv_frame.
  - by apply transport_inv_frame.
  - by apply transport_inv_send.
  - destruct m; simpl; [done | by apply transport_inv_handleResponse | done | done].
  - by apply transport_inv_timer_fire.
  - unfold CDPClient.disconnect. destruct (CDPClient.ws c); [|done].
    by apply transport_inv_rejectAllPending, transport_inv_frame.
  - by apply transport_inv_rejectAllPending, transport_inv_frame.
Qed.

Lemma transport_inv_run (trace : list CDPClient.Action) (c : CDPClient.t) :
  transport_inv c → transport_inv (CDPClient.run c trace).
Proof.
  revert c. induction trace as [|a trace IH]; intros c Hinv; [done|].
  apply IH. by apply transport_inv_step.
Qed.

(** The settlement log only grows. *)
Lemma settled_rejectAllPending (c : CDPClient.t) (message : string) :
  ∃ more, CDPClient.settled (CDPClient.rejectAllPending c message) = CDPClient.settled c ++ more.
Proof.
  unfold CDPClient.rejectAllPending.
  destruct (reject_all_fold message (CDPClient.pendingRequests c) (CDPClient.timers c)
              (CDPClient.settled c)) as [Hlog _].
  destruct (foldl _ _ _) as [ts log]. simpl in *. by eexists.
Qed.

Lemma settled_step (c : CDPClient.t) (a : CDPClient.Action) :
  ∃ more, CDPClient.settled (CDPClient.step c a) = CDPClient.settled c ++ more.
Proof.
  destruct a as [| |method params|m|id| |]; simpl.
  - exists []. unfold CDPClient.connect. destruct (CDPClient.connected c); by rewrite app_nil_r.
  - exists []. by rewrite app_nil_r.
  - exists []. unfold CDPClient.send.
    destruct (negb (CDPClient.ws c) || negb (CDPClient.connected c)); by rewrite app_nil_r.
  - destruct m as [|r| |]; simpl; try (exists []; by rewrite app_nil_r).
    unfold CDPClient.handleResponse. destruct (JsMap.get _ _); simpl; [by eexists|].
    exists []. by rewrite app_nil_r.
  - unfold CDPClient.timer_fire. destruct (JsMap.get _ _); simpl; [by eexists|].
    exists []. by rewrite app_nil_r.
  - unfold CDPClient.disconnect. destruct (CDPClient.ws c).
    + destruct (settled_rejectAllPending
                  {| CDPClient.ws := false; CDPClient.requestId := CDPClient.requestId c;
                     CDPClient.pendingRequests := CDPClient.pendingRequests c;
                     CDPClient.sessionId := CDPClient.sessionId c;
                     CDPClient.timeout := CDPClient.timeout c; CDPClient.connected := false;
                     CDPClient.timers := CDPClient.timers c; CDPClient.wire := CDPClient.wire c;
                     CDPClient.settled := CDPClient.settled c |} "Disconnected") as [more Hm].
      by exists more.
    + exists []. by rewrite app_nil_r.
  - unfold CDPClient.on_close.
    destruct (settled_rejectAllPending
                {| CDPClient.ws := CDPClient.ws c; CDPClient.requestId := CDPClient.requestId c;
                   CDPClient.pendingRequests := CDPClient.pendingRequests c;
                   CDPClient.sessionId := CDPClient.sessionId c;
                   CDPClient.timeout := CDPClient.timeout c; CDPClient.connected := false;
                   CDPClient.timers := CDPClient.timers c; CDPClient.wire := CDPClient.wire c;
                   CDPClient.settled := CDPClient.settled c |} "Connection closed") as [more Hm].
    by exists more.
Qed.

Lemma settled_run (trace : list CDPClient.Action) (c : CDPClient.t) :
  ∃ more, CDPClient.settled (CDPClient.run c trace) = CDPClient.settled c ++ more.
Proof.
  revert c. induction trace as [|a trace IH]; intros c; simpl.
  - exists []. by rewrite app_nil_r.
  - destruct (settled_step c a) as [m1 H1]. destruct (IH (CDPClient.step c a)) as [m2 H2].
    exists (m1 ++ m2). unfold CDPClient.run in *. by rewrite H2, H1, app_assoc.
Qed.

(** In a log that names each id once, an id has no entry or one. *)
Lemma entries_once {V} (log : list (N * V)) (id : N) :
  NoDup (log.*1) →
  ((id ∉ log.*1) ∧ filter (fun e => e.1 = id) log = [])
  ∨ ((id ∈ log.*1) ∧ ∃ e, filter (fun e => e.1 = id) log = [e]).
Proof.
  induction log as [|[k v] log IH]; intros Hnd.
  - left. split; [apply not_elem_of_nil | done].
  - rewrite fmap_cons in Hnd. apply NoDup_cons in Hnd as [Hk Hnd]. simpl in Hk.
    rewrite fmap_cons, filter_cons. simpl.
    destruct (IH Hnd) as [[Hni Hnone]|[Hin [e He]]].
    + destruct (decide (k = id)) as [->|Hne].
      * right. split; [apply list_elem_of_here|]. exists (id, v). by rewrite Hnone.
      * left. split; [by apply not_elem_of_cons | done].
    + destruct (decide (k = id)) as [->|Hne]; [done|].
      right. split; [by apply list_elem_of_further | by exists e].
Qed.

Lemma is_pending_ids (c : CDPClient.t) (id : N) :
  CDPClient.is_pending c id = true ↔ id ∈ pending_ids c.
Proof.
  unfold CDPClient.is_pending, JsMap.has, pending_ids.
  destruct (JsMap.get (CDPClient.pendingRequests c) id) eqn:Hget.
  - split; [|done]. intros _. by apply JsMap.get_Some_keys in Hget.
  - apply JsMap.get_None_keys in Hget. split; [done | by intros ?].
Qed.

(** The state of one id in a client that satisfies the invariant. *)
Lemma slot_state (c : CDPClient.t) (id : N) :
  transport_inv c →
  if bool_decide (1 ≤ id ≤ CDPClient.requestId c)%N then
    (CDPClient.is_pending c id = true ∧ CDPClient.settlements_of c id = [])
    ∨ (CDPClient.is_pending c id = false ∧ ∃ o, CDPClient.settlements_of c id = [o])
  else CDPClient.is_pending c id = false ∧ CDPClient.settlements_of c id = [].
Proof.
  intros [Hh Ht Ho Hi].
  pose proof Ho as (Hs & Hdisj & Hp)%NoDup_app.
  pose proof (is_pending_ids c id) as Hpend.
  unfold CDPClient.settlements_of.
  destruct (entries_once (CDPClient.settled c) id Hs) as [[Hni ->]|[Hin [e ->]]].
  - case_bool_decide as Hr.
    + left. split; [|done]. apply Hpend.
      apply Hi in Hr. apply elem_of_app in Hr as [|]; done.
    + split; [|done]. destruct (CDPClient.is_pending c id); [|done].
      exfalso. apply Hr, Hi, elem_of_app. right. by apply Hpend.
  - assert (Hnp : CDPClient.is_pending c id = false).
    { destruct (CDPClient.is_pending c id); [|done].
      exfalso. apply (Hdisj id Hin). by apply Hpend. }
    case_bool_decide as Hr.
    + right. split; [done | by exists e.2].
    + exfalso. apply Hr, Hi, elem_of_app. by left.
Qed.

(** A slot is free at the latest when its timer has fired, and every
    slot is free once the socket has closed. *)
Lemma timer_fire_frees (c : CDPClient.t) (id : N) :
  transport_inv c → CDPClient.is_pending (CDPClient.timer_fire c id) id = false.
Proof.
  intros Hinv. unfold CDPClient.timer_fire, CDPClient.is_pending, JsMap.has.
  destruct (JsMap.get (CDPClient.timers c) id) as [method|] eqn:Hget; client_fields.
  - by rewrite JsMap.get_delete_eq.
  - apply JsMap.get_None_keys in Hget. fold (timer_ids c) in Hget.
    rewrite (inv_timers c Hinv) in Hget. apply JsMap.get_None_keys in Hget.
    unfold pending_ids in Hget. by rewrite Hget.
Qed.

Lemma on_close_frees (c : CDPClient.t) :
  CDPClient.pendingRequests (CDPClient.on_close c) = [].
Proof.
  unfold CDPClient.on_close, CDPClient.rejectAllPending.
  by destruct (foldl _ _ _).
Qed.

(** An id that is pending has no settlement yet. *)
Lemma pending_unsettled (c : CDPClient.t) (id : N) :
  transport_inv c → CDPClient.is_pending c id = true → CDPClient.settlements_of c id = [].
Proof.
  intros Hinv Hp. pose proof (slot_state c id Hinv) as Hstate.
  case_bool_decide; [destruct Hstate as [[_ ?]|[Hfree _]] | destruct Hstate as [Hfree _]];
    done || congruence.
Qed.

Lemma settlements_of_snoc (log : list (N * Settlement)) (k id : N)
    (o : Settlement) :
  (filter (fun e => e.1 = id) (log ++ [(k, o)])).*2
  = (filter (fun e => e.1 = id) log).*2 ++ (if decide (k = id) then [o] else []).
Proof.
  rewrite filter_app, fmap_app, filter_cons, filter_nil. simpl.
  by destruct (decide (k = id)).
Qed.

(** The entries [rejectAllPending] adds for [id]: one when the id is
    pending, none when it is not. *)
Lemma rejected_entries (pending : list (N * PendingRequest)) (message : string) (id : N) :
  NoDup (pending.*1) →
  (filter (fun e => e.1 = id) (map (fun e => (e.1, ByDisconnect message)) pending)).*2
  = if bool_decide (id ∈ pending.*1) then [ByDisconnect message] else [].
Proof.
  induction pending as [|[k p] pending IH]; intros Hnd.
  - by rewrite bool_decide_eq_false_2 by apply not_elem_of_nil.
  - rewrite fmap_cons in Hnd. apply NoDup_cons in Hnd as [Hk Hnd]. simpl in Hk.
    cbn [map fst]. rewrite filter_cons. cbn [fst]. rewrite fmap_cons. cbn [fst].
    destruct (decide (k = id)) as [->|Hne].
    + rewrite fmap_cons. cbn [snd]. rewrite IH by done.
      rewrite (bool_decide_eq_false_2 (id ∈ pending.*1)) by done.
      by rewrite bool_decide_eq_true_2 by apply list_elem_of_here.
    + rewrite IH by done.
      replace (bool_decide (id ∈ k :: pending.*1)) with (bool_decide (id ∈ pending.*1)); [done|].
      apply bool_decide_ext. rewrite elem_of_cons.
      split; [by right | intros [Heq|?]; [congruence | done]].
Qed.

(** What [rejectAllPending] does to each id. *)
Lemma rejectAllPending_settles (c : CDPClient.t) (message : string) :
  transport_inv c →
  let c' := CDPClient.rejectAllPending c message in
  CDPClient.pendingRequests c' = []
  ∧ CDPClient.timers c' = []
  ∧ ∀ id, CDPClient.is_pending c' id = false
          ∧ CDPClient.settlements_of c' id
            = if CDPClient.is_pending c id then [ByDisconnect message]
              else CDPClient.settlements_of c id.
Proof.
  intros Hinv c'.
  assert (Hinv' : transport_inv c') by (by apply transport_inv_rejectAllPending).
  pose proof (inv_timers _ Hinv') as Ht. unfold timer_ids, pending_ids in Ht.
  subst c'. unfold CDPClient.rejectAllPending in *.
  pose proof (reject_all_fold message (CDPClient.pendingRequests c) (CDPClient.timers c)
                (CDPClient.settled c)) as [Hlog _].
  destruct (foldl _ _ _) as [ts log]. simpl in Hlog, Ht. subst log.
  assert (Hts : ts = []) by (by destruct ts). subst ts.
  split_and!; [done | done |]. intros id. split; [done|].
  unfold CDPClient.settlements_of. simpl. rewrite filter_app, fmap_app.
  pose proof (inv_once _ Hinv) as (_ & _ & Hnd)%NoDup_app.
  rewrite rejected_entries by exact Hnd.
  destruct (CDPClient.is_pending c id) eqn:Hp.
  - pose proof (pending_unsettled c id Hinv Hp) as Hnone.
    unfold CDPClient.settlements_of in Hnone. rewrite Hnone.
    apply is_pending_ids in Hp. by rewrite bool_decide_eq_true_2.
  - rewrite bool_decide_eq_false_2; [by rewrite app_nil_r|].
    intros Hin. apply is_pending_ids in Hin. congruence.
Qed.

(** C6. In every client a run of sends, inbound frames, timer firings,
    disconnects and socket closes can reach, each request id issued so
    far is either still pending, with no settlement recorded, or no
    longer pending, with exactly one settlement recorded: a delivered
    response, a protocol error, a timeout or a disconnect error. That
    settlement is final: whatever happens next, it stays the only one
    and the slot stays free. Ids not issued have neither slot nor
    settlement, and the armed timers are those of the pending requests.

    Each of the four ways frees the slot it is about and settles it
    with its own outcome. A send on an open socket issues the next id,
    pending and unsettled. A response for a pending id frees that slot,
    disarms its timer and settles the id with the result, or with the
    protocol error when the response carries one, and leaves every
    other id as it was; a response for an id with no pending slot
    changes nothing. The firing of the timer of a pending id frees that
    slot and settles the id with the timeout, and leaves every other id
    as it was. A disconnect of a client that holds a socket, and the
    close of the socket, free every slot, disarm every timer and settle
    each id that was pending with the disconnect error, and no other
    id; a disconnect of a client without a socket changes nothing. *)
Theorem C6_slot_freed_exactly_once (timeout_option : option Z) (trace : list CDPClient.Action) :
  let c := CDPClient.run (CDPClient.new timeout_option) trace in
  (∀ id,
     if bool_decide (1 ≤ id ≤ CDPClient.requestId c)%N then
       (CDPClient.is_pending c id = true ∧ CDPClient.settlements_of c id = [])
       ∨ (CDPClient.is_pending c id = false ∧ ∃ o, CDPClient.settlements_of c id = [o])
     else CDPClient.is_pending c id = false ∧ CDPClient.settlements_of c id = [])
  ∧ (∀ id o later,
       CDPClient.settlements_of c id = [o] →
       CDPClient.settlements_of (CDPClient.run c later) id = [o]
       ∧ CDPClient.is_pending (CDPClient.run c later) id = false)
  ∧ (∀ response,
       CDPClient.is_pending c (response_id response) = false →
       CDPClient.handleResponse c response = c
       ∧ CDPClient.handleMessage c (InResponse response) = (c, None))
  ∧ timer_ids c = pending_ids c
  ∧ (∀ id, CDPClient.is_pending (CDPClient.step c (CDPClient.TimerFires id)) id = false)
  ∧ CDPClient.pendingRequests (CDPClient.step c CDPClient.SocketClose) = []
  ∧ (∀ method params,
       CDPClient.ws c = true → CDPClient.connected c = true →
       let id := (CDPClient.requestId c + 1)%N in
       let c' := CDPClient.step c (CDPClient.DoSend method params) in
       CDPClient.send c method params = (Return id, c')
       ∧ CDPClient.is_pending c' id = true
       ∧ CDPClient.settlements_of c' id = []
       ∧ ∀ other, other ≠ id →
           CDPClient.is_pending c' other = CDPClient.is_pending c other
           ∧ CDPClient.settlements_of c' other = CDPClient.settlements_of c other)
  ∧ (∀ response,
       let id := response_id response in
       let c' := CDPClient.step c (CDPClient.Receive (InResponse response)) in
       CDPClient.is_pending c id = true →
       c' = CDPClient.handleResponse c response
       ∧ CDPClient.is_pending c' id = false
       ∧ CDPClient.settlements_of c' id
         = [match response_error response with
            | Some e => ByProtocolError e
            | None => ByResponse (response_result response)
            end]
       ∧ (id ∉ timer_ids c')
       ∧ ∀ other, other ≠ id →
           CDPClient.is_pending c' other = CDPClient.is_pending c other
           ∧ CDPClient.settlements_of c' other = CDPClient.settlements_of c other)
  ∧ (∀ id,
       let c' := CDPClient.step c (CDPClient.TimerFires id) in
       CDPClient.is_pending c id = true →
       (∃ method, JsMap.get (CDPClient.timers c) id = Some method
                  ∧ CDPClient.settlements_of c' id = [ByTimeout method])
       ∧ (id ∉ timer_ids c')
       ∧ ∀ other, other ≠ id →
           CDPClient.is_pending c' other = CDPClient.is_pending c other
           ∧ CDPClient.settlements_of c' other = CDPClient.settlements_of c other)
  ∧ (let c' := CDPClient.step c CDPClient.DoDisconnect in
     (CDPClient.ws c = false → c' = c)
     ∧ (CDPClient.ws c = true →
        CDPClient.pendingRequests c' = []
        ∧ CDPClient.timers c' = []
        ∧ ∀ id, CDPClient.is_pending c' id = false
                ∧ CDPClient.settlements_of c' id
                  = if CDPClient.is_pending c id then [ByDisconnect "Disconnected"]
                    else CDPClient.settlements_of c id))
  ∧ (let c' := CDPClient.step c CDPClient.SocketClose in
     CDPClient.timers c' = []
     ∧ ∀ id, CDPClient.is_pending c' id = false
             ∧ CDPClient.settlements_of c' id
               = if CDPClient.is_pending c id then [ByDisconnect "Connection closed"]
                 else CDPClient.settlements_of c id).
Proof.
  intros c.
  assert (Hinv : transport_inv c) by apply transport_inv_run, transport_inv_new.
  split_and!.
  - intros id. by apply slot_state.
  - intros id o later Hone.
    assert (Hinv' : transport_inv (CDPClient.run c later)) by by apply transport_inv_run.
    destruct (settled_run later c) as [more Hmore].
    pose proof (slot_state (CDPClient.run c later) id Hinv') as Hstate.
    assert (Hgrow : ∃ rest, CDPClient.settlements_of (CDPClient.run c later) id = o :: rest).
    { unfold CDPClient.settlements_of in *. rewrite Hmore, filter_app, fmap_app, Hone.
      by eexists. }
    destruct Hgrow as [rest Hrest]. rewrite Hrest in Hstate.
    case_bool_decide; destruct Hstate as [[_ ?]|[Hfree [o' Ho']]] || destruct Hstate as [_ ?];
      try discriminate.
    injection Ho' as -> ->. by split.
  - intros response Hfree. unfold CDPClient.handleMessage, CDPClient.handleResponse.
    unfold CDPClient.is_pending, JsMap.has in Hfree.
    by destruct (JsMap.get (CDPClient.pendingRequests c) (response_id response)).
  - by apply inv_timers.
  - intros id. by apply timer_fire_frees.
  - apply on_close_frees.
  - intros method params Hws Hc id c'. subst c'. cbn [CDPClient.step].
    unfold CDPClient.send. rewrite Hws, Hc. cbn [negb orb snd]. fold id.
    unfold CDPClient.is_pending, JsMap.has, CDPClient.settlements_of. client_fields.
    rewrite JsMap.get_set_eq. split_and!; [done | done | |].
    + assert (Hnew : CDPClient.is_pending c id = false).
      { destruct (CDPClient.is_pending c id) eqn:Hp; [|done].
        apply is_pending_ids in Hp.
        assert (Hin : id ∈ settled_ids c ++ pending_ids c) by (apply elem_of_app; by right).
        apply (inv_issued _ Hinv) in Hin. subst id. lia. }
      pose proof (slot_state c id Hinv) as Hstate.
      rewrite bool_decide_eq_false_2 in Hstate by (subst id; lia).
      destruct Hstate as [_ Hnone]. exact Hnone.
    + intros other Hne. by rewrite JsMap.get_set_ne.
  - intros response id c' Hp. subst c'. cbn [CDPClient.step CDPClient.handleMessage fst].
    split; [done|]. pose proof (pending_unsettled c id Hinv Hp) as Hnone.
    pose proof Hp as Hget. unfold CDPClient.is_pending, JsMap.has in Hget.
    unfold CDPClient.handleResponse. fold id.
    destruct (JsMap.get (CDPClient.pendingRequests c) id) as [pending|] eqn:Hg; [|done].
    assert (Hhandle : pending_timeout pending = id)
      by exact (get_Forall _ _ _ _ (inv_handles _ Hinv) Hg).
    unfold CDPClient.is_pending, JsMap.has, CDPClient.settlements_of, timer_ids in *.
    client_fields. rewrite Hhandle. split_and!.
    + by rewrite JsMap.get_delete_eq.
    + rewrite settlements_of_snoc, Hnone. by rewrite decide_True.
    + change (CDPClient.clearTimeout (CDPClient.timers c) id)
        with (JsMap.delete (CDPClient.timers c) id).
      apply JsMap.get_None_keys, JsMap.get_delete_eq.
    + intros other Hne. rewrite JsMap.get_delete_ne by done. split; [done|].
      rewrite settlements_of_snoc. rewrite decide_False by done. by rewrite app_nil_r.
  - intros id c' Hp. subst c'. cbn [CDPClient.step].
    pose proof (pending_unsettled c id Hinv Hp) as Hnone.
    assert (Htimer : id ∈ timer_ids c).
    { rewrite (inv_timers _ Hinv). by apply is_pending_ids. }
    unfold CDPClient.timer_fire.
    destruct (JsMap.get (CDPClient.timers c) id) as [method|] eqn:Hg;
      [|by apply JsMap.get_None_keys in Hg].
    unfold CDPClient.is_pending, JsMap.has, CDPClient.settlements_of, timer_ids in *.
    client_fields. split_and!.
    + exists method. split; [done|]. rewrite settlements_of_snoc, Hnone. by rewrite decide_True.
    + change (CDPClient.clearTimeout (CDPClient.timers c) id)
        with (JsMap.delete (CDPClient.timers c) id).
      apply JsMap.get_None_keys, JsMap.get_delete_eq.
    + intros other Hne. rewrite JsMap.get_delete_ne by done. split; [done|].
      rewrite settlements_of_snoc. rewrite decide_False by done. by rewrite app_nil_r.
  - cbn [CDPClient.step]. unfold CDPClient.disconnect. split.
    + by intros ->.
    + intros ->.
      pose proof (rejectAllPending_settles
                    {| CDPClient.ws := false; CDPClient.requestId := CDPClient.requestId c;
                       CDPClient.pendingRequests := CDPClient.pendingRequests c;
                       CDPClient.sessionId := CDPClient.sessionId c;
                       CDPClient.timeout := CDPClient.timeout c; CDPClient.connected := false;
                       CDPClient.timers := CDPClient.timers c; CDPClient.wire := CDPClient.wire c;
                       CDPClient.settled := CDPClient.settled c |} "Disconnected"
                    (transport_inv_frame c _ _ _ Hinv)) as Hrej.
      exact Hrej.
  - cbn [CDPClient.step]. unfold CDPClient.on_close.
    pose proof (rejectAllPending_settles
                  {| CDPClient.ws := CDPClient.ws c; CDPClient.requestId := CDPClient.requestId c;
                     CDPClient.pendingRequests := CDPClient.pendingRequests c;
                     CDPClient.sessionId := CDPClient.sessionId c;
                     CDPClient.timeout := CDPClient.timeout c; CDPClient.connected := false;
                     CDPClient.timers := CDPClient.timers c; CDPClient.wire := CDPClient.wire c;
                     CDPClient.settled := CDPClient.settled c |} "Connection closed"
                  (transport_inv_frame c _ _ _ Hinv)) as (_ & Ht & Hrej).
    split; [exact Ht | exact Hrej].
Qed.

(** A request times out; the response that arrives later is dropped. *)
Example late_response_is_dropped :
  let c := CDPClient.run (CDPClient.new None)
             [CDPClient.DoConnect; CDPClient.SocketOpen;
              CDPClient.DoSend "Debugger.pause" None; CDPClient.TimerFires 1] in
  let late := {| response_id := 1; response_result := Some (JObj []); response_error := None |} in
  CDPClient.settlements_of c 1 = [ByTimeout "Debugger.pause"]
  ∧ CDPClient.is_pending c 1 = false
  ∧ CDPClient.step c (CDPClient.Receive (InResponse late)) = c.
Proof. vm_compute. done. Qed.

(** A disconnect during an outstanding send fails it, once; the socket's
    close event that follows adds nothing. *)
Example disconnect_during_send :
  let c := CDPClient.run (CDPClient.new None)
             [CDPClient.DoConnect; CDPClient.SocketOpen;
              CDPClient.DoSend "Debugger.pause" None; CDPClient.DoDisconnect;
              CDPClient.SocketClose] in
  CDPClient.settlements_of c 1 = [ByDisconnect "Disconnected"]
  ∧ settlement_value 1 (ByDisconnect "Disconnected") = Throw (Error "Disconnected")
  ∧ CDPClient.pendingRequests c = [] ∧ CDPClient.timers c = [].
Proof. vm_compute. done. Qed.

(** Three requests: the first is answered, the second is refused by
    Chrome, the third is failed by the disconnect. *)
Definition three_sends : list CDPClient.Action :=
  [CDPClient.DoConnect; CDPClient.SocketOpen;
   CDPClient.DoSend "Runtime.enable" None; CDPClient.DoSend "Debugger.enable" None;
   CDPClient.DoSend "Debugger.pause" None].

Definition answer_1 : CDPResponse :=
  {| response_id := 1; response_result := Some (JObj []); response_error := None |}.

Definition refusal_2 : CDPResponse :=
  {| response_id := 2; response_result := None;
     response_error := Some {| err_code := -32601; err_message := "Method not found";
                               err_data := None |} |}.

Lemma C6_slot_freed_exactly_once_witness :
  let c0 := CDPClient.run (CDPClient.new None) three_sends in
  let c1 := CDPClient.step c0 (CDPClient.Receive (InResponse answer_1)) in
  let c2 := CDPClient.step c1 (CDPClient.Receive (InResponse refusal_2)) in
  let c3 := CDPClient.step c2 CDPClient.DoDisconnect in
  (CDPClient.is_pending c0 1 = true ∧ CDPClient.is_pending c0 2 = true
   ∧ CDPClient.is_pending c0 3 = true)
  ∧ (CDPClient.is_pending c1 1 = false
     ∧ CDPClient.settlements_of c1 1 = [ByResponse (Some (JObj []))])
  ∧ (CDPClient.is_pending c2 2 = false
     ∧ ∃ e, CDPClient.settlements_of c2 2 = [ByProtocolError e]
            ∧ err_message e = "Method not found")
  ∧ (CDPClient.is_pending c3 3 = false
     ∧ CDPClient.settlements_of c3 3 = [ByDisconnect "Disconnected"]
     ∧ CDPClient.settlements_of c3 1 = [ByResponse (Some (JObj []))])
  ∧ CDPClient.settlements_of (CDPClient.step c0 (CDPClient.TimerFires 3)) 3
    = [ByTimeout "Debugger.pause"].
Proof.
  cbv zeta.
  destruct (C6_slot_freed_exactly_once None three_sends)
    as (_ & _ & _ & _ & _ & _ & _ & Hresponse & Htimer & _).
  destruct (C6_slot_freed_exactly_once None
              (three_sends ++ [CDPClient.Receive (InResponse answer_1)]))
    as (_ & _ & _ & _ & _ & _ & _ & Hrefusal & _).
  destruct (C6_slot_freed_exactly_once None
              (three_sends ++ [CDPClient.Receive (InResponse answer_1);
                               CDPClient.Receive (InResponse refusal_2)]))
    as (_ & _ & _ & _ & _ & _ & _ & _ & _ & (_ & Hdisconnect) & _).
  destruct (Hresponse answer_1 eq_refl) as (_ & Hfree1 & Hsettled1 & _).
  destruct (Hrefusal refusal_2 eq_refl) as (_ & Hfree2 & Hsettled2 & _).
  destruct (Hdisconnect eq_refl) as (_ & _ & Hall).
  destruct (Htimer 3%N eq_refl) as ((method & Hmethod & Htimeout) & _).
  split_and!.
  - reflexivity.
  - reflexivity.
  - reflexivity.
  - exact Hfree1.
  - exact Hsettled1.
  - exact Hfree2.
  - eexists. split; [exact Hsettled2 | reflexivity].
  - exact (proj1 (Hall 3%N)).
  - exact (proj2 (Hall 3%N)).
  - exact (proj2 (Hall 1%N)).
  - injection Hmethod as <-. exact Htimeout.
Defined.

(** * Further properties of the interceptor *)

(** ** Encoding a response body *)

(** X1. [encodeResponseBody] loses nothing: the text can be read back from
    its encoding, so distinct texts have distinct encodings; and the
    encoding has four characters for every three bytes, rounded up. *)
Theorem encodeResponseBody_faithful :
  (∀ body, base64_decode (FetchInterceptor.encodeResponseBody body) = Some body)
  ∧ (∀ a b, FetchInterceptor.encodeResponseBody a = FetchInterceptor.encodeResponseBody b → a = b)
  ∧ (∀ body, String.length (FetchInterceptor.encodeResponseBody body)
             = (4 * ((String.length body + 2) / 3))%nat).
Proof.
  split_and!.
  - intros body. apply base64_roundtrip.
  - intros a b Heq. unfold FetchInterceptor.encodeResponseBody in Heq.
    pose proof (base64_roundtrip a) as Ha. rewrite Heq, base64_roundtrip in Ha. congruence.
  - intros body. unfold FetchInterceptor.encodeResponseBody.
    induction body as [|a|a b|a b c rest IH] using string_ind3.
    + reflexivity.
    + reflexivity.
    + reflexivity.
    + cbn [Base64.encode String.length]. rewrite IH.
      replace (S (S (S (String.length rest))) + 2)%nat with (1 * 3 + (String.length rest + 2))%nat
        by lia.
      rewrite Nat.div_add_l by lia. lia.
Qed.

(** ** The rule table *)

(** What every interceptor a session can reach satisfies: each rule
    is stored under its own id, every id is the name of a counter value
    already used, and no id is stored twice. *)
Record rules_inv (s : FetchInterceptor.t) : Prop := {
  rules_named :
    Forall (fun e => rule_id e.2 = e.1
                     ∧ ∃ n, e.1 = FetchInterceptor.rule_name n
                            ∧ (1 ≤ n ≤ FetchInterceptor.ruleIdCounter s)%N)
      (FetchInterceptor.rules s);
  rules_once : JsMap.wf (FetchInterceptor.rules s);
}.

Lemma rules_inv_new : rules_inv FetchInterceptor.new.
Proof. split; simpl; [constructor | apply NoDup_nil_2]. Qed.

(** The next id is not in the table. *)
Lemma next_rule_fresh (s : FetchInterceptor.t) :
  rules_inv s →
  FetchInterceptor.rule_name (FetchInterceptor.ruleIdCounter s + 1)
  ∉ JsMap.keys (FetchInterceptor.rules s).
Proof.
  intros [Hnamed _] Hin. unfold JsMap.keys in Hin.
  apply list_elem_of_fmap in Hin as ([k v] & Hk & He). simpl in Hk.
  eapply Forall_forall in Hnamed; [|exact He]. simpl in Hnamed.
  destruct Hnamed as (_ & n & Hn & Hle). rewrite Hn in Hk.
  apply rule_name_inj in Hk. lia.
Qed.

Lemma rules_inv_apply_op `{RegExpEngine} (s : FetchInterceptor.t) (op : RuleOp) :
  rules_inv s → rules_inv (apply_op s op).2.
Proof.
  intros Hinv. pose proof Hinv as [Hnamed Honce].
  destruct op as [rule|ruleId|ruleId updates|ruleId e| |e|event now|requestId| |]; simpl.
  - pose proof (next_rule_fresh s Hinv) as Hfresh. split; simpl.
    + rewrite JsMap.set_fresh by done. apply Forall_app. split.
      * eapply Forall_impl; [exact Hnamed|]. intros e (Hid & n & Hn & Hle).
        split; [done|]. exists n. split; [done | lia].
      * repeat constructor; simpl. eexists. split; [done | lia].
    + by apply JsMap.wf_set.
  - split; simpl; [by apply Forall_delete | by apply JsMap.wf_delete].
  - unfold FetchInterceptor.updateRule.
    destruct (JsMap.get (FetchInterceptor.rules s) ruleId) as [rule|] eqn:Hget; [|done].
    split; simpl; [|by apply JsMap.wf_set].
    apply Forall_set; [done|].
    exact (get_Forall _ _ _ _ Hnamed Hget).
  - unfold FetchInterceptor.enableRule.
    destruct (JsMap.get (FetchInterceptor.rules s) ruleId) as [rule|] eqn:Hget; [|done].
    split; simpl; [|by apply JsMap.wf_set].
    apply Forall_set; [done|].
    exact (get_Forall _ _ _ _ Hnamed Hget).
  - split; simpl; [constructor | apply NoDup_nil_2].
  - by split.
  - unfold FetchInterceptor.onRequestPaused.
    destruct (FetchInterceptor.findMatchingRule _ _ _); simpl; by split.
  - by split.
  - by split.
  - split; simpl; [constructor | apply NoDup_nil_2].
Qed.

Lemma rules_inv_run_ops `{RegExpEngine} (ops : list RuleOp) (s : FetchInterceptor.t) :
  rules_inv s → rules_inv (run_ops s ops).2.
Proof.
  revert s. induction ops as [|op ops IH]; intros s Hinv; [done|]. simpl.
  pose proof (rules_inv_apply_op s op Hinv) as Hstep.
  destruct (apply_op s op) as [returned s'].
  specialize (IH s' Hstep). by destruct (run_ops s' ops).
Qed.

(** X2. After any run of interceptor operations, [reset] included,
    [addRule] never overwrites a rule: the id it returns is not in the
    table, the new rule is appended after the rules already there, it
    is what [getRule] then answers for that id, and the other rules
    are as before. Every rule a lookup returns carries the id it was
    looked up by. *)
Theorem addRule_appends_a_fresh_rule `{RegExpEngine} (ops : list RuleOp) (rule : RuleInput) :
  let s := (run_ops FetchInterceptor.new ops).2 in
  let id := (FetchInterceptor.addRule s rule).1 in
  let s' := (FetchInterceptor.addRule s rule).2 in
  FetchInterceptor.getRule s id = None
  ∧ FetchInterceptor.getAllRules s'
    = FetchInterceptor.getAllRules s ++ [FetchInterceptor.make_rule id rule]
  ∧ FetchInterceptor.getRule s' id = Some (FetchInterceptor.make_rule id rule)
  ∧ (∀ other, other ≠ id → FetchInterceptor.getRule s' other = FetchInterceptor.getRule s other)
  ∧ ruleCount (FetchInterceptor.getSummary s') = S (ruleCount (FetchInterceptor.getSummary s))
  ∧ (∀ k r, FetchInterceptor.getRule s' k = Some r → rule_id r = k).
Proof.
  intros s id s'.
  assert (Hinv : rules_inv s) by apply rules_inv_run_ops, rules_inv_new.
  pose proof (next_rule_fresh s Hinv) as Hfresh.
  assert (Hinv' : rules_inv s') by apply (rules_inv_apply_op s (OpAddRule rule) Hinv).
  subst id s'. unfold FetchInterceptor.getRule, FetchInterceptor.getAllRules,
    FetchInterceptor.getSummary, JsMap.size, JsMap.values. simpl. split_and!.
  - by apply JsMap.get_None_keys.
  - rewrite JsMap.set_fresh by done. by rewrite fmap_app.
  - apply JsMap.get_set_eq.
  - intros other Hne. by apply JsMap.get_set_ne.
  - rewrite JsMap.set_fresh by done. rewrite length_app. simpl. lia.
  - intros k r Hget. destruct Hinv' as [Hnamed _]. simpl in Hnamed.
    by destruct (get_Forall _ _ _ _ Hnamed Hget).
Qed.

(** ** Rule lookup *)









(** ** Patterns handed to Chrome *)

(** The key under which [getCDPPatterns] remembers a pattern. *)
Definition seen_key (p : CDPPattern) : string :=
  match pat_resourceType p with
  | Some ty => urlPattern p +:+ ":" +:+ ty
  | None => urlPattern p
  end.

(** A pattern of the list comes from an enabled rule of the table. *)
Definition from_rule (rs : list InterceptRule) (p : CDPPattern) : Prop :=
  requestStage p = "Request"
  ∧ ∃ rule, rule ∈ rs ∧ rule_enabled rule = true ∧ urlPattern p = rule_pattern rule
            ∧ match pat_resourceType p with
              | Some ty => ∃ tys, rule_resourceTypes rule = Some tys ∧ ty ∈ tys
              | None => rule_resourceTypes rule = None ∨ rule_resourceTypes rule = Some []
              end.

(** What the accumulator of [getCDPPatterns] satisfies. *)
Definition patterns_inv (rs : list InterceptRule) (acc : list CDPPattern * list string) : Prop :=
  map seen_key acc.1 = acc.2 ∧ NoDup acc.1 ∧ Forall (from_rule rs) acc.1.

Lemma patterns_inv_push (rs : list InterceptRule) (acc : list CDPPattern * list string)
    (p : CDPPattern) :
  patterns_inv rs acc → seen_key p ∉ acc.2 → from_rule rs p →
  patterns_inv rs (acc.1 ++ [p], acc.2 ++ [seen_key p]).
Proof.
  intros (Hkeys & Hnd & Hall) Hnew Hp. split_and!; simpl.
  - by rewrite map_app, Hkeys.
  - apply NoDup_app. split_and!; [done | | apply NoDup_singleton].
    intros x Hx Hp'%list_elem_of_singleton. subst x. apply Hnew. rewrite <- Hkeys.
    apply list_elem_of_fmap. by exists p.
  - apply Forall_app. split; [done | by apply Forall_singleton].
Qed.

Lemma patterns_inv_add_typed (rs : list InterceptRule) (rule : InterceptRule)
    (tys all : list ResourceType) (acc : list CDPPattern * list string) :
  rule ∈ rs → rule_enabled rule = true → rule_resourceTypes rule = Some all → tys ⊆ all →
  patterns_inv rs acc →
  patterns_inv rs (FetchInterceptor.add_typed (rule_pattern rule) tys acc).
Proof.
  intros Hin He Hall. revert acc. induction tys as [|ty tys IH]; intros acc Hsub Hinv; [done|].
  simpl. apply IH; [intros x Hx; apply Hsub; by apply list_elem_of_further|].
  case_bool_decide as Hseen; [done|].
  apply (patterns_inv_push rs acc
           {| urlPattern := rule_pattern rule; pat_resourceType := Some ty;
              requestStage := "Request" |}); [done | done |].
  split; [done|]. exists rule. split_and!; [done | done | done |]. simpl.
  exists all. split; [done|]. apply Hsub, list_elem_of_here.
Qed.

Lemma patterns_inv_add_rule (rs : list InterceptRule) (rule : InterceptRule)
    (acc : list CDPPattern * list string) :
  rule ∈ rs → patterns_inv rs acc →
  patterns_inv rs (FetchInterceptor.add_rule_patterns acc rule).
Proof.
  intros Hin Hinv. unfold FetchInterceptor.add_rule_patterns.
  destruct (rule_enabled rule) eqn:He; simpl; [|done].
  assert (Huntyped : rule_resourceTypes rule = None ∨ rule_resourceTypes rule = Some [] →
            patterns_inv rs
              (if bool_decide (rule_pattern rule ∈ acc.2) then acc
               else (acc.1 ++ [{| urlPattern := rule_pattern rule; pat_resourceType := None;
                                  requestStage := "Request" |}],
                     acc.2 ++ [rule_pattern rule]))).
  { intros Hnone. case_bool_decide as Hseen; [done|].
    apply (patterns_inv_push rs acc
             {| urlPattern := rule_pattern rule; pat_resourceType := None;
                requestStage := "Request" |}); [done | done |].
    split; [done|]. exists rule. by split_and!. }
  destruct (rule_resourceTypes rule) as [[|ty tys]|] eqn:Hty.
  - apply Huntyped. by right.
  - by apply (patterns_inv_add_typed rs rule (ty :: tys) (ty :: tys)).
  - apply Huntyped. by left.
Qed.

Lemma patterns_inv_foldl (rs todo : list InterceptRule) (acc : list CDPPattern * list string) :
  todo ⊆ rs → patterns_inv rs acc →
  patterns_inv rs (foldl FetchInterceptor.add_rule_patterns acc todo).
Proof.
  revert acc. induction todo as [|rule todo IH]; intros acc Hsub Hinv; [done|]. simpl.
  apply IH; [intros x Hx; apply Hsub; by apply list_elem_of_further|].
  apply patterns_inv_add_rule; [apply Hsub, list_elem_of_here | done].
Qed.

(** Disabled rules contribute no pattern. *)
Lemma getCDPPatterns_off (s : FetchInterceptor.t) :
  Forall (fun rule => rule_enabled rule = false) (FetchInterceptor.getAllRules s) →
  FetchInterceptor.getCDPPatterns s = [].
Proof.
  unfold FetchInterceptor.getCDPPatterns, FetchInterceptor.getAllRules. intros Hoff.
  assert (Hgen : ∀ acc, (foldl FetchInterceptor.add_rule_patterns acc
                           (JsMap.values (FetchInterceptor.rules s))) = acc).
  { induction (JsMap.values (FetchInterceptor.rules s)) as [|rule rs IH]; intros acc; [done|].
    apply Forall_cons in Hoff as [Hr Hrs]. simpl.
    unfold FetchInterceptor.add_rule_patterns at 2. rewrite Hr. simpl. by apply IH. }
  by rewrite Hgen.
Qed.

(** X4. [getCDPPatterns] lists no pattern twice, every pattern it lists has
    the request stage [Request], and every pattern comes from an enabled
    rule: it carries that rule's URL pattern, and either one of the
    rule's resource types or, for a rule without resource types, none.
    Disabled rules contribute nothing. *)
Theorem getCDPPatterns_sound (s : FetchInterceptor.t) :
  NoDup (FetchInterceptor.getCDPPatterns s)
  ∧ Forall (from_rule (FetchInterceptor.getAllRules s)) (FetchInterceptor.getCDPPatterns s)
  ∧ (Forall (fun rule => rule_enabled rule = false) (FetchInterceptor.getAllRules s) →
     FetchInterceptor.getCDPPatterns s = []).
Proof.
  unfold FetchInterceptor.getCDPPatterns, FetchInterceptor.getAllRules.
  assert (Hstart : patterns_inv (JsMap.values (FetchInterceptor.rules s)) ([], [])).
  { split_and!; [done | apply NoDup_nil_2 | constructor]. }
  destruct (patterns_inv_foldl (JsMap.values (FetchInterceptor.rules s))
              (JsMap.values (FetchInterceptor.rules s)) ([], []) (reflexivity _) Hstart)
    as (_ & Hnd & Hall).
  split_and!; [done | done |].
  apply getCDPPatterns_off.
Qed.

(** ** Editing rules by id *)

Lemma values_filter_by_id (m : JsMap.t string InterceptRule) (id : string) :
  Forall (fun e => rule_id e.2 = e.1) m →
  JsMap.values (JsMap.delete m id) = filter (fun r => rule_id r ≠ id) (JsMap.values m).
Proof.
  unfold JsMap.values, JsMap.delete. induction m as [|[k v] m IH]; [done|].
  intros [Hk Hm]%Forall_cons. simpl in Hk. rewrite fmap_cons. cbn [snd].
  rewrite !filter_cons. cbn [fst]. rewrite Hk.
  destruct (decide (k ≠ id)); rewrite ?fmap_cons, IH; done.
Qed.

Lemma with_rules_same (s : FetchInterceptor.t) :
  FetchInterceptor.with_rules s (FetchInterceptor.rules s) = s.
Proof. by destruct s. Qed.

(** X5. After any run of interceptor operations, [removeRule] answers
    whether the rule was there. It takes out that rule and no other:
    the remaining rules keep their order, [getRule] no longer finds the
    id, every other lookup is as before; removing an id that is not in
    the table changes nothing. *)
Theorem removeRule_removes_exactly_that_rule `{RegExpEngine} (ops : list RuleOp) (id : string) :
  let s := (run_ops FetchInterceptor.new ops).2 in
  let removed := (FetchInterceptor.removeRule s id).1 in
  let s' := (FetchInterceptor.removeRule s id).2 in
  (removed = true ↔ is_Some (FetchInterceptor.getRule s id))
  ∧ FetchInterceptor.getRule s' id = None
  ∧ FetchInterceptor.getAllRules s'
    = filter (fun r => rule_id r ≠ id) (FetchInterceptor.getAllRules s)
  ∧ (∀ other, other ≠ id → FetchInterceptor.getRule s' other = FetchInterceptor.getRule s other)
  ∧ (removed = false → s' = s).
Proof.
  intros s removed s'.
  assert (Hinv : rules_inv s) by apply rules_inv_run_ops, rules_inv_new.
  destruct Hinv as [Hnamed _].
  subst removed s'. unfold FetchInterceptor.removeRule, FetchInterceptor.getRule,
    FetchInterceptor.getAllRules, JsMap.has. cbn [fst snd FetchInterceptor.rules
    FetchInterceptor.with_rules]. split_and!.
  - destruct (JsMap.get (FetchInterceptor.rules s) id); split; done || by intros [? ?].
  - apply JsMap.get_delete_eq.
  - apply values_filter_by_id. eapply Forall_impl; [exact Hnamed|]. by intros e [? _].
  - intros other Hne. by apply JsMap.get_delete_ne.
  - destruct (JsMap.get (FetchInterceptor.rules s) id) eqn:Hget; [done|]. intros _.
    apply JsMap.get_None_keys in Hget. rewrite JsMap.delete_absent by done.
    apply with_rules_same.
Qed.



(** * Further properties of the network collector *)

Lemma get_Some_values {K V} `{EqDecision K} (m : JsMap.t K V) (k : K) (v : V) :
  JsMap.get m k = Some v → v ∈ JsMap.values m.
Proof.
  unfold JsMap.values. induction m as [|[k' v'] m IH]; [done|]. simpl.
  destruct (decide (k' = k)) as [->|Hne].
  - intros [= ->]. apply list_elem_of_here.
  - intros Hget. apply list_elem_of_further. by apply IH.
Qed.

Lemma filter_three_ways {A} (failed ended : A → bool) (l : list A) :
  length l
  = (length (List.filter (fun r => negb (failed r) && ended r) l)
     + length (List.filter failed l)
     + length (List.filter (fun r => negb (failed r) && negb (ended r)) l))%nat.
Proof.
  induction l as [|a l IH]; [done|]. simpl.
  destruct (failed a), (ended a); simpl; lia.
Qed.

(** X7. The summary sorts every stored request into exactly one of
    completed, failed and pending: the three counts add up to the
    total, which is the number of stored requests, and the failed and
    pending counts are the lengths of what [getFailedRequests] and
    [getPendingRequests] return. *)
Theorem network_summary_partitions (s : NetworkState.t) :
  let sm := NetworkState.getSummary s in
  net_total sm = (net_completed sm + net_failed sm + net_pending sm)%nat
  ∧ net_total sm = NetworkState.getCount s
  ∧ net_total sm = length (NetworkState.getAllRequests s)
  ∧ net_failed sm = length (NetworkState.getFailedRequests s)
  ∧ net_pending sm = length (NetworkState.getPendingRequests s).
Proof.
  unfold NetworkState.getSummary, NetworkState.getCount, NetworkState.getFailedRequests,
    NetworkState.getPendingRequests, NetworkState.getAllRequests. cbn zeta.
  cbn [net_total net_completed net_failed net_pending]. split_and!.
  - rewrite <- JsMap.length_values. apply filter_three_ways.
  - done.
  - by rewrite JsMap.length_values.
  - done.
  - f_equal. apply List.filter_ext. intros r. apply andb_comm.
Qed.

(** The events and calls that fill in a stored request. *)
Inductive Progress : Type :=
| ResponseReceived_ (p : ResponseReceived)
| LoadingFinished_ (p : LoadingFinished)
| LoadingFailed_ (p : LoadingFailed)
| ResponseBody_ (requestId body : string) (base64Encoded : bool).

Definition progress_id (u : Progress) : string :=
  match u with
  | ResponseReceived_ p => rr_requestId p
  | LoadingFinished_ p => lf_requestId p
  | LoadingFailed_ p => lfail_requestId p
  | ResponseBody_ requestId _ _ => requestId
  end.

Definition progress (s : NetworkState.t) (u : Progress) : NetworkState.t :=
  match u with
  | ResponseReceived_ p => NetworkState.onResponseReceived s p
  | LoadingFinished_ p => NetworkState.onLoadingFinished s p
  | LoadingFailed_ p => NetworkState.onLoadingFailed s p
  | ResponseBody_ requestId body base64Encoded =>
      NetworkState.setResponseBody s requestId body base64Encoded
  end.

(** What no progress event changes in a record. *)
Definition same_request (a b : CollectedRequest) : Prop :=
  cr_requestId b = cr_requestId a ∧ cr_url b = cr_url a ∧ cr_method b = cr_method a
  ∧ cr_resourceType b = cr_resourceType a ∧ cr_startTime b = cr_startTime a
  ∧ cr_request b = cr_request a
  ∧ (NetworkState.is_failed a = true → NetworkState.is_failed b = true).

Lemma progress_is_patch (s : NetworkState.t) (u : Progress) :
  ∃ f, progress s u = NetworkState.patch s (progress_id u) f ∧ ∀ r, same_request r (f r).
Proof.
  destruct u as [p|p|p|requestId body base64Encoded]; simpl; eexists; (split; [reflexivity|]);
    intros r; by repeat split.
Qed.

Lemma with_requests_same (s : NetworkState.t) :
  NetworkState.with_requests s (NetworkState.requests s) = s.
Proof. by destruct s. Qed.

Lemma progress_other (s : NetworkState.t) (u : Progress) (other : string) :
  other ≠ progress_id u →
  NetworkState.getRequest (progress s u) other = NetworkState.getRequest s other.
Proof.
  intros Hne. destruct (progress_is_patch s u) as (f & -> & _).
  unfold NetworkState.patch, NetworkState.getRequest.
  destruct (JsMap.get (NetworkState.requests s) (progress_id u)); [|done].
  cbn [NetworkState.requests NetworkState.with_requests].
  apply JsMap.get_set_ne. congruence.
Qed.

(** X8. A response, a finished or failed load, or a response body only
    fills in the record of its own request. It adds, removes and
    reorders nothing; for an id that is not stored it changes nothing
    at all; every other record is as before; and in the record it
    touches the id, URL, method, type, start time and request data
    stay, and a failure already recorded stays recorded. *)
Theorem progress_only_fills_in_its_request (s : NetworkState.t) (u : Progress) :
  let s' := progress s u in
  JsMap.keys (NetworkState.requests s') = JsMap.keys (NetworkState.requests s)
  ∧ NetworkState.getCount s' = NetworkState.getCount s
  ∧ NetworkState.maxRequests s' = NetworkState.maxRequests s
  ∧ (NetworkState.getRequest s (progress_id u) = None → s' = s)
  ∧ (∀ other, other ≠ progress_id u →
       NetworkState.getRequest s' other = NetworkState.getRequest s other)
  ∧ (∀ r, NetworkState.getRequest s (progress_id u) = Some r →
       ∃ r', NetworkState.getRequest s' (progress_id u) = Some r' ∧ same_request r r').
Proof.
  intros s'. subst s'. destruct (progress_is_patch s u) as (f & -> & Hsame).
  unfold NetworkState.patch, NetworkState.getRequest, NetworkState.getCount.
  destruct (JsMap.get (NetworkState.requests s) (progress_id u)) as [req|] eqn:Hget.
  - cbn [NetworkState.requests NetworkState.with_requests NetworkState.maxRequests].
    assert (Hkeys : JsMap.keys (JsMap.set (NetworkState.requests s) (progress_id u) (f req))
                    = JsMap.keys (NetworkState.requests s)).
    { apply JsMap.keys_set_present. by eapply JsMap.get_Some_keys. }
    split_and!.
    + done.
    + by rewrite <- !JsMap.length_keys, Hkeys.
    + done.
    + done.
    + intros other Hne. apply JsMap.get_set_ne. congruence.
    + intros r [= <-]. exists (f req). split; [apply JsMap.get_set_eq | apply Hsame].
  - by split_and!.
Qed.

(** X9. One request from start to finish. When the request is sent it is
    stored as its event describes it and counts as pending. After the
    response and the end of the load, the record carries the status of
    the response and a duration that is the finish time minus the send
    time, and the request is not failed. It stops being pending unless
    the finish time is zero: a load that finished at time zero still
    counts as pending. *)
Theorem request_from_start_to_finish (s : NetworkState.t) (sent : RequestWillBeSent)
    (resp : ResponseReceived) (fin : LoadingFinished) :
  rr_requestId resp = rws_requestId sent →
  lf_requestId fin = rws_requestId sent →
  let id := rws_requestId sent in
  let s1 := NetworkState.onRequestWillBeSent s sent in
  let s3 := NetworkState.onLoadingFinished (NetworkState.onResponseReceived s1 resp) fin in
  NetworkState.getRequest s1 id = Some (NetworkState.record_of sent)
  ∧ NetworkState.record_of sent ∈ NetworkState.getPendingRequests s1
  ∧ ∃ r, NetworkState.getRequest s3 id = Some r
         ∧ cr_status r = Some (resp_status (rr_response resp))
         ∧ cr_response r = Some (rr_response resp)
         ∧ cr_duration r = Some (lf_timestamp fin - rws_timestamp sent)%Z
         ∧ cr_url r = rd_url (rws_request sent)
         ∧ (r ∉ NetworkState.getFailedRequests s3)
         ∧ (r ∈ NetworkState.getPendingRequests s3 ↔ lf_timestamp fin = 0%Z).
Proof.
  intros Hresp Hfin id s1 s3.
  assert (H1 : NetworkState.getRequest s1 id = Some (NetworkState.record_of sent))
    by apply JsMap.get_set_eq.
  split_and!; [done | |].
  - unfold NetworkState.getPendingRequests. apply list_elem_of_In, filter_In. split; [|done].
    apply list_elem_of_In. by eapply get_Some_values.
  - subst s3. unfold NetworkState.onResponseReceived, NetworkState.onLoadingFinished,
      NetworkState.patch. rewrite Hresp, Hfin. fold id.
    unfold NetworkState.getRequest in *. rewrite H1.
    cbn [NetworkState.requests NetworkState.with_requests]. rewrite JsMap.get_set_eq.
    cbn [NetworkState.requests NetworkState.with_requests]. eexists.
    split; [apply JsMap.get_set_eq|]. cbn. split_and!; try done.
    + unfold NetworkState.getFailedRequests. intros Hin%list_elem_of_In%filter_In. by destruct Hin.
    + unfold NetworkState.getPendingRequests. split.
      * intros [_ Hp]%list_elem_of_In%filter_In. cbn in Hp.
        destruct (Z.eqb_spec (lf_timestamp fin) 0); [done | discriminate].
      * intros Hz. apply list_elem_of_In, filter_In. split.
        -- apply list_elem_of_In. eapply get_Some_values. apply JsMap.get_set_eq.
        -- cbn. by rewrite Hz.
Qed.

Lemma request_from_start_to_finish_witness :
  ∃ r, NetworkState.getRequest
         (NetworkState.onLoadingFinished
            (NetworkState.onResponseReceived
               (NetworkState.onRequestWillBeSent NetworkState.new (sample_sent "req1"))
               {| rr_requestId := "req1";
                  rr_response := {| resp_status := 200; resp_statusText := "OK";
                                    resp_mimeType := "text/html" |} |})
            {| lf_requestId := "req1"; lf_timestamp := 1250; lf_encodedDataLength := 512 |})
         "req1" = Some r
       ∧ cr_status r = Some 200%Z ∧ cr_duration r = Some 250%Z.
Proof.
  destruct (request_from_start_to_finish NetworkState.new (sample_sent "req1")
              {| rr_requestId := "req1";
                 rr_response := {| resp_status := 200; resp_statusText := "OK";
                                   resp_mimeType := "text/html" |} |}
              {| lf_requestId := "req1"; lf_timestamp := 1250; lf_encodedDataLength := 512 |}
              eq_refl eq_refl) as (_ & _ & r & Hget & Hstatus & _ & Hduration & _).
  exists r. by split_and!.
Defined.

(** X10. A failed load is final. Once [loadingFailed] has arrived for a
    stored request, the request is listed as failed and not as pending,
    whatever its timestamp, and no later response, finished load,
    failed load or response body for any request changes that. *)
Theorem failed_request_stays_failed (s : NetworkState.t) (p : LoadingFailed)
    (later : list Progress) :
  is_Some (NetworkState.getRequest s (lfail_requestId p)) →
  let s' := foldl progress (NetworkState.onLoadingFailed s p) later in
  ∃ r, NetworkState.getRequest s' (lfail_requestId p) = Some r
       ∧ cr_failed r = Some true
       ∧ r ∈ NetworkState.getFailedRequests s'
       ∧ (r ∉ NetworkState.getPendingRequests s').
Proof.
  intros [r0 Hget] s'.
  assert (Hfailed : ∃ r, NetworkState.getRequest s' (lfail_requestId p) = Some r
                         ∧ cr_failed r = Some true).
  { subst s'.
    assert (Hstart : ∃ r, NetworkState.getRequest (NetworkState.onLoadingFailed s p)
                            (lfail_requestId p) = Some r ∧ cr_failed r = Some true).
    { unfold NetworkState.onLoadingFailed, NetworkState.patch, NetworkState.getRequest in *.
      rewrite Hget. cbn [NetworkState.requests NetworkState.with_requests].
      eexists. split; [apply JsMap.get_set_eq | done]. }
    generalize dependent (NetworkState.onLoadingFailed s p). clear Hget r0 s.
    induction later as [|u later IH]; intros s Hs; [done|]. simpl. apply IH.
    destruct Hs as (r & Hr & Hf).
    destruct (decide (progress_id u = lfail_requestId p)) as [Heq|Hne].
    - rewrite <- Heq in *.
      destruct u as [q|q|q|requestId body base64Encoded]; simpl in *;
        unfold NetworkState.onResponseReceived, NetworkState.onLoadingFinished,
          NetworkState.onLoadingFailed, NetworkState.setResponseBody,
          NetworkState.patch, NetworkState.getRequest in *;
        rewrite Hr; cbn [NetworkState.requests NetworkState.with_requests];
        (eexists; split; [apply JsMap.get_set_eq | done]).
    - exists r. rewrite progress_other by done. done. }
  destruct Hfailed as (r & Hr & Hf). exists r.
  assert (His : NetworkState.is_failed r = true)
    by (unfold NetworkState.is_failed; by rewrite Hf).
  split_and!; [done | done | |].
  - unfold NetworkState.getFailedRequests. apply list_elem_of_In, filter_In.
    split; [|done]. apply list_elem_of_In. by eapply get_Some_values.
  - unfold NetworkState.getPendingRequests. intros [_ Hp]%list_elem_of_In%filter_In.
    rewrite His in Hp. by destruct (truthy_num (cr_endTime r)).
Qed.

Lemma failed_request_stays_failed_witness :
  ∃ r, NetworkState.getRequest
         (foldl progress
            (NetworkState.onLoadingFailed
               (NetworkState.onRequestWillBeSent NetworkState.new (sample_sent "req1"))
               {| lfail_requestId := "req1"; lfail_timestamp := 1100;
                  lfail_errorText := "net::ERR_FAILED"; lfail_canceled := None |})
            [LoadingFinished_ {| lf_requestId := "req1"; lf_timestamp := 1250;
                                 lf_encodedDataLength := 0 |}])
         "req1" = Some r
       ∧ cr_failed r = Some true.
Proof.
  assert (Hstored : is_Some (NetworkState.getRequest
                      (NetworkState.onRequestWillBeSent NetworkState.new (sample_sent "req1"))
                      "req1")) by (vm_compute; eauto).
  destruct (failed_request_stays_failed
              (NetworkState.onRequestWillBeSent NetworkState.new (sample_sent "req1"))
              {| lfail_requestId := "req1"; lfail_timestamp := 1100;
                 lfail_errorText := "net::ERR_FAILED"; lfail_canceled := None |}
              [LoadingFinished_ {| lf_requestId := "req1"; lf_timestamp := 1250;
                                   lf_encodedDataLength := 0 |}] Hstored)
    as (r & Hget & Hf & _).
  exists r. by split.
Defined.

(** * Further properties of the console collector *)

(** What reaches the console collector. *)
Inductive ConsoleOp : Type :=
| ConsoleCall (p : ConsoleAPICalled)
| ExceptionThrown (timestamp : Z) (details : Json)
| ConsoleSetEnabled (e : bool)
| ConsoleClear.

Definition console_op (s : ConsoleState.t) (op : ConsoleOp) : ConsoleState.t :=
  match op with
  | ConsoleCall p => (ConsoleState.onConsoleAPICalled s p).2
  | ExceptionThrown timestamp details => (ConsoleState.onExceptionThrown s timestamp details).2
  | ConsoleSetEnabled e => ConsoleState.setEnabled s e
  | ConsoleClear => ConsoleState.clear s
  end.

Definition is_call (op : ConsoleOp) : bool :=
  match op with ConsoleCall _ => true | _ => false end.

(** The [len] consecutive numbers that end at [last]. *)
Definition ending_at (last : N) (len : nat) : list N :=
  map (fun i => (last - N.of_nat len + 1 + N.of_nat i)%N) (seq 0 len).

Lemma ending_at_snoc (last : N) (len : nat) :
  (N.of_nat len ≤ last)%N →
  ending_at (last + 1) (S len) = ending_at last len ++ [(last + 1)%N].
Proof.
  intros Hle. unfold ending_at. rewrite seq_S, map_app. cbn [map]. f_equal.
  - apply map_ext. intros i. lia.
  - f_equal. lia.
Qed.

Lemma ending_at_tail (last : N) (len : nat) :
  (N.of_nat (S len) ≤ last)%N →
  tail (ending_at last (S len)) = ending_at last len.
Proof.
  intros Hle.
  unfold ending_at. cbn [seq map tail]. rewrite <- seq_shift, map_map.
  apply map_ext_in. intros i Hi%in_seq. lia.
Qed.

(** What the message buffer of a collector satisfies. *)
Record console_inv (s : ConsoleState.t) : Prop := {
  con_bound : ConsoleState.maxMessages s = 1000%Z;
  con_length : (length (ConsoleState.messages s) ≤ 1000)%nat;
  con_ids :
    map msg_id (ConsoleState.messages s)
    = ending_at (ConsoleState.messageIdCounter s) (length (ConsoleState.messages s));
  con_counted : (N.of_nat (length (ConsoleState.messages s)) ≤ ConsoleState.messageIdCounter s)%N;
  con_exc_length : (length (ConsoleState.exceptions s) ≤ 1000)%nat;
  con_levels :
    Forall (fun m => msg_level m = ConsoleState.typeToLevel (msg_type m))
      (ConsoleState.messages s);
}.

Lemma bounded_push_length {A} (l : list A) (x : A) :
  (length l ≤ 1000)%nat →
  (length (ConsoleState.bounded_push 1000 l x) ≤ 1000)%nat.
Proof.
  intros Hl. unfold ConsoleState.bounded_push. rewrite length_app. simpl.
  destruct (Z.leb_spec 1000 (Z.of_nat (length l))).
  - destruct l; simpl in *; lia.
  - lia.
Qed.

Lemma console_inv_new : console_inv ConsoleState.new.
Proof. split; simpl; done || lia || constructor. Qed.

Lemma console_inv_clear (s : ConsoleState.t) : console_inv s → console_inv (ConsoleState.clear s).
Proof. intros [Hb Hl Hi Hc He Hv]. split; simpl; done || lia || constructor. Qed.

Lemma console_inv_op (s : ConsoleState.t) (op : ConsoleOp) :
  console_inv s → console_inv (console_op s op).
Proof.
  intros Hinv. pose proof Hinv as [Hb Hl Hi Hc He Hv].
  destruct op as [p|timestamp details|e|]; simpl.
  - split; cbn [ConsoleState.messages ConsoleState.exceptions ConsoleState.maxMessages
                 ConsoleState.messageIdCounter]; rewrite ?Hb.
    + done.
    + by apply bounded_push_length.
    + unfold ConsoleState.bounded_push.
      destruct (Z.leb_spec 1000 (Z.of_nat (length (ConsoleState.messages s)))) as [Hfull|Hroom].
      * destruct (ConsoleState.messages s) as [|m0 ms] eqn:Hms; [simpl in Hfull; lia|].
        cbn [tail]. rewrite map_app, length_app. cbn [map length msg_id].
        replace (length ms + 1)%nat with (S (length ms)) by lia.
        rewrite ending_at_snoc by (simpl in Hc; lia). f_equal.
        cbn [map length] in Hi. apply (f_equal tail) in Hi. cbn [tail] in Hi.
        rewrite ending_at_tail in Hi by (simpl in Hc; lia). done.
      * rewrite map_app, length_app. cbn [map length msg_id].
        replace (length (ConsoleState.messages s) + 1)%nat
          with (S (length (ConsoleState.messages s))) by lia.
        rewrite ending_at_snoc by done. by rewrite Hi.
    + pose proof (bounded_push_length (ConsoleState.messages s)
                    {| msg_id := 0; msg_type := cac_type p; msg_level := EmptyString;
                       msg_text := EmptyString; msg_args := []; msg_url := None;
                       msg_line := None; msg_column := None; msg_timestamp := 0;
                       msg_executionContextId := 0 |} Hl) as Hlen.
      unfold ConsoleState.bounded_push in *. rewrite length_app in *. simpl in *.
      destruct (Z.leb_spec 1000 (Z.of_nat (length (ConsoleState.messages s)))); [|lia].
      destruct (ConsoleState.messages s); simpl in *; lia.
    + done.
    + unfold ConsoleState.bounded_push. apply Forall_app. split; [|by repeat constructor].
      destruct (_ <=? _)%Z; [|done]. destruct (ConsoleState.messages s); [done|].
      by apply Forall_cons in Hv as [_ ?].
  - split; cbn [ConsoleState.messages ConsoleState.exceptions ConsoleState.maxMessages
                 ConsoleState.messageIdCounter]; rewrite ?Hb; try done.
    by apply bounded_push_length.
  - destruct e; simpl; [by split|]. split; simpl; done || lia || constructor.
  - by apply console_inv_clear.
Qed.

Lemma console_inv_run (ops : list ConsoleOp) (s : ConsoleState.t) :
  console_inv s → console_inv (foldl console_op s ops).
Proof.
  revert s. induction ops as [|op ops IH]; intros s Hinv; [done|].
  simpl. by apply IH, console_inv_op.
Qed.

Lemma counter_run (ops : list ConsoleOp) (s : ConsoleState.t) :
  ConsoleState.messageIdCounter (foldl console_op s ops)
  = (ConsoleState.messageIdCounter s + N.of_nat (length (List.filter is_call ops)))%N.
Proof.
  revert s. induction ops as [|op ops IH]; intros s; simpl; [lia|]. rewrite IH.
  destruct op as [p|timestamp details|e|]; simpl; try lia. destruct e; simpl; lia.
Qed.

Lemma filter_disjoint_le {A} (f g : A → bool) (l : list A) :
  (∀ x, f x = true → g x = false) →
  (length (List.filter f l) + length (List.filter g l) ≤ length l)%nat.
Proof.
  intros Hfg. induction l as [|a l IH]; simpl; [lia|].
  destruct (f a) eqn:Hf; [rewrite (Hfg a Hf)|destruct (g a)]; simpl; lia.
Qed.

(** X11. The console buffer of a session. Whatever console calls,
    exceptions, enable switches and clears a collector has seen, it
    holds at most 1000 messages and at most 1000 exceptions; the
    message ids are consecutive numbers ending at the number of console
    calls seen so far, so a clear does not restart the numbering and
    the buffer always holds the most recent calls; every message has
    the level its type maps to, one of five; and the errors and
    warnings of the summary together do not exceed its total. *)
Theorem console_buffer_is_bounded (ops : list ConsoleOp) :
  let s := foldl console_op ConsoleState.new ops in
  let received := N.of_nat (length (List.filter is_call ops)) in
  (ConsoleState.getMessageCount s ≤ 1000)%nat
  ∧ (ConsoleState.getExceptionCount s ≤ 1000)%nat
  ∧ map msg_id (ConsoleState.getMessages s) = ending_at received (ConsoleState.getMessageCount s)
  ∧ (N.of_nat (ConsoleState.getMessageCount s) ≤ received)%N
  ∧ Forall (fun m => msg_level m = ConsoleState.typeToLevel (msg_type m)
                     ∧ msg_level m ∈ ["error"; "warning"; "info"; "debug"; "log"])
      (ConsoleState.getMessages s)
  ∧ (con_errors (ConsoleState.getSummary s) + con_warnings (ConsoleState.getSummary s)
     ≤ con_total (ConsoleState.getSummary s))%nat.
Proof.
  intros s received.
  assert (Hinv : console_inv s) by apply console_inv_run, console_inv_new.
  assert (Hcount : ConsoleState.messageIdCounter s = received).
  { subst s received. by rewrite counter_run. }
  destruct Hinv as [Hb Hl Hi Hc He Hv]. rewrite Hcount in *.
  unfold ConsoleState.getMessageCount, ConsoleState.getExceptionCount,
    ConsoleState.getMessages, ConsoleState.getSummary, ConsoleState.getMessagesByLevel.
  cbn [con_errors con_warnings con_total]. split_and!; try done.
  - eapply Forall_impl; [exact Hv|]. intros m Hm. split; [done|]. rewrite Hm.
    unfold ConsoleState.typeToLevel.
    repeat match goal with |- context [if ?b then _ else _] => destruct b end;
      repeat first [apply list_elem_of_here | apply list_elem_of_further].
  - apply filter_disjoint_le. intros m Hm%String.eqb_eq. rewrite Hm. done.
Qed.


(** * Further properties of the transport *)

(** The frame written for [id] carries [method]. *)
Definition sent_as (c : CDPClient.t) (id : N) (method : string) : Prop :=
  ∃ frame, frame ∈ CDPClient.wire c ∧ req_id frame = id ∧ req_method frame = method.

(** The numbers 1 to [n]. *)
Definition one_to (n : N) : list N := map N.of_nat (seq 1 (N.to_nat n)).

Lemma one_to_succ (n : N) : one_to (n + 1) = one_to n ++ [(n + 1)%N].
Proof.
  unfold one_to. replace (N.to_nat (n + 1)) with (S (N.to_nat n)) by lia.
  rewrite seq_S, map_app. cbn [map]. do 2 f_equal. lia.
Qed.

(** What the socket has seen, in every client a run can reach. *)
Record wire_inv (c : CDPClient.t) : Prop := {
  wire_ids : map req_id (CDPClient.wire c) = one_to (CDPClient.requestId c);
  wire_pending :
    Forall (fun e => sent_as c e.1 (pending_method e.2)) (CDPClient.pendingRequests c);
  wire_timers : Forall (fun e => sent_as c e.1 e.2) (CDPClient.timers c);
  wire_timeouts :
    Forall (fun e => match e.2 with ByTimeout method => sent_as c e.1 method | _ => True end)
      (CDPClient.settled c);
}.

Lemma Forall_filter_keep {A} (P : A → Prop) (Q : A → Prop) `{∀ x, Decision (Q x)} (l : list A) :
  Forall P l → Forall P (filter Q l).
Proof.
  intros Hall. apply Forall_forall. intros x [_ Hx]%list_elem_of_filter.
  by eapply Forall_forall in Hall.
Qed.

Lemma reject_all_timers (message : string) (pending : list (N * PendingRequest))
    (ts : list (N * string)) (log : list (N * Settlement)) (P : N * string → Prop) :
  Forall P ts → Forall P (foldl (CDPClient.reject_one message) (ts, log) pending).1.
Proof.
  revert ts log. induction pending as [|e pending IH]; intros ts log Hall; [done|].
  simpl. apply IH. unfold CDPClient.clearTimeout. by apply Forall_filter_keep.
Qed.

(** A change of the connection fields alone. *)
Lemma wire_inv_frame (c : CDPClient.t) (w k : bool) (sid : option string) :
  wire_inv c →
  wire_inv {| CDPClient.ws := w; CDPClient.requestId := CDPClient.requestId c;
              CDPClient.pendingRequests := CDPClient.pendingRequests c;
              CDPClient.sessionId := sid; CDPClient.timeout := CDPClient.timeout c;
              CDPClient.connected := k; CDPClient.timers := CDPClient.timers c;
              CDPClient.wire := CDPClient.wire c; CDPClient.settled := CDPClient.settled c |}.
Proof. intros [? ? ? ?]. by split. Qed.

Lemma wire_inv_rejectAllPending (c : CDPClient.t) (message : string) :
  wire_inv c → wire_inv (CDPClient.rejectAllPending c message).
Proof.
  intros [Hi Hp Ht Hs]. unfold CDPClient.rejectAllPending.
  pose proof (reject_all_fold message (CDPClient.pendingRequests c) (CDPClient.timers c)
                (CDPClient.settled c)) as [Hlog _].
  pose proof (reject_all_timers message (CDPClient.pendingRequests c) (CDPClient.timers c)
                (CDPClient.settled c) _ Ht) as Hts.
  destruct (foldl _ _ _) as [ts log]. simpl in Hlog, Hts. subst log.
  split; unfold sent_as in *; client_fields; [done | constructor | done |].
  apply Forall_app. split; [done|]. apply Forall_forall.
  intros e (x & -> & _)%list_elem_of_fmap. done.
Qed.

Lemma wire_inv_step (c : CDPClient.t) (a : CDPClient.Action) :
  wire_inv c → wire_inv (CDPClient.step c a).
Proof.
  intros Hinv. pose proof Hinv as [Hi Hp Ht Hs].
  destruct a as [| |method params|m|id| |]; simpl.
  - unfold CDPClient.connect. destruct (CDPClient.connected c); [done|].
    by apply wire_inv_frame.
  - by apply wire_inv_frame.
  - unfold CDPClient.send.
    destruct (negb (CDPClient.ws c) || negb (CDPClient.connected c)); [done|].
    assert (Hgrow : ∀ id' m' frame, sent_as c id' m' →
              ∃ f, f ∈ CDPClient.wire c ++ [frame] ∧ req_id f = id' ∧ req_method f = m').
    { intros id' m' frame (f & Hf & ? & ?). exists f. split_and!; [|done|done].
      apply elem_of_app. by left. }
    split; unfold sent_as in *; client_fields.
    + by rewrite map_app, one_to_succ, Hi.
    + assert (Hold : Forall (fun e : N * PendingRequest =>
                ∃ f, f ∈ CDPClient.wire c
                          ++ [{| req_id := (CDPClient.requestId c + 1)%N; req_method := method;
                                 req_params := params;
                                 req_sessionId :=
                                   if truthy_opt (CDPClient.sessionId c)
                                   then CDPClient.sessionId c else None |}]
                     ∧ req_id f = e.1 ∧ req_method f = pending_method e.2)
                (CDPClient.pendingRequests c)).
      { eapply Forall_impl; [exact Hp|]. intros e He. by apply Hgrow. }
      apply Forall_set; [exact Hold|]. eexists.
      split_and!; [apply elem_of_app; right; apply list_elem_of_here | done | done].
    + apply Forall_app. split.
      * eapply Forall_impl; [exact Ht|]. intros e He. by apply Hgrow.
      * apply Forall_singleton. eexists.
        split_and!; [apply elem_of_app; right; apply list_elem_of_here | done | done].
    + eapply Forall_impl; [exact Hs|]. intros [k o] He. simpl in *.
      destruct o; try done. by apply Hgrow.
  - destruct m as [|r| |]; simpl; try done.
    unfold CDPClient.handleResponse.
    destruct (JsMap.get (CDPClient.pendingRequests c) (response_id r)) as [pending|]; [|done].
    split; unfold sent_as in *; client_fields.
    + done.
    + by apply Forall_delete.
    + unfold CDPClient.clearTimeout. by apply Forall_filter_keep.
    + apply Forall_app. split; [done|]. apply Forall_singleton. simpl.
      by destruct (response_error r).
  - unfold CDPClient.timer_fire.
    destruct (JsMap.get (CDPClient.timers c) id) as [method|] eqn:Hget; [|done].
    split; unfold sent_as in *; client_fields.
    + done.
    + by apply Forall_delete.
    + unfold CDPClient.clearTimeout. by apply Forall_filter_keep.
    + apply Forall_app. split; [done|]. apply Forall_singleton. simpl.
      exact (get_Forall _ _ _ _ Ht Hget).
  - unfold CDPClient.disconnect. destruct (CDPClient.ws c); [|done].
    by apply wire_inv_rejectAllPending, wire_inv_frame.
  - by apply wire_inv_rejectAllPending, wire_inv_frame.
Qed.

Lemma wire_inv_run (trace : list CDPClient.Action) (c : CDPClient.t) :
  wire_inv c → wire_inv (CDPClient.run c trace).
Proof.
  revert c. induction trace as [|a trace IH]; intros c Hinv; [done|].
  apply IH. by apply wire_inv_step.
Qed.

Lemma wire_inv_new (timeout_option : option Z) : wire_inv (CDPClient.new timeout_option).
Proof. split; simpl; by constructor. Qed.

Lemma wire_step (c : CDPClient.t) (a : CDPClient.Action) :
  ∃ more, CDPClient.wire (CDPClient.step c a) = CDPClient.wire c ++ more.
Proof.
  assert (Hreject : ∀ c' message,
            CDPClient.wire (CDPClient.rejectAllPending c' message) = CDPClient.wire c').
  { intros c' message. unfold CDPClient.rejectAllPending. by destruct (foldl _ _ _). }
  destruct a as [| |method params|m|id| |]; simpl.
  - exists []. unfold CDPClient.connect. destruct (CDPClient.connected c); by rewrite app_nil_r.
  - exists []. by rewrite app_nil_r.
  - unfold CDPClient.send.
    destruct (negb (CDPClient.ws c) || negb (CDPClient.connected c)); simpl; [|by eexists].
    exists []. by rewrite app_nil_r.
  - exists []. rewrite app_nil_r. destruct m as [|r| |]; simpl; try done.
    unfold CDPClient.handleResponse. by destruct (JsMap.get _ _).
  - exists []. rewrite app_nil_r. unfold CDPClient.timer_fire. by destruct (JsMap.get _ _).
  - exists []. rewrite app_nil_r. unfold CDPClient.disconnect.
    destruct (CDPClient.ws c); [|done]. by rewrite Hreject.
  - exists []. rewrite app_nil_r. unfold CDPClient.on_close. by rewrite Hreject.
Qed.

(** X13. What goes over the socket. In every client a run of connects,
    sends, inbound frames, timer firings, disconnects and closes can
    reach, the frames written carry the ids 1, 2, 3, ... in the order
    they were written, with no gap and no repeat, also across a
    disconnect and a new connection; a frame once written is never
    taken back; every pending request and every armed timer belongs to
    a frame written with that id and that method; and a timeout error
    names the method of the frame that carried its id. *)
Theorem wire_ids_count_up (timeout_option : option Z) (trace : list CDPClient.Action) :
  let c := CDPClient.run (CDPClient.new timeout_option) trace in
  map req_id (CDPClient.wire c) = one_to (CDPClient.requestId c)
  ∧ length (CDPClient.wire c) = N.to_nat (CDPClient.requestId c)
  ∧ NoDup (map req_id (CDPClient.wire c))
  ∧ (∀ id pending, JsMap.get (CDPClient.pendingRequests c) id = Some pending →
       sent_as c id (pending_method pending))
  ∧ (∀ id method, JsMap.get (CDPClient.timers c) id = Some method → sent_as c id method)
  ∧ (∀ id method, (id, ByTimeout method) ∈ CDPClient.settled c → sent_as c id method)
  ∧ (∀ later, ∃ more,
       CDPClient.wire (CDPClient.run c later) = CDPClient.wire c ++ more).
Proof.
  intros c.
  assert (Hinv : wire_inv c) by apply wire_inv_run, wire_inv_new.
  destruct Hinv as [Hi Hp Ht Hs]. split_and!.
  - done.
  - apply (f_equal length) in Hi. unfold one_to in Hi.
    by rewrite !length_map, length_seq in Hi.
  - rewrite Hi. unfold one_to. apply NoDup_fmap_2; [|apply NoDup_seq].
    intros a b Hab. lia.
  - intros id pending Hget. exact (get_Forall _ _ _ _ Hp Hget).
  - intros id method Hget. exact (get_Forall _ _ _ _ Ht Hget).
  - intros id method Hin. eapply Forall_forall in Hs; [|exact Hin]. done.
  - intros later. generalize c. induction later as [|a later IH]; intros c0.
    + exists []. by rewrite app_nil_r.
    + destruct (wire_step c0 a) as [m1 H1]. destruct (IH (CDPClient.step c0 a)) as [m2 H2].
      exists (m1 ++ m2). unfold CDPClient.run in *. simpl. by rewrite H2, H1, app_assoc.
Qed.

(** X14. [disconnect] on a client that holds a socket. Every request that
    was pending is rejected with [Disconnected], in the order the
    requests were sent, and nothing else is settled; no request stays
    pending and no timer stays armed; the client reports that it is not
    connected and refuses to send; ids are not given out again from 1;
    a second [disconnect] does nothing, and the close event of the
    socket that follows settles nothing more. *)
Theorem disconnect_rejects_what_is_pending (timeout_option : option Z)
    (trace : list CDPClient.Action) :
  let c := CDPClient.run (CDPClient.new timeout_option) trace in
  CDPClient.ws c = true →
  let c' := CDPClient.disconnect c in
  CDPClient.settled c'
  = CDPClient.settled c
    ++ map (fun e => (e.1, ByDisconnect "Disconnected")) (CDPClient.pendingRequests c)
  ∧ CDPClient.pendingRequests c' = []
  ∧ CDPClient.timers c' = []
  ∧ CDPClient.isConnected c' = false
  ∧ CDPClient.requestId c' = CDPClient.requestId c
  ∧ (∀ method params,
       CDPClient.send c' method params = (Throw (Error "Not connected"), c'))
  ∧ CDPClient.disconnect c' = c'
  ∧ CDPClient.settled (CDPClient.on_close c') = CDPClient.settled c'.
Proof.
  intros c Hws c'.
  assert (Hinv : transport_inv c').
  { apply (transport_inv_step c CDPClient.DoDisconnect), transport_inv_run, transport_inv_new. }
  subst c'. unfold CDPClient.disconnect in *. rewrite Hws in *.
  unfold CDPClient.rejectAllPending in *. client_fields.
  pose proof (reject_all_fold "Disconnected" (CDPClient.pendingRequests c) (CDPClient.timers c)
                (CDPClient.settled c)) as [Hlog _].
  destruct (foldl _ _ _) as [ts log] eqn:Hfold. simpl in Hlog. subst log.
  assert (Hts : ts = []).
  { pose proof (inv_timers _ Hinv) as Ht. unfold timer_ids, pending_ids in Ht. client_fields.
    by destruct ts. }
  subst ts. client_fields. by split_and!.
Qed.

Lemma disconnect_rejects_what_is_pending_witness :
  CDPClient.settled
    (CDPClient.disconnect
       (CDPClient.run (CDPClient.new None)
          [CDPClient.DoConnect; CDPClient.SocketOpen;
           CDPClient.DoSend "Runtime.enable" None; CDPClient.DoSend "Debugger.enable" None]))
  = [(1%N, ByDisconnect "Disconnected"); (2%N, ByDisconnect "Disconnected")].
Proof.
  exact (proj1 (disconnect_rejects_what_is_pending None
                  [CDPClient.DoConnect; CDPClient.SocketOpen;
                   CDPClient.DoSend "Runtime.enable" None;
                   CDPClient.DoSend "Debugger.enable" None] eq_refl)).
Defined.

(** * Further properties of the session facade *)

(** ** Breakpoints *)

(** The record [setBreakpointByUrl] stores. *)
Definition url_breakpoint (lineNumber : Z) (url urlRegex : option string)
    (columnNumber : option Z) (condition : option string)
    (breakpointId : string) (locations : list Location) : ManagedBreakpoint :=
  {| bp_id := breakpointId; bp_url := url; bp_urlRegex := urlRegex; bp_scriptId := None;
     bp_lineNumber := lineNumber; bp_columnNumber := columnNumber; bp_condition := condition;
     bp_locations := locations; bp_enabled := true |}.

Lemma delete_set_fresh {K V} `{EqDecision K} (m : JsMap.t K V) (k : K) (v : V) :
  k ∉ JsMap.keys m → JsMap.delete (JsMap.set m k v) k = m.
Proof.
  intros Hfresh. rewrite JsMap.set_fresh by done. unfold JsMap.delete.
  rewrite filter_app, filter_cons. simpl. rewrite decide_False by (intros Hc; by apply Hc).
  rewrite filter_nil, app_nil_r. by apply JsMap.delete_absent.
Qed.

(** X15. The breakpoint table follows what Chrome confirmed. A call of
    [setBreakpointByUrl] that succeeds stores the breakpoint under the
    id Chrome gave, with the locations Chrome resolved, after the
    breakpoints already there; a call that fails stores nothing. A
    removal that succeeds takes the breakpoint out again and leaves
    the debug state as it was before the breakpoint was set; a removal
    that fails leaves the breakpoint in the table. *)
Theorem breakpoint_set_and_removed (s : DebugSession.t) (lineNumber : Z)
    (url urlRegex : option string) (columnNumber : option Z) (condition : option string)
    (v : option Json) (breakpointId : string) (locations : list Location) :
  online s →
  DebugState.getBreakpoint (DebugSession.debugState s) breakpointId = None →
  let bp := url_breakpoint lineNumber url urlRegex columnNumber condition breakpointId locations in
  let set reply :=
    DebugSession.setBreakpointByUrl s lineNumber url urlRegex columnNumber condition reply
      breakpointId locations in
  let s1 := (set (ReplyResult v)).2 in
  (set (ReplyResult v)).1 = Return ()
  ∧ DebugState.getBreakpoint (DebugSession.debugState s1) breakpointId = Some bp
  ∧ DebugState.getAllBreakpoints (DebugSession.debugState s1)
    = DebugState.getAllBreakpoints (DebugSession.debugState s) ++ [bp]
  ∧ (∀ reply, is_result reply = false →
       (∃ e, (set reply).1 = Throw e)
       ∧ DebugSession.debugState (set reply).2 = DebugSession.debugState s)
  ∧ (∀ reply,
       let r := DebugSession.removeBreakpoint s1 breakpointId reply in
       if is_result reply
       then r.1 = Return () ∧ DebugSession.debugState r.2 = DebugSession.debugState s
       else (∃ e, r.1 = Throw e)
            ∧ DebugState.getBreakpoint (DebugSession.debugState r.2) breakpointId = Some bp).
Proof.
  intros Hon Hfresh bp set s1.
  assert (Hkey : breakpointId ∉ JsMap.keys (DebugState.breakpoints (DebugSession.debugState s)))
    by (by apply JsMap.get_None_keys).
  assert (Hfail : ∀ s0 method params reply after, is_result reply = false →
            ∃ e, (DebugSession.command s0 method params reply after).1 = Throw e).
  { intros s0 method params reply after Hr. unfold DebugSession.command.
    destruct (await_send _ _ _ _) as [[v'|e] c] eqn:Hsend; [|by eexists].
    pose proof (await_send_Return (DebugSession.client s0) method params reply v') as Hres.
    rewrite Hsend in Hres. specialize (Hres eq_refl). congruence. }
  destruct (command_online s "Debugger.setBreakpointByUrl"
              (Some (DebugSession.breakpointByUrl_params lineNumber url urlRegex columnNumber
                       condition)) v
              (fun s' => DebugSession.with_debugState s'
                 (DebugState.addBreakpoint (DebugSession.debugState s') bp)) Hon)
    as (c1 & Hset & Hw1 & Hc1 & _).
  change (DebugSession.command _ _ _ _ _) with (set (ReplyResult v)) in Hset.
  assert (Hs1 : s1 = DebugSession.with_debugState (DebugSession.with_client s c1)
                       (DebugState.addBreakpoint (DebugSession.debugState s) bp))
    by (subst s1; by rewrite Hset).
  assert (Hon1 : online s1) by (rewrite Hs1; by split).
  assert (Hget1 : DebugState.getBreakpoint (DebugSession.debugState s1) breakpointId = Some bp)
    by (rewrite Hs1; apply JsMap.get_set_eq).
  split_and!.
  - by rewrite Hset.
  - done.
  - rewrite Hs1. unfold DebugState.getAllBreakpoints, JsMap.values. simpl.
    rewrite JsMap.set_fresh by done. by rewrite fmap_app.
  - intros reply Hr. destruct (Hfail s "Debugger.setBreakpointByUrl"
      (Some (DebugSession.breakpointByUrl_params lineNumber url urlRegex columnNumber condition))
      reply (fun s' => DebugSession.with_debugState s'
                 (DebugState.addBreakpoint (DebugSession.debugState s') bp)) Hr) as [e He].
    split; [by exists e|].
    change (DebugSession.debugState (DebugSession.command s "Debugger.setBreakpointByUrl"
      (Some (DebugSession.breakpointByUrl_params lineNumber url urlRegex columnNumber condition))
      reply (fun s' => DebugSession.with_debugState s'
                 (DebugState.addBreakpoint (DebugSession.debugState s') bp))).2
            = DebugSession.debugState s).
    by rewrite (command_Throw _ _ _ _ _ e He).
  - intros reply r. subst r. unfold DebugSession.removeBreakpoint.
    destruct (is_result reply) eqn:Hr.
    + destruct reply as [v'| | |]; try discriminate.
      destruct (command_online s1 "Debugger.removeBreakpoint"
                  (Some [("breakpointId", JStr breakpointId)]) v'
                  (fun s' => DebugSession.with_debugState s'
                     (DebugState.removeBreakpoint (DebugSession.debugState s') breakpointId).2)
                  Hon1) as (c2 & Hrem & _).
      rewrite Hrem. cbn [fst snd]. split; [done|]. rewrite Hs1. simpl.
      unfold DebugState.removeBreakpoint, DebugState.addBreakpoint, DebugState.with_breakpoints.
      cbn [snd DebugState.breakpoints bp_id bp url_breakpoint].
      rewrite delete_set_fresh by done. by destruct (DebugSession.debugState s).
    + destruct (Hfail s1 "Debugger.removeBreakpoint"
                  (Some [("breakpointId", JStr breakpointId)]) reply
                  (fun s' => DebugSession.with_debugState s'
                     (DebugState.removeBreakpoint (DebugSession.debugState s') breakpointId).2)
                  Hr) as [e He].
      split; [by exists e|]. by rewrite (command_Throw _ _ _ _ _ e He).
Qed.

(** A connected session with nothing collected. *)
Definition fresh_session : DebugSession.t :=
  DebugSession.with_client (DebugSession.new None) connected_client.

Lemma breakpoint_set_and_removed_witness :
  let s1 := (DebugSession.setBreakpointByUrl fresh_session 10 (Some "test.js") None None None
               (ReplyResult None) "bp1" [sample_location 10]).2 in
  DebugState.getBreakpoint (DebugSession.debugState s1) "bp1"
  = Some (url_breakpoint 10 (Some "test.js") None None None "bp1" [sample_location 10])
  ∧ DebugSession.debugState (DebugSession.removeBreakpoint s1 "bp1" (ReplyResult None)).2
    = DebugSession.debugState fresh_session.
Proof.
  assert (Hon : online fresh_session) by (by split).
  pose proof (breakpoint_set_and_removed fresh_session 10 (Some "test.js") None None None None
                "bp1" [sample_location 10] Hon eq_refl) as (_ & Hget & _ & _ & Hrem).
  split; [exact Hget|]. exact (proj2 (Hrem (ReplyResult None))).
Defined.

(** ** The source cache *)



(** ** Disconnecting *)

(** X17. [disconnect] empties what the session has collected: no
    breakpoints, no pause, no scripts, no requests, no rules, no paused
    requests, no console messages, no log entries and no service
    workers are left, and the rule counter starts again, so the next
    rule is [rule-1]. It does not touch the enabled flags of the
    domains, which still say what they said before, and it does not
    restart the numbering of console messages. Afterwards every command
    is refused with [Not connected], without a frame being written and
    with the session left as it is. *)
Theorem disconnect_empties_the_session (s : DebugSession.t) :
  let s' := DebugSession.disconnect s in
  (DebugState.getAllBreakpoints (DebugSession.debugState s') = []
   ∧ DebugState.isPaused (DebugSession.debugState s') = false
   ∧ DebugState.getCallFrames (DebugSession.debugState s') = []
   ∧ ScriptRegistry.getAllScripts (DebugSession.scriptRegistry s') = []
   ∧ NetworkState.getAllRequests (DebugSession.networkState s') = []
   ∧ FetchInterceptor.getAllRules (DebugSession.fetchInterceptor s') = []
   ∧ FetchInterceptor.getAllPausedRequests (DebugSession.fetchInterceptor s') = []
   ∧ ConsoleState.getMessages (DebugSession.consoleState s') = []
   ∧ ConsoleState.getExceptions (DebugSession.consoleState s') = []
   ∧ DebugSession.getLogEntries s' = []
   ∧ DebugSession.serviceWorkerRegistrations s' = []
   ∧ DebugSession.serviceWorkerVersions s' = [])
  ∧ (DebugState.isEnabled (DebugSession.debugState s')
     = DebugState.isEnabled (DebugSession.debugState s)
     ∧ NetworkState.isEnabled (DebugSession.networkState s')
       = NetworkState.isEnabled (DebugSession.networkState s)
     ∧ FetchInterceptor.isEnabled (DebugSession.fetchInterceptor s')
       = FetchInterceptor.isEnabled (DebugSession.fetchInterceptor s)
     ∧ ConsoleState.isEnabled (DebugSession.consoleState s')
       = ConsoleState.isEnabled (DebugSession.consoleState s)
     ∧ DebugSession.logEnabled s' = DebugSession.logEnabled s
     ∧ DebugSession.domEnabled s' = DebugSession.domEnabled s
     ∧ DebugSession.serviceWorkerEnabled s' = DebugSession.serviceWorkerEnabled s)
  ∧ (ConsoleState.messageIdCounter (DebugSession.consoleState s')
     = ConsoleState.messageIdCounter (DebugSession.consoleState s)
     ∧ ∀ rule, (FetchInterceptor.addRule (DebugSession.fetchInterceptor s') rule).1 = "rule-1")
  ∧ (∀ method params reply after,
       DebugSession.command s' method params reply after = (Throw (Error "Not connected"), s'))
  ∧ (∀ expression options race,
       DebugSession.evaluate s' expression options race
       = (Rejected (Error "Not connected"), s')).
Proof.
  intros s'.
  assert (Hws : CDPClient.ws (DebugSession.client s') = false).
  { subst s'. unfold DebugSession.disconnect, DebugSession.reset. simpl.
    unfold CDPClient.disconnect. destruct (CDPClient.ws (DebugSession.client s)) eqn:Hw; [|done].
    unfold CDPClient.rejectAllPending. by destruct (foldl _ _ _). }
  assert (Hsend : ∀ method params,
            CDPClient.send (DebugSession.client s') method params
            = (Throw (Error "Not connected"), DebugSession.client s')).
  { intros method params. unfold CDPClient.send. by rewrite Hws. }
  assert (Hsame : DebugSession.with_client s' (DebugSession.client s') = s') by (by destruct s').
  split_and!; try done.
  - intros method params reply after. unfold DebugSession.command, await_send.
    by rewrite Hsend, Hsame.
  - intros expression options race. unfold DebugSession.evaluate.
    replace (DebugState.isPaused (DebugSession.debugState s')) with false by done.
    by rewrite Hsend, Hsame.
Qed.

(** ** Evaluation and pauses *)




(** X19. [evaluateOnCallFrame] is not held back by a pause. Whether the
    page is paused or not, a connected session writes the
    [Debugger.evaluateOnCallFrame] frame, with the object group
    [debugger], [returnByValue] off and [generatePreview] on unless the
    options say otherwise, and Chrome's answer is what the call
    returns. *)
Theorem evaluateOnCallFrame_runs_while_paused (s : DebugSession.t)
    (callFrameId expression : string) (options : DebugSession.FrameEvalOptions) (v : option Json) :
  online s →
  let r := DebugSession.evaluateOnCallFrame s callFrameId expression options
             (ReplyFirst (ReplyResult v)) in
  r.1 = Fulfilled (DebugSession.plain_result v)
  ∧ (∃ frame, last (CDPClient.wire (DebugSession.client r.2)) = Some frame
              ∧ req_method frame = "Debugger.evaluateOnCallFrame"
              ∧ req_id frame = (CDPClient.requestId (DebugSession.client s) + 1)%N
              ∧ req_params frame
                = Some [("callFrameId", JStr callFrameId);
                        ("expression", JStr expression);
                        ("objectGroup", JStr (default "debugger" (DebugSession.feo_objectGroup options)));
                        ("returnByValue", JBool (default false (DebugSession.feo_returnByValue options)));
                        ("generatePreview", JBool (default true (DebugSession.feo_generatePreview options)))])
  ∧ DebugSession.debugState r.2 = DebugSession.debugState s.
Proof.
  intros [Hws Hc] r. subst r. unfold DebugSession.evaluateOnCallFrame, CDPClient.send.
  rewrite Hws, Hc. cbn [negb orb].
  match goal with
  | |- context [apply_reply ?c0 ?i ?m ?rep] =>
      pose proof (wire_apply_reply c0 i m rep) as Hwire;
      destruct (apply_reply c0 i m rep) as [res c'] eqn:Hreply
  end.
  assert (res = Return v) as -> by (simpl in Hreply; congruence).
  cbn [fst snd DebugSession.client DebugSession.with_client DebugSession.debugState
       DebugSession.settle_eval] in *. split_and!; [done | | done].
  rewrite Hwire. cbn [CDPClient.wire]. rewrite last_snoc. eexists. by split_and!.
Qed.

Lemma evaluateOnCallFrame_runs_while_paused_witness :
  DebugState.isPaused (DebugSession.debugState paused_session) = true
  ∧ (DebugSession.evaluateOnCallFrame paused_session "frame1" "x"
       {| DebugSession.feo_objectGroup := None; DebugSession.feo_returnByValue := None; DebugSession.feo_generatePreview := None |}
       (ReplyFirst (ReplyResult (Some (JNum 1))))).1
    = Fulfilled (DebugSession.plain_result (Some (JNum 1))).
Proof.
  assert (Hon : online paused_session) by (by split).
  split; [reflexivity|].
  exact (proj1 (evaluateOnCallFrame_runs_while_paused paused_session "frame1" "x"
                  {| DebugSession.feo_objectGroup := None; DebugSession.feo_returnByValue := None;
                     DebugSession.feo_generatePreview := None |} (Some (JNum 1)) Hon)).
Defined.

(** ** The pause state under events *)

Definition is_pause_event (e : CDPEvent) : bool :=
  match e with
  | Debugger_paused _ | Debugger_resumed => true
  | _ => false
  end.

Lemma pauseState_on_event `{RegExpEngine} (s s' : DebugSession.t) (e : CDPEvent) (now : Z) :
  DebugSession.on_event s e now = Return s' →
  is_pause_event e = false →
  DebugState.getPauseState (DebugSession.debugState s')
  = DebugState.getPauseState (DebugSession.debugState s).
Proof.
  intros Hev Hne. destruct e; simpl in *; try discriminate; try (injection Hev as <-; done).
  - injection Hev as <-. simpl. unfold DebugState.updateBreakpointLocations.
    by destruct (JsMap.get _ _).
  - destruct (FetchInterceptor.onRequestPaused _ _ _) as [[pr f]|err]; simpl in Hev;
      [injection Hev as <-; done | discriminate].
Qed.

Lemma pauseState_on_events `{RegExpEngine} (events : list CDPEvent) (s s' : DebugSession.t)
    (now : Z) :
  on_events s events now = Return s' →
  Forall (fun e => is_pause_event e = false) events →
  DebugState.getPauseState (DebugSession.debugState s')
  = DebugState.getPauseState (DebugSession.debugState s).
Proof.
  revert s. induction events as [|e events IH]; intros s Hrun Hall.
  - by injection Hrun as <-.
  - apply Forall_cons in Hall as [He Hall]. simpl in Hrun.
    destruct (DebugSession.on_event s e now) as [s1|err] eqn:Hev; [|discriminate].
    simpl in Hrun. rewrite (IH s1 Hrun Hall). by eapply pauseState_on_event.
Qed.

Lemma on_events_app `{RegExpEngine} (s : DebugSession.t) (a b : list CDPEvent) (now : Z) :
  on_events s (a ++ b) now = (s' ← on_events s a now; on_events s' b now).
Proof.
  revert s. induction a as [|e a IH]; intros s; [done|]. simpl.
  destruct (DebugSession.on_event s e now) as [s1|err]; simpl; [apply IH | done].
Qed.

(** X20. The pause state is that of the latest pause or resume event.
    When a run of events has been handled and its last pause or resume
    event was [Debugger.paused], the session is paused with the reason,
    frames and hit breakpoints of that event, whatever other events
    came after it, and the top frame is the first frame of the event.
    When it was [Debugger.resumed], the session is running, and no
    frames and no reason are left over from an earlier pause. *)
Theorem pause_state_follows_the_latest_event `{RegExpEngine} (s s' : DebugSession.t)
    (before after : list CDPEvent) (latest : CDPEvent) (now : Z) :
  on_events s (before ++ latest :: after) now = Return s' →
  Forall (fun e => is_pause_event e = false) after →
  match latest with
  | Debugger_paused p =>
      DebugState.isPaused (DebugSession.debugState s') = true
      ∧ DebugState.getCallFrames (DebugSession.debugState s') = pp_callFrames p
      ∧ DebugState.getTopCallFrame (DebugSession.debugState s') = head (pp_callFrames p)
      ∧ ps_reason (DebugState.getPauseState (DebugSession.debugState s')) = Some (pp_reason p)
      ∧ ps_hitBreakpoints (DebugState.getPauseState (DebugSession.debugState s'))
        = pp_hitBreakpoints p
      ∧ json_callFrameCount (DebugState.toJSON (DebugSession.debugState s'))
        = length (pp_callFrames p)
  | Debugger_resumed =>
      DebugState.getPauseState (DebugSession.debugState s') = DebugState.running
      ∧ DebugState.isPaused (DebugSession.debugState s') = false
      ∧ DebugState.getCallFrames (DebugSession.debugState s') = []
      ∧ DebugState.getTopCallFrame (DebugSession.debugState s') = None
      ∧ json_callFrameCount (DebugState.toJSON (DebugSession.debugState s')) = 0%nat
  | _ => True
  end.
Proof.
  intros Hrun Hafter. rewrite on_events_app in Hrun.
  destruct (on_events s before now) as [s0|err]; [|discriminate]. simpl in Hrun.
  destruct latest; try done.
  - simpl in Hrun. pose proof (pauseState_on_events after _ s' now Hrun Hafter) as Hps.
    unfold DebugState.isPaused, DebugState.getCallFrames, DebugState.getTopCallFrame,
      DebugState.getCallFrame, DebugState.toJSON, DebugState.getPauseState in *.
    cbn [json_callFrameCount]. rewrite Hps. simpl. split_and!; try done.
    by destruct (pp_callFrames params).
  - simpl in Hrun. pose proof (pauseState_on_events after _ s' now Hrun Hafter) as Hps.
    unfold DebugState.isPaused, DebugState.getCallFrames, DebugState.getTopCallFrame,
      DebugState.getCallFrame, DebugState.toJSON, DebugState.getPauseState in *.
    cbn [json_callFrameCount]. rewrite Hps. by simpl.
Qed.

Lemma pause_state_follows_the_latest_event_witness :
  ∃ s', on_events fresh_session
          [Debugger_resumed; Debugger_paused sample_pause;
           Log_entryAdded {| log_source := "network"; log_level := "error";
                             log_text := "failed"; log_timestamp := 0 |}] 0
        = Return s'
        ∧ DebugState.isPaused (DebugSession.debugState s') = true
        ∧ DebugState.getCallFrames (DebugSession.debugState s') = [sample_frame].
Proof.
  eexists. split; [reflexivity|].
  pose proof (pause_state_follows_the_latest_event fresh_session _
                [Debugger_resumed] [Log_entryAdded {| log_source := "network";
                   log_level := "error"; log_text := "failed"; log_timestamp := 0 |}]
                (Debugger_paused sample_pause) 0 eq_refl
                ltac:(by repeat constructor)) as (Hp & Hf & _).
  by split.
Defined.

(** ** The browser log *)

(** The log entries a run of events carries. *)
Definition log_entries_of (events : list CDPEvent) : list LogEntry :=
  omap (fun e => match e with Log_entryAdded entry => Some entry | _ => None end) events.

Lemma push_log_most_recent (entries : list LogEntry) (e : LogEntry) :
  (length entries ≤ 1000)%nat →
  DebugSession.push_log entries e = most_recent 1000 (entries ++ [e]).
Proof.
  intros Hl. unfold DebugSession.push_log, most_recent. rewrite length_app. simpl.
  destruct (Nat.ltb_spec 1000 (length entries + 1)) as [Hfull|Hroom].
  - replace (length entries + 1 - 1000)%nat with 1%nat by lia.
    destruct entries; simpl in *; [lia | done].
  - by replace (length entries + 1 - 1000)%nat with 0%nat by lia.
Qed.

Lemma most_recent_app {A} (m : nat) (l more : list A) :
  most_recent m (most_recent m l ++ more) = most_recent m (l ++ more).
Proof.
  unfold most_recent. rewrite !length_app, length_drop.
  destruct (decide (length l ≤ m)%nat) as [Hshort|Hlong].
  - replace (length l - m)%nat with 0%nat by lia. rewrite drop_0.
    by replace (length l - 0 + length more - m)%nat with (length l + length more - m)%nat by lia.
  - replace (length l - (length l - m) + length more - m)%nat with (length more)%nat by lia.
    replace (length l + length more - m)%nat with ((length l - m) + length more)%nat by lia.
    rewrite <- drop_drop. by rewrite (drop_app_le l more (length l - m)) by lia.
Qed.

Lemma logEntries_on_event `{RegExpEngine} (s s' : DebugSession.t) (e : CDPEvent) (now : Z) :
  DebugSession.on_event s e now = Return s' →
  (length (DebugSession.logEntries s) ≤ 1000)%nat →
  DebugSession.logEntries s'
  = most_recent 1000 (DebugSession.logEntries s ++ log_entries_of [e]).
Proof.
  intros Hev Hl.
  assert (Hsame : most_recent 1000 (DebugSession.logEntries s ++ [])
                  = DebugSession.logEntries s).
  { rewrite app_nil_r. by apply most_recent_short. }
  destruct e; simpl in *; try (injection Hev as <-; by rewrite Hsame).
  - destruct (FetchInterceptor.onRequestPaused _ _ _) as [[pr f]|err]; simpl in Hev;
      [injection Hev as <-; by rewrite Hsame | discriminate].
  - injection Hev as <-. simpl. by apply push_log_most_recent.
Qed.

(** X21. The browser log keeps the most recent 1000 entries. Starting from
    a buffer within the bound, whatever events are handled, the buffer
    holds the last 1000 of the entries it held and the entries the
    [Log.entryAdded] events brought, in the order they came; no other
    event adds, drops or reorders an entry. *)
Theorem log_keeps_the_most_recent_entries `{RegExpEngine} (events : list CDPEvent)
    (s s' : DebugSession.t) (now : Z) :
  on_events s events now = Return s' →
  (length (DebugSession.logEntries s) ≤ 1000)%nat →
  DebugSession.getLogEntries s'
  = most_recent 1000 (DebugSession.logEntries s ++ log_entries_of events)
  ∧ (length (DebugSession.getLogEntries s') ≤ 1000)%nat.
Proof.
  unfold DebugSession.getLogEntries.
  revert s. induction events as [|e events IH]; intros s Hrun Hl.
  - injection Hrun as <-. rewrite app_nil_r, most_recent_short by done. done.
  - simpl in Hrun. destruct (DebugSession.on_event s e now) as [s1|err] eqn:Hev; [|discriminate].
    simpl in Hrun. pose proof (logEntries_on_event s s1 e now Hev Hl) as H1.
    assert (Hl1 : (length (DebugSession.logEntries s1) ≤ 1000)%nat).
    { rewrite H1, most_recent_length. lia. }
    destruct (IH s1 Hrun Hl1) as [IH1 IH2]. split; [|done].
    rewrite IH1, H1, most_recent_app, <- app_assoc. f_equal. f_equal.
    unfold log_entries_of. by destruct e.
Qed.

Lemma log_keeps_the_most_recent_entries_witness :
  ∃ s', on_events fresh_session
          [Log_entryAdded {| log_source := "network"; log_level := "error";
                             log_text := "failed"; log_timestamp := 0 |};
           Debugger_resumed] 0
        = Return s'
        ∧ DebugSession.getLogEntries s'
          = [{| log_source := "network"; log_level := "error";
                log_text := "failed"; log_timestamp := 0 |}].
Proof.
  eexists. split; [reflexivity|].
  exact (proj1 (log_keeps_the_most_recent_entries
                  [Log_entryAdded {| log_source := "network"; log_level := "error";
                                     log_text := "failed"; log_timestamp := 0 |};
                   Debugger_resumed] fresh_session _ 0 eq_refl ltac:(simpl; lia))).
Defined.

(** ** Service worker registrations *)




(** ** Switching domains on and off *)

(** X23. [enableFetch] never hands Chrome an empty pattern list. With no
    patterns given and no enabled rule, and also with an empty list
    given, the one pattern sent is the catch-all, which intercepts
    every request. Patterns that are given are sent as they are, and
    the rules are not consulted. When the call succeeds the interceptor
    is enabled and keeps its rules and its paused requests; when it
    fails the interceptor is as it was. *)
Theorem enableFetch_always_sends_a_pattern (s : DebugSession.t)
    (patterns : option (list DebugSession.FetchPattern)) (reply : Reply) :
  let sent := DebugSession.actual_patterns s patterns in
  let r := DebugSession.enableFetch s patterns reply in
  (0 < length sent)%nat
  ∧ (∀ given, patterns = Some given → (0 < length given)%nat → sent = given)
  ∧ (patterns = Some [] → sent = [DebugSession.catch_all])
  ∧ (patterns = None →
     Forall (fun rule => rule_enabled rule = false)
       (FetchInterceptor.getAllRules (DebugSession.fetchInterceptor s)) →
     sent = [DebugSession.catch_all])
  ∧ (online s →
     ∃ frame, last (CDPClient.wire (DebugSession.client r.2)) = Some frame
              ∧ req_method frame = "Fetch.enable"
              ∧ req_params frame
                = Some [("patterns", JArr (map DebugSession.pattern_json sent))])
  ∧ match r.1 with
    | Return _ =>
        FetchInterceptor.isEnabled (DebugSession.fetchInterceptor r.2) = true
        ∧ FetchInterceptor.getAllRules (DebugSession.fetchInterceptor r.2)
          = FetchInterceptor.getAllRules (DebugSession.fetchInterceptor s)
        ∧ FetchInterceptor.getAllPausedRequests (DebugSession.fetchInterceptor r.2)
          = FetchInterceptor.getAllPausedRequests (DebugSession.fetchInterceptor s)
    | Throw _ => DebugSession.fetchInterceptor r.2 = DebugSession.fetchInterceptor s
    end.
Proof.
  intros sent r. split_and!.
  - subst sent. unfold DebugSession.actual_patterns. destruct (default _ patterns); simpl; lia.
  - intros given -> Hlen. subst sent. unfold DebugSession.actual_patterns. simpl.
    destruct given; [simpl in Hlen; lia | done].
  - by intros ->.
  - intros -> Hoff. subst sent. unfold DebugSession.actual_patterns. simpl.
    by rewrite (getCDPPatterns_off (DebugSession.fetchInterceptor s) Hoff).
  - intros [Hws Hc]. subst r. unfold DebugSession.enableFetch, DebugSession.command,
      await_send, CDPClient.send. rewrite Hws, Hc. cbn [negb orb]. fold sent.
    match goal with
    | |- context [apply_reply ?c0 ?i ?m ?rep] =>
        pose proof (wire_apply_reply c0 i m rep) as Hwire;
        destruct (apply_reply c0 i m rep) as [[v|e] c']
    end; cbn [fst snd DebugSession.client DebugSession.with_client
              DebugSession.with_fetchInterceptor] in *; rewrite Hwire; cbn [CDPClient.wire];
      rewrite last_snoc; eexists; by split_and!.
  - subst r. unfold DebugSession.enableFetch, DebugSession.command.
    by destruct (await_send _ _ _ _) as [[v|e] c].
Qed.

(** X24. Switching a domain off clears what it collected, once Chrome
    has confirmed. On a session whose socket is open, each of
    [disableDebugger], [disableNetwork] and [disableRuntime] writes its
    frame. When Chrome answers with a result the call returns, and
    then no breakpoint and no pause is left and pausing on exceptions
    is off; no request is stored; no console message and no exception
    is stored, while the numbering of messages goes on. When the call
    is answered by a protocol error, a timeout or the close of the
    connection it throws that error, and the domain keeps its data and
    stays enabled as it was. Without an open socket the call throws
    [Not connected] and the session is as it was. *)
Theorem disabling_a_domain_clears_it (s : DebugSession.t) (reply : Reply) :
  let id := (CDPClient.requestId (DebugSession.client s) + 1)%N in
  (online s →
   (let r := DebugSession.disableDebugger s reply in
    CDPClient.wire (DebugSession.client r.2)
    = CDPClient.wire (DebugSession.client s)
      ++ [frame_of (DebugSession.client s) "Debugger.disable" None]
    ∧ match failure id "Debugger.disable" reply with
      | None =>
          r.1 = Return ()
          ∧ DebugState.isEnabled (DebugSession.debugState r.2) = false
          ∧ DebugState.getAllBreakpoints (DebugSession.debugState r.2) = []
          ∧ DebugState.isPaused (DebugSession.debugState r.2) = false
          ∧ DebugState.getPauseOnExceptions (DebugSession.debugState r.2) = poe_none
      | Some e => r.1 = Throw e ∧ DebugSession.debugState r.2 = DebugSession.debugState s
      end)
   ∧ (let r := DebugSession.disableNetwork s reply in
      CDPClient.wire (DebugSession.client r.2)
      = CDPClient.wire (DebugSession.client s)
        ++ [frame_of (DebugSession.client s) "Network.disable" None]
      ∧ match failure id "Network.disable" reply with
        | None =>
            r.1 = Return ()
            ∧ NetworkState.isEnabled (DebugSession.networkState r.2) = false
            ∧ NetworkState.getAllRequests (DebugSession.networkState r.2) = []
            ∧ NetworkState.maxRequests (DebugSession.networkState r.2)
              = NetworkState.maxRequests (DebugSession.networkState s)
        | Some e =>
            r.1 = Throw e ∧ DebugSession.networkState r.2 = DebugSession.networkState s
        end)
   ∧ (let r := DebugSession.disableRuntime s reply in
      CDPClient.wire (DebugSession.client r.2)
      = CDPClient.wire (DebugSession.client s)
        ++ [frame_of (DebugSession.client s) "Runtime.disable" None]
      ∧ match failure id "Runtime.disable" reply with
        | None =>
            r.1 = Return ()
            ∧ ConsoleState.isEnabled (DebugSession.consoleState r.2) = false
            ∧ ConsoleState.getMessages (DebugSession.consoleState r.2) = []
            ∧ ConsoleState.getExceptions (DebugSession.consoleState r.2) = []
            ∧ ConsoleState.messageIdCounter (DebugSession.consoleState r.2)
              = ConsoleState.messageIdCounter (DebugSession.consoleState s)
        | Some e =>
            r.1 = Throw e ∧ DebugSession.consoleState r.2 = DebugSession.consoleState s
        end))
  ∧ (CDPClient.ws (DebugSession.client s) = false
     ∨ CDPClient.connected (DebugSession.client s) = false →
     DebugSession.disableDebugger s reply = (Throw (Error "Not connected"), s)
     ∧ DebugSession.disableNetwork s reply = (Throw (Error "Not connected"), s)
     ∧ DebugSession.disableRuntime s reply = (Throw (Error "Not connected"), s)).
Proof.
  intros id. split.
  - intros Hon. split_and!.
    + unfold DebugSession.disableDebugger.
      match goal with
      | |- context [DebugSession.command s ?m ?p reply ?after] =>
          destruct (command_by_reply s m p reply after Hon ltac:(done)) as [Hwire Hout]
      end.
      split; [exact Hwire|]. fold id in Hout.
      destruct (failure id "Debugger.disable" reply) as [e|].
      * destruct Hout as [He Hs]. split; [done|]. by rewrite Hs.
      * destruct Hout as (Hr & Hs & _). split; [done|]. by rewrite Hs.
    + unfold DebugSession.disableNetwork.
      match goal with
      | |- context [DebugSession.command s ?m ?p reply ?after] =>
          destruct (command_by_reply s m p reply after Hon ltac:(done)) as [Hwire Hout]
      end.
      split; [exact Hwire|]. fold id in Hout.
      destruct (failure id "Network.disable" reply) as [e|].
      * destruct Hout as [He Hs]. split; [done|]. by rewrite Hs.
      * destruct Hout as (Hr & Hs & _). split; [done|]. by rewrite Hs.
    + unfold DebugSession.disableRuntime.
      match goal with
      | |- context [DebugSession.command s ?m ?p reply ?after] =>
          destruct (command_by_reply s m p reply after Hon ltac:(done)) as [Hwire Hout]
      end.
      split; [exact Hwire|]. fold id in Hout.
      destruct (failure id "Runtime.disable" reply) as [e|].
      * destruct Hout as [He Hs]. split; [done|]. by rewrite Hs.
      * destruct Hout as (Hr & Hs & _). split; [done|]. by rewrite Hs.
  - intros Hoff. unfold DebugSession.disableDebugger, DebugSession.disableNetwork,
      DebugSession.disableRuntime. by rewrite !command_offline.
Qed.

(** A connected session that has collected a breakpoint, a request and
    a console message. *)
Definition busy_session : DebugSession.t :=
  let s1 := DebugSession.with_debugState fresh_session
              (DebugState.addBreakpoint (DebugSession.debugState fresh_session)
                 (sample_breakpoint "bp1" [sample_location 10])) in
  let s2 := DebugSession.with_networkState s1
              (NetworkState.onRequestWillBeSent (DebugSession.networkState s1)
                 (sample_sent "req1")) in
  DebugSession.with_consoleState s2
    (ConsoleState.onConsoleAPICalled (DebugSession.consoleState s2)
       {| cac_type := "log"; cac_args := []; cac_executionContextId := 1;
          cac_timestamp := 0; cac_stackTrace := None |}).2.

Lemma disabling_a_domain_clears_it_witness :
  (length (DebugState.getAllBreakpoints (DebugSession.debugState busy_session)) = 1%nat
   ∧ length (NetworkState.getAllRequests (DebugSession.networkState busy_session)) = 1%nat
   ∧ length (ConsoleState.getMessages (DebugSession.consoleState busy_session)) = 1%nat)
  ∧ (let r := DebugSession.disableDebugger busy_session (ReplyResult None) in
     r.1 = Return () ∧ DebugState.getAllBreakpoints (DebugSession.debugState r.2) = [])
  ∧ (let r := DebugSession.disableNetwork busy_session (ReplyResult None) in
     r.1 = Return () ∧ NetworkState.getAllRequests (DebugSession.networkState r.2) = [])
  ∧ (let r := DebugSession.disableRuntime busy_session (ReplyResult None) in
     r.1 = Return () ∧ ConsoleState.getMessages (DebugSession.consoleState r.2) = [])
  ∧ (let r := DebugSession.disableDebugger busy_session ReplyTimeout in
     r.1 = Throw (Error "Request timeout: Debugger.disable (1)")
     ∧ length (DebugState.getAllBreakpoints (DebugSession.debugState r.2)) = 1%nat).
Proof.
  assert (Hon : online busy_session) by (by split).
  destruct (proj1 (disabling_a_domain_clears_it busy_session (ReplyResult None)) Hon)
    as ((_ & Hd1 & _ & Hd2 & _) & (_ & Hn1 & _ & Hn2 & _) & (_ & Hr1 & _ & Hr2 & _)).
  destruct (proj1 (disabling_a_domain_clears_it busy_session ReplyTimeout) Hon)
    as ((_ & Ht1 & Ht2) & _).
  cbv zeta. split_and!.
  - reflexivity.
  - reflexivity.
  - reflexivity.
  - exact Hd1.
  - exact Hd2.
  - exact Hn1.
  - exact Hn2.
  - exact Hr1.
  - exact Hr2.
  - exact Ht1.
  - by rewrite Ht2.
Defined.

(** X25. [getResponseBody] stores the body with the request it belongs
    to. On a session whose socket is open the call writes its
    [Network.getResponseBody] frame with the request id. When Chrome
    answers with a result the call returns; for a stored request the
    record then carries the body and the base64 flag of the result and
    is otherwise the same request, and for a request id that is not
    stored nothing is kept; no other record changes. When the call is
    answered by a protocol error, a timeout or the close of the
    connection it throws that error and stores nothing. Without an
    open socket it throws [Not connected] and the session is as it
    was. *)
Theorem getResponseBody_stores_the_body (s : DebugSession.t) (requestId : string)
    (reply : Reply) (body : string) (base64Encoded : bool) :
  let r := DebugSession.getResponseBody s requestId reply body base64Encoded in
  (online s →
   CDPClient.wire (DebugSession.client r.2)
   = CDPClient.wire (DebugSession.client s)
     ++ [frame_of (DebugSession.client s) "Network.getResponseBody"
           (Some [("requestId", JStr requestId)])]
   ∧ match failure (CDPClient.requestId (DebugSession.client s) + 1)
             "Network.getResponseBody" reply with
     | None =>
         r.1 = Return ()
         ∧ match NetworkState.getRequest (DebugSession.networkState s) requestId with
           | Some req =>
               ∃ req', NetworkState.getRequest (DebugSession.networkState r.2) requestId
                       = Some req'
                       ∧ cr_responseBody req' = Some body
                       ∧ cr_responseBodyBase64 req' = Some base64Encoded
                       ∧ cr_url req' = cr_url req ∧ cr_status req' = cr_status req
                       ∧ cr_failed req' = cr_failed req
           | None => DebugSession.networkState r.2 = DebugSession.networkState s
           end
         ∧ ∀ other, other ≠ requestId →
             NetworkState.getRequest (DebugSession.networkState r.2) other
             = NetworkState.getRequest (DebugSession.networkState s) other
     | Some e => r.1 = Throw e ∧ DebugSession.networkState r.2 = DebugSession.networkState s
     end)
  ∧ (CDPClient.ws (DebugSession.client s) = false
     ∨ CDPClient.connected (DebugSession.client s) = false →
     r = (Throw (Error "Not connected"), s)).
Proof.
  intros r. subst r. unfold DebugSession.getResponseBody. split.
  - intros Hon.
    match goal with
    | |- context [DebugSession.command s ?m ?p reply ?after] =>
        destruct (command_by_reply s m p reply after Hon ltac:(done)) as [Hwire Hout]
    end.
    split; [exact Hwire|].
    destruct (failure _ "Network.getResponseBody" reply) as [e|].
    + destruct Hout as [He Hs]. split; [done|]. by rewrite Hs.
    + destruct Hout as (Hr & Hs & _). split; [done|]. rewrite Hs.
      cbn [DebugSession.networkState DebugSession.with_networkState DebugSession.with_client].
      split.
      * unfold NetworkState.setResponseBody, NetworkState.patch, NetworkState.getRequest.
        destruct (JsMap.get (NetworkState.requests (DebugSession.networkState s)) requestId)
          as [req|]; [|done].
        cbn [NetworkState.requests NetworkState.with_requests]. eexists.
        split; [apply JsMap.get_set_eq | done].
      * intros other Hne.
        exact (progress_other (DebugSession.networkState s)
                 (ResponseBody_ requestId body base64Encoded) other Hne).
  - intros Hoff. by rewrite command_offline.
Qed.

(** A connected session that has seen the request [req1]. *)
Definition session_with_request : DebugSession.t :=
  DebugSession.with_networkState fresh_session
    (NetworkState.onRequestWillBeSent (DebugSession.networkState fresh_session)
       (sample_sent "req1")).

Lemma getResponseBody_stores_the_body_witness :
  (let r := DebugSession.getResponseBody session_with_request "req1" (ReplyResult None)
              "hello" false in
   r.1 = Return ()
   ∧ ∃ req', NetworkState.getRequest (DebugSession.networkState r.2) "req1" = Some req'
             ∧ cr_responseBody req' = Some "hello")
  ∧ (let r := DebugSession.getResponseBody session_with_request "other" (ReplyResult None)
                "hello" false in
     r.1 = Return ()
     ∧ DebugSession.networkState r.2 = DebugSession.networkState session_with_request).
Proof.
  assert (Hon : online session_with_request) by (by split).
  destruct (proj1 (getResponseBody_stores_the_body session_with_request "req1"
                     (ReplyResult None) "hello" false) Hon)
    as (_ & Hr & (req' & Hget & Hbody & _) & _).
  destruct (proj1 (getResponseBody_stores_the_body session_with_request "other"
                     (ReplyResult None) "hello" false) Hon)
    as (_ & Hr' & Hsame & _).
  split; [split; [exact Hr | by exists req'] | split; [exact Hr' | exact Hsame]].
Defined.

(** * Further properties of the script registry *)

(** What every registry built by [addScript] satisfies: scripts are
    stored under their own id, and every id listed under a URL names a
    stored script, each once. *)
Record registry_inv (s : ScriptRegistry.t) : Prop := {
  reg_keys : Forall (fun e => scriptId e.2 = e.1) (ScriptRegistry.scripts s);
  reg_listed :
    Forall (fun e => NoDup e.2
                     ∧ Forall (fun id => id ∈ JsMap.keys (ScriptRegistry.scripts s)) e.2)
      (ScriptRegistry.urlToScriptIds s);
}.

Lemma keys_set_subseteq {K V} `{EqDecision K} (m : JsMap.t K V) (k k' : K) (v : V) :
  k' ∈ JsMap.keys m → k' ∈ JsMap.keys (JsMap.set m k v).
Proof.
  intros Hin. destruct (decide (k ∈ JsMap.keys m)) as [Hk|Hk].
  - by rewrite JsMap.keys_set_present.
  - rewrite JsMap.keys_set_fresh by done. apply elem_of_app. by left.
Qed.

Lemma key_set_here {K V} `{EqDecision K} (m : JsMap.t K V) (k : K) (v : V) :
  k ∈ JsMap.keys (JsMap.set m k v).
Proof. eapply JsMap.get_Some_keys, JsMap.get_set_eq. Qed.

Lemma registry_inv_new : registry_inv ScriptRegistry.new.
Proof. split; simpl; constructor. Qed.

Lemma registry_inv_addScript (s : ScriptRegistry.t) (script : ScriptInfo) :
  registry_inv s → registry_inv (ScriptRegistry.addScript s script).
Proof.
  intros [Hk Hl]. split; unfold ScriptRegistry.addScript;
    cbn [ScriptRegistry.scripts ScriptRegistry.urlToScriptIds].
  - by apply Forall_set.
  - assert (Hold : Forall (fun e : string * list string =>
              NoDup e.2
              ∧ Forall (fun id => id ∈ JsMap.keys
                          (JsMap.set (ScriptRegistry.scripts s) (scriptId script) script)) e.2)
              (ScriptRegistry.urlToScriptIds s)).
    { eapply Forall_impl; [exact Hl|]. intros e [Hnd Hin]. split; [done|].
      eapply Forall_impl; [exact Hin|]. intros id. apply keys_set_subseteq. }
    destruct (truthy (script_url script)); [|done].
    apply Forall_set; [done|]. cbn [snd].
    assert (Hids : NoDup (default [] (JsMap.get (ScriptRegistry.urlToScriptIds s)
                                        (script_url script)))
                   ∧ Forall (fun id => id ∈ JsMap.keys
                               (JsMap.set (ScriptRegistry.scripts s) (scriptId script) script))
                       (default [] (JsMap.get (ScriptRegistry.urlToScriptIds s)
                                      (script_url script)))).
    { destruct (JsMap.get (ScriptRegistry.urlToScriptIds s) (script_url script)) as [ids|] eqn:Hg.
      - exact (get_Forall _ _ _ _ Hold Hg).
      - split; [apply NoDup_nil_2 | constructor]. }
    destruct Hids as [Hnd Hin]. unfold ScriptRegistry.set_add.
    case_bool_decide as Hseen; [done|]. split.
    + apply NoDup_app. split_and!; [done | | apply NoDup_singleton].
      by intros x Hx ->%list_elem_of_singleton.
    + apply Forall_app. split; [done|]. apply Forall_singleton, key_set_here.
Qed.

Lemma registry_inv_run (scripts : list ScriptInfo) (s : ScriptRegistry.t) :
  registry_inv s → registry_inv (foldl ScriptRegistry.addScript s scripts).
Proof.
  revert s. induction scripts as [|sc scripts IH]; intros s Hinv; [done|].
  simpl. by apply IH, registry_inv_addScript.
Qed.

Lemma NoDup_listed (m : JsMap.t string ScriptInfo) (ids : list string) :
  Forall (fun e => scriptId e.2 = e.1) m → NoDup ids →
  NoDup (map scriptId (omap (JsMap.get m) ids)).
Proof.
  intros Hk. induction ids as [|id ids IH]; intros Hnd; [apply NoDup_nil_2|].
  apply NoDup_cons in Hnd as [Hni Hnd]. cbn [omap list_omap].
  destruct (JsMap.get m id) as [found|] eqn:Hget; [|by apply IH].
  cbn [map]. apply NoDup_cons. split; [|by apply IH].
  intros (other & Hid & (id' & Hin & Hget')%list_elem_of_omap)%list_elem_of_fmap.
  pose proof (get_Forall _ _ _ _ Hk Hget) as H1.
  pose proof (get_Forall _ _ _ _ Hk Hget') as H2. simpl in H1, H2. congruence.
Qed.

(** X26. The registry after any run of [addScript]. A script just added
    is what [getScript] returns for its id, and, when its URL is not
    empty, it is among the scripts [getScriptsByUrl] lists for that
    URL. Every lookup returns a script stored under the id asked for.
    Every script listed under a URL is one of the stored scripts, no
    script is listed twice, and a script whose URL is empty is listed
    under no URL. Adding a script does not change what [getScript]
    returns for another id. *)
Theorem registry_lookups_after_addScript (scripts : list ScriptInfo) (script : ScriptInfo) :
  let s := foldl ScriptRegistry.addScript ScriptRegistry.new scripts in
  let s' := ScriptRegistry.addScript s script in
  ScriptRegistry.getScript s' (scriptId script) = Some script
  ∧ (truthy (script_url script) = true →
     script ∈ ScriptRegistry.getScriptsByUrl s' (script_url script))
  ∧ (truthy (script_url script) = false →
     ∀ url, ScriptRegistry.getScriptsByUrl s' url
            = omap (JsMap.get (ScriptRegistry.scripts s'))
                (default [] (JsMap.get (ScriptRegistry.urlToScriptIds s) url)))
  ∧ (∀ other, other ≠ scriptId script →
       ScriptRegistry.getScript s' other = ScriptRegistry.getScript s other)
  ∧ (∀ id found, ScriptRegistry.getScript s' id = Some found → scriptId found = id)
  ∧ (∀ url found, found ∈ ScriptRegistry.getScriptsByUrl s' url →
       found ∈ ScriptRegistry.getAllScripts s')
  ∧ (∀ url, NoDup (map scriptId (ScriptRegistry.getScriptsByUrl s' url)))
  ∧ ScriptRegistry.getScriptsByUrl s' EmptyString = [].
Proof.
  intros s s'.
  assert (Hinv : registry_inv s) by apply registry_inv_run, registry_inv_new.
  assert (Hinv' : registry_inv s') by (by apply registry_inv_addScript).
  destruct Hinv' as [Hk' Hl'].
  assert (Hlisted : ∀ url ids, JsMap.get (ScriptRegistry.urlToScriptIds s') url = Some ids →
            NoDup ids ∧ Forall (fun id => id ∈ JsMap.keys (ScriptRegistry.scripts s')) ids).
  { intros url ids Hg. exact (get_Forall _ _ _ _ Hl' Hg). }
  split_and!.
  - apply JsMap.get_set_eq.
  - intros Hurl. unfold ScriptRegistry.getScriptsByUrl. subst s'.
    unfold ScriptRegistry.addScript at 1.
    cbn [ScriptRegistry.urlToScriptIds]. rewrite Hurl, JsMap.get_set_eq.
    apply list_elem_of_omap. exists (scriptId script). split.
    + unfold ScriptRegistry.set_add. case_bool_decide; [done|].
      apply elem_of_app. right. apply list_elem_of_here.
    + apply JsMap.get_set_eq.
  - intros Hurl url. unfold ScriptRegistry.getScriptsByUrl. subst s'.
    unfold ScriptRegistry.addScript at 1. cbn [ScriptRegistry.urlToScriptIds]. rewrite Hurl.
    by destruct (JsMap.get (ScriptRegistry.urlToScriptIds s) url).
  - intros other Hne. apply JsMap.get_set_ne. congruence.
  - intros id found Hget. exact (get_Forall _ _ _ _ Hk' Hget).
  - intros url found. unfold ScriptRegistry.getScriptsByUrl, ScriptRegistry.getAllScripts.
    destruct (JsMap.get (ScriptRegistry.urlToScriptIds s') url) as [ids|]; [|by intros ?%elem_of_nil].
    intros (id & _ & Hget)%list_elem_of_omap. by eapply get_Some_values.
  - intros url. unfold ScriptRegistry.getScriptsByUrl.
    destruct (JsMap.get (ScriptRegistry.urlToScriptIds s') url) as [ids|] eqn:Hg;
      [|apply NoDup_nil_2].
    destruct (Hlisted url ids Hg) as [Hnd _]. by apply NoDup_listed.
  - unfold ScriptRegistry.getScriptsByUrl.
    destruct (JsMap.get (ScriptRegistry.urlToScriptIds s') EmptyString) as [ids|] eqn:Hg; [|done].
    exfalso. apply JsMap.get_Some_keys in Hg. clear -Hg.
    assert (Hnever : ∀ l s0, EmptyString ∉ JsMap.keys (ScriptRegistry.urlToScriptIds s0) →
              EmptyString ∉ JsMap.keys (ScriptRegistry.urlToScriptIds
                                          (foldl ScriptRegistry.addScript s0 l))).
    { induction l as [|sc l IH]; intros s0 Hs0; [done|]. simpl. apply IH.
      unfold ScriptRegistry.addScript. cbn [ScriptRegistry.urlToScriptIds].
      destruct (truthy (script_url sc)) eqn:Hu; [|done].
      intros Hin. destruct (decide (script_url sc ∈ JsMap.keys (ScriptRegistry.urlToScriptIds s0))).
      - rewrite JsMap.keys_set_present in Hin by done. done.
      - rewrite JsMap.keys_set_fresh in Hin by done.
        apply elem_of_app in Hin as [Hin|Heq%list_elem_of_singleton]; [done|].
        rewrite <- Heq in Hu. done. }
    apply (Hnever (scripts ++ [script]) ScriptRegistry.new); [apply not_elem_of_nil|].
    by rewrite foldl_app.
Qed.

(** X27. Which script [findScriptForLocation] picks. It answers with no
    script only when no script is listed for the URL. Otherwise it
    answers with a script listed for the URL: the first one whose line
    range contains the line, if there is one, and the first one listed
    if none contains the line, so the script returned need not contain
    the line. *)
Theorem findScriptForLocation_picks (s : ScriptRegistry.t) (url : string) (lineNumber : Z) :
  let listed := ScriptRegistry.getScriptsByUrl s url in
  let contains sc := (startLine sc ≤ lineNumber ≤ endLine sc)%Z in
  match ScriptRegistry.findScriptForLocation s url lineNumber with
  | None => listed = []
  | Some found =>
      found ∈ listed
      ∧ ((contains found
          ∧ ∃ before after, listed = before ++ found :: after
                            ∧ Forall (fun sc => ¬ contains sc) before)
         ∨ (Forall (fun sc => ¬ contains sc) listed ∧ head listed = Some found))
  end.
Proof.
  intros listed contains. unfold ScriptRegistry.findScriptForLocation. fold listed.
  assert (Hfind : ∀ l,
            match List.find (fun sc => (startLine sc <=? lineNumber)%Z
                                       && (lineNumber <=? endLine sc)%Z) l with
            | Some found =>
                contains found
                ∧ ∃ before after, l = before ++ found :: after
                                  ∧ Forall (fun sc => ¬ contains sc) before
            | None => Forall (fun sc => ¬ contains sc) l
            end).
  { induction l as [|sc l IH]; simpl; [constructor|].
    destruct ((startLine sc <=? lineNumber)%Z && (lineNumber <=? endLine sc)%Z) eqn:Hin.
    - split; [unfold contains; lia|]. exists [], l. split; [done | constructor].
    - destruct (List.find _ l) as [found|].
      + destruct IH as (Hc & before & after & -> & Hb). split; [done|].
        exists (sc :: before), after. split; [done|]. constructor; [unfold contains; lia | done].
      + constructor; [unfold contains; lia | done]. }
  specialize (Hfind listed). destruct listed as [|first rest] eqn:Hl; [done|].
  destruct (List.find _ (first :: rest)) as [found|].
  - destruct Hfind as (Hc & before & after & Heq & Hb). split.
    + rewrite Heq. apply elem_of_app. right. apply list_elem_of_here.
    + left. split; [done|]. by exists before, after.
  - split; [apply list_elem_of_here|]. by right.
Qed.

(** * Further properties of the debug state *)

(** X28. Which breakpoint [findBreakpointByLocation] picks: the first
    breakpoint, in the order the breakpoints were added, that has a
    resolved location in the script and on the line asked for, and in
    the column asked for when a column is given. It answers with no
    breakpoint exactly when no breakpoint has such a location. The
    locations a breakpoint was requested at play no part, only the
    resolved ones. *)
Theorem findBreakpointByLocation_picks (s : DebugState.t) (script : string) (lineNumber : Z)
    (columnNumber : option Z) :
  let hits loc :=
    loc_scriptId loc = script ∧ loc_lineNumber loc = lineNumber
    ∧ match columnNumber with
      | None => True
      | Some c => loc_columnNumber loc = Some c
      end in
  let resolved_at bp := ∃ loc, loc ∈ bp_locations bp ∧ hits loc in
  match DebugState.findBreakpointByLocation s script lineNumber columnNumber with
  | Some bp =>
      resolved_at bp
      ∧ ∃ before after, DebugState.getAllBreakpoints s = before ++ bp :: after
                        ∧ Forall (fun other => ¬ resolved_at other) before
  | None => Forall (fun other => ¬ resolved_at other) (DebugState.getAllBreakpoints s)
  end.
Proof.
  intros hits resolved_at.
  assert (Hhit : ∀ loc, DebugState.location_hits script lineNumber columnNumber loc = true
                        ↔ hits loc).
  { intros loc. unfold DebugState.location_hits, hits.
    rewrite !andb_true_iff, String.eqb_eq, Z.eqb_eq.
    destruct columnNumber as [c|]; [|intuition].
    destruct (loc_columnNumber loc) as [c'|]; [rewrite Z.eqb_eq|];
      intuition (congruence || discriminate). }
  assert (Hres : ∀ bp, existsb (DebugState.location_hits script lineNumber columnNumber)
                         (bp_locations bp) = true ↔ resolved_at bp).
  { intros bp. rewrite existsb_exists. unfold resolved_at. split.
    - intros (loc & Hin%list_elem_of_In & Hh). exists loc. by rewrite <- Hhit.
    - intros (loc & Hin & Hh). exists loc. split; [by apply list_elem_of_In | by apply Hhit]. }
  unfold DebugState.findBreakpointByLocation, DebugState.getAllBreakpoints.
  induction (JsMap.values (DebugState.breakpoints s)) as [|bp bps IH]; simpl; [constructor|].
  destruct (existsb _ (bp_locations bp)) eqn:Hb.
  - split; [by apply Hres|]. exists [], bps. split; [done | constructor].
  - assert (Hno : ¬ resolved_at bp) by (rewrite <- Hres; congruence).
    destruct (List.find _ bps) as [found|].
    + destruct IH as (Hr & before & after & -> & Hbefore). split; [done|].
      exists (bp :: before), after. split; [done | by constructor].
    + by constructor.
Qed.

(** * Properties of the listing tools *)

(** What a limit keeps of a list, by the kind of number it is. The
    whole part of a finite limit, cut towards zero, decides: when it
    is positive, that many of the most recent entries are kept; when
    it is zero, as for every limit strictly between -1 and 1, all are
    kept; when it is negative, that many of the oldest are dropped.
    No limit, [NaN] and plus infinity keep all, minus infinity
    none. *)
Definition kept_by_limit {A} (limit : option JsNumber) (l : list A) : list A :=
  match limit with
  | None | Some NotANumber | Some PlusInfinity => l
  | Some MinusInfinity => []
  | Some (Finite num den) =>
      let whole := (num ÷ Z.pos den)%Z in
      if (0 <? whole)%Z then most_recent (Z.to_nat whole) l
      else if (whole <? 0)%Z then drop (Z.to_nat (- whole)) l
      else l
  end.

Lemma apply_limit_kept {A} (limit : option JsNumber) (l : list A) :
  apply_limit limit l = kept_by_limit limit l.
Proof.
  unfold apply_limit, kept_by_limit. destruct limit as [[num den| | |]|]; try done.
  cbn [truthy_number negated slice_from].
  rewrite Z.quot_opp_l by lia. set (whole := (num ÷ Z.pos den)%Z).
  destruct (Z.eqb_spec num 0) as [Hzero|Hne]; cbn [negb].
  - assert (whole = 0%Z) as -> by (subst whole; by rewrite Hzero). done.
  - unfold most_recent.
    destruct (Z.ltb_spec 0 whole) as [Hpos|Hnonpos].
    + destruct (Z.ltb_spec (- whole) 0); [|lia]. f_equal. lia.
    + destruct (Z.ltb_spec (- whole) 0); [lia|].
      destruct (Z.ltb_spec whole 0) as [Hneg|Hzero].
      * destruct (decide (- whole ≤ Z.of_nat (length l))%Z).
        -- f_equal. lia.
        -- rewrite !drop_ge by lia. done.
      * assert (whole = 0%Z) as -> by lia.
        by replace (Z.to_nat (Z.min (- 0) (Z.of_nat (length l)))) with 0%nat by lia.
Qed.

Lemma kept_by_limit_sublist {A} (limit : option JsNumber) (l : list A) :
  sublist (kept_by_limit limit l) l.
Proof.
  unfold kept_by_limit, most_recent. destruct limit as [[num den| | |]|]; try done.
  - repeat case_match; done || apply sublist_drop.
  - apply sublist_nil_l.
Qed.

Lemma kept_by_limit_whole {A} (n : positive) (l : list A) :
  kept_by_limit (Some (Finite (Z.pos n) 1)) l = most_recent (Pos.to_nat n) l.
Proof.
  cbn [kept_by_limit]. rewrite Z.quot_1_r.
  by replace (Z.to_nat (Z.pos n)) with (Pos.to_nat n) by lia.
Qed.

Lemma filter_twice {A} (f g : A → bool) (l : list A) :
  List.filter g (List.filter f l) = List.filter (fun x => f x && g x) l.
Proof.
  induction l as [|a l IH]; [done|]. simpl.
  destruct (f a); simpl; [destruct (g a)|]; by rewrite ?IH.
Qed.

Lemma filter_sublist {A} (f : A → bool) (l : list A) : sublist (List.filter f l) l.
Proof.
  induction l as [|a l IH]; simpl; [constructor|]. destruct (f a); by constructor.
Qed.

(** A filter argument that is absent or the empty string lets every
    value through; any other lets through the values equal to it. *)
Definition passes_filter (given : option string) (value : string) : bool :=
  match given with
  | Some wanted => if truthy wanted then String.eqb value wanted else true
  | None => true
  end.

Lemma conditional_filter {A} (given : option string) (field : A → string) (l : list A) :
  (if truthy_opt given
   then List.filter (fun x => String.eqb (field x) (default EmptyString given)) l
   else l)
  = List.filter (fun x => passes_filter given (field x)) l.
Proof.
  assert (Hall : List.filter (fun _ : A => true) l = l).
  { induction l as [|a l IH]; [done|]. simpl. by rewrite IH. }
  unfold passes_filter. destruct given as [wanted|]; simpl; [|done].
  by destruct (truthy wanted).
Qed.

(** The entries [get_log_entries] lets through. *)
Definition wanted_entry (p : LogTools.GetLogEntriesArgs) (e : LogEntry) : bool :=
  passes_filter (LogTools.gl_level p) (log_level e)
  && passes_filter (LogTools.gl_source p) (log_source e).

(** X29. The entries [get_log_entries] reports are exactly the log
    entries of the session that pass the level and the source filter,
    each as often and in the order it is in the log, cut by the limit.
    A limit that is a positive whole number keeps the most recent
    entries, as many as it says, or all when fewer passed. A limit
    that is not a whole number counts by its whole part, so a limit
    strictly between 0 and 1 keeps every entry; no limit and a limit of
    zero keep every entry; a negative limit keeps no number of entries
    but drops that many of the oldest. *)
Theorem limit_keeps_the_most_recent (s : DebugSession.t) (p : LogTools.GetLogEntriesArgs) :
  let filtered := List.filter (wanted_entry p) (DebugSession.getLogEntries s) in
  let selected := LogTools.getLogEntries_selected s p in
  selected = kept_by_limit (LogTools.gl_limit p) filtered
  ∧ (∀ e, e ∈ filtered ↔
          e ∈ DebugSession.getLogEntries s
          ∧ (∀ level, LogTools.gl_level p = Some level → truthy level = true →
               log_level e = level)
          ∧ (∀ source, LogTools.gl_source p = Some source → truthy source = true →
               log_source e = source))
  ∧ (LogTools.gl_limit p = None → selected = filtered)
  ∧ (∀ n : positive, LogTools.gl_limit p = Some (Finite (Z.pos n) 1) →
       selected = most_recent (Pos.to_nat n) filtered
       ∧ length selected = Nat.min (Pos.to_nat n) (length filtered))
  ∧ (∀ num den, LogTools.gl_limit p = Some (Finite num den) →
       (- Z.pos den < num < Z.pos den)%Z → selected = filtered)
  ∧ (∀ n : positive, LogTools.gl_limit p = Some (Finite (Z.neg n) 1) →
       selected = drop (Pos.to_nat n) filtered)
  ∧ sublist selected (DebugSession.getLogEntries s).
Proof.
  intros filtered selected.
  assert (Hsel : selected = kept_by_limit (LogTools.gl_limit p) filtered).
  { subst selected filtered. unfold LogTools.getLogEntries_selected. cbv zeta.
    rewrite apply_limit_kept.
    rewrite (conditional_filter (LogTools.gl_level p) log_level).
    rewrite (conditional_filter (LogTools.gl_source p) log_source).
    by rewrite filter_twice. }
  split_and!.
  - exact Hsel.
  - intros e. subst filtered. rewrite list_elem_of_In, filter_In, <- list_elem_of_In.
    unfold wanted_entry, passes_filter. rewrite andb_true_iff.
    destruct (LogTools.gl_level p) as [level|], (LogTools.gl_source p) as [source|];
      repeat match goal with |- context [truthy ?x] => destruct (truthy x) eqn:? end;
      rewrite ?String.eqb_eq; split;
      try (intros (? & ? & ?); split_and!; try done;
           intros ? [= <-] ?; done || congruence);
      try (intros (? & Hl & Hs); split_and!; try done;
           first [by apply Hl | by apply Hs]).
  - intros Hnone. by rewrite Hsel, Hnone.
  - intros n Hn. rewrite Hsel, Hn. cbn [kept_by_limit]. rewrite Z.quot_1_r.
    replace (Z.to_nat (Z.pos n)) with (Pos.to_nat n) by lia.
    split; [done | apply most_recent_length].
  - intros num den Hn Hsmall. rewrite Hsel, Hn. cbn [kept_by_limit].
    assert (Hwhole : (num ÷ Z.pos den)%Z = 0%Z).
    { destruct (decide (0 ≤ num)%Z).
      - apply Z.quot_small. lia.
      - rewrite <- (Z.opp_involutive num), Z.quot_opp_l by lia.
        rewrite Z.quot_small by lia. done. }
    by rewrite Hwhole.
  - intros n Hn. rewrite Hsel, Hn. cbn [kept_by_limit]. rewrite Z.quot_1_r.
    replace (Z.to_nat (- Z.neg n)) with (Pos.to_nat n) by lia. done.
  - rewrite Hsel. etrans; [apply kept_by_limit_sublist|]. apply filter_sublist.
Qed.

(** The requests [list_requests] lets through, given the compiled URL
    pattern, if a pattern was given. *)
Definition wanted_request `{RegExpEngine} (p : NetworkTools.ListRequestsArgs)
    (regex : option RegExp) (r : CollectedRequest) : bool :=
  match regex with Some re => regexp_test re (cr_url r) | None => true end
  && passes_filter (NetworkTools.lr_resourceType p) (cr_resourceType r)
  && (if default false (NetworkTools.lr_failedOnly p) then NetworkState.is_failed r else true).

(** X30. What [list_requests] selects. A URL pattern that is given and
    is not the empty string is compiled first; when it does not
    compile, the selection fails with the error of the engine and
    nothing is listed. Otherwise the requests selected are exactly
    the collected requests, each once and in collection order, whose
    URL the compiled pattern matches, whose resource type is the one
    asked for and which have failed when [failedOnly] is set, as far
    as these filters were given, cut by the limit as for the log
    entries. With no argument every collected request is selected. *)
Theorem listRequests_selects `{RegExpEngine} (s : DebugSession.t)
    (p : NetworkTools.ListRequestsArgs) :
  let all := NetworkState.getAllRequests (DebugSession.networkState s) in
  let pattern := default EmptyString (NetworkTools.lr_urlPattern p) in
  let selected := NetworkTools.listRequests_selected s p in
  (truthy_opt (NetworkTools.lr_urlPattern p) = true →
     (∀ e, NetworkState.patternToRegex pattern = Throw e → selected = Throw e)
     ∧ (∀ regex, NetworkState.patternToRegex pattern = Return regex →
          selected
          = Return (kept_by_limit (NetworkTools.lr_limit p)
                      (List.filter (wanted_request p (Some regex)) all))))
  ∧ (truthy_opt (NetworkTools.lr_urlPattern p) = false →
       selected
       = Return (kept_by_limit (NetworkTools.lr_limit p)
                   (List.filter (wanted_request p None) all)))
  ∧ (∀ regex r, wanted_request p regex r = true ↔
       (∀ re, regex = Some re → regexp_test re (cr_url r) = true)
       ∧ (∀ type, NetworkTools.lr_resourceType p = Some type → truthy type = true →
            cr_resourceType r = type)
       ∧ (NetworkTools.lr_failedOnly p = Some true → cr_failed r = Some true))
  ∧ (∀ listed, selected = Return listed →
       sublist listed all
       ∧ ∀ n : positive, NetworkTools.lr_limit p = Some (Finite (Z.pos n) 1) →
           (length listed ≤ Pos.to_nat n)%nat)
  ∧ (NetworkTools.lr_urlPattern p = None → NetworkTools.lr_resourceType p = None →
     NetworkTools.lr_failedOnly p = None → NetworkTools.lr_limit p = None →
     selected = Return all).
Proof.
  intros all pattern selected.
  assert (Hshape : ∀ requests regex,
            List.filter (fun r => match regex with
                                  | Some re => regexp_test re (cr_url r)
                                  | None => true
                                  end) all = requests →
            apply_limit (NetworkTools.lr_limit p)
              (if default false (NetworkTools.lr_failedOnly p)
               then List.filter NetworkState.is_failed
                      (if truthy_opt (NetworkTools.lr_resourceType p)
                       then List.filter
                              (fun r => String.eqb (cr_resourceType r)
                                          (default EmptyString (NetworkTools.lr_resourceType p)))
                              requests
                       else requests)
               else (if truthy_opt (NetworkTools.lr_resourceType p)
                     then List.filter
                            (fun r => String.eqb (cr_resourceType r)
                                        (default EmptyString (NetworkTools.lr_resourceType p)))
                            requests
                     else requests))
            = kept_by_limit (NetworkTools.lr_limit p) (List.filter (wanted_request p regex) all)).
  { intros requests regex <-. rewrite apply_limit_kept. f_equal.
    rewrite (conditional_filter (NetworkTools.lr_resourceType p) cr_resourceType).
    unfold wanted_request.
    destruct (default false (NetworkTools.lr_failedOnly p)); rewrite !filter_twice;
      apply List.filter_ext; intros r; by rewrite ?andb_true_r, ?andb_assoc. }
  assert (Hplain : ∀ l : list CollectedRequest, List.filter (fun _ => true) l = l).
  { induction l as [|a l IH]; [done|]. simpl. by rewrite IH. }
  assert (Hkept : ∀ regex,
            sublist (kept_by_limit (NetworkTools.lr_limit p)
                       (List.filter (wanted_request p regex) all)) all
            ∧ ∀ n : positive, NetworkTools.lr_limit p = Some (Finite (Z.pos n) 1) →
                (length (kept_by_limit (NetworkTools.lr_limit p)
                           (List.filter (wanted_request p regex) all)) ≤ Pos.to_nat n)%nat).
  { intros regex. split.
    - etrans; [apply kept_by_limit_sublist | apply filter_sublist].
    - intros n ->. rewrite kept_by_limit_whole, most_recent_length. lia. }
  assert (Hwith : truthy_opt (NetworkTools.lr_urlPattern p) = true →
            selected = match NetworkState.patternToRegex pattern with
                       | Throw e => Throw e
                       | Return regex =>
                           Return (kept_by_limit (NetworkTools.lr_limit p)
                                     (List.filter (wanted_request p (Some regex)) all))
                       end).
  { intros Hurl. subst selected. unfold NetworkTools.listRequests_selected.
    rewrite Hurl. unfold NetworkState.getRequestsByUrl. fold pattern. fold all.
    destruct (NetworkState.patternToRegex pattern) as [regex|e]; [|done]. simpl.
    f_equal. by apply (Hshape _ (Some regex)). }
  assert (Hwithout : truthy_opt (NetworkTools.lr_urlPattern p) = false →
            selected = Return (kept_by_limit (NetworkTools.lr_limit p)
                                 (List.filter (wanted_request p None) all))).
  { intros Hurl. subst selected. unfold NetworkTools.listRequests_selected.
    rewrite Hurl. fold all. simpl. f_equal. by apply (Hshape _ None). }
  split_and!.
  - intros Hurl. rewrite (Hwith Hurl). split.
    + by intros e ->.
    + by intros regex ->.
  - exact Hwithout.
  - intros regex r. unfold wanted_request, passes_filter. rewrite !andb_true_iff.
    assert (Hfailed : (if default false (NetworkTools.lr_failedOnly p)
                       then NetworkState.is_failed r else true) = true
                      ↔ (NetworkTools.lr_failedOnly p = Some true → cr_failed r = Some true)).
    { unfold NetworkState.is_failed.
      destruct (NetworkTools.lr_failedOnly p) as [[|]|]; simpl;
        [|split; [by intros _ [=] | done]|split; [by intros _ [=] | done]].
      destruct (cr_failed r) as [[|]|]; simpl; split; try done; intros Hf;
        by specialize (Hf eq_refl). }
    rewrite Hfailed.
    assert (Hurl : match regex with
                   | Some re => regexp_test re (cr_url r)
                   | None => true
                   end = true ↔ ∀ re, regex = Some re → regexp_test re (cr_url r) = true).
    { destruct regex as [re|]; split; try done.
      - by intros Hre re' [= <-].
      - intros Hre. by apply Hre. }
    rewrite Hurl.
    assert (Htype : match NetworkTools.lr_resourceType p with
                    | Some wanted =>
                        if truthy wanted then String.eqb (cr_resourceType r) wanted else true
                    | None => true
                    end = true
                    ↔ ∀ type, NetworkTools.lr_resourceType p = Some type → truthy type = true →
                        cr_resourceType r = type).
    { destruct (NetworkTools.lr_resourceType p) as [wanted|]; [|split; [by intros _ ? [=] | done]].
      destruct (truthy wanted) eqn:Ht; rewrite ?String.eqb_eq; split; try done.
      - by intros Heq type [= <-] _.
      - intros Hty. by apply Hty.
      - intros _ type [= <-] Ht'. congruence. }
    rewrite Htype. tauto.
  - intros listed Hlisted.
    destruct (truthy_opt (NetworkTools.lr_urlPattern p)) eqn:Hurl.
    + rewrite (Hwith eq_refl) in Hlisted.
      destruct (NetworkState.patternToRegex pattern) as [regex|e]; [|done].
      injection Hlisted as <-. apply Hkept.
    + rewrite (Hwithout eq_refl) in Hlisted. injection Hlisted as <-. apply Hkept.
  - intros Hu Ht Hf Hl. rewrite Hwithout by (by rewrite Hu). f_equal.
    rewrite Hl. cbn [kept_by_limit]. rewrite <- (Hplain all) at 2.
    apply List.filter_ext. intros r. unfold wanted_request, passes_filter.
    by rewrite Ht, Hf.
Qed.

(** A connected session that has seen the requests [req1] and [req2]. *)
Definition session_with_requests : DebugSession.t :=
  DebugSession.with_networkState fresh_session
    (foldl NetworkState.onRequestWillBeSent (DebugSession.networkState fresh_session)
       [sample_sent "req1"; sample_sent "req2"]).

Definition list_by (pattern : string) (limit : option JsNumber)
  : NetworkTools.ListRequestsArgs :=
  {| NetworkTools.lr_urlPattern := Some pattern; NetworkTools.lr_resourceType := None;
     NetworkTools.lr_failedOnly := None; NetworkTools.lr_limit := limit |}.

(** The ids of the requests listed, when the selection did not fail. *)
Definition listed_ids (selected : Result (list CollectedRequest)) : option (list string) :=
  match selected with
  | Return listed => Some (map cr_requestId listed)
  | Throw _ => None
  end.

Lemma listRequests_selects_witness :
  NetworkTools.listRequests_selected session_with_requests (list_by "/[invalid/" None)
  = Throw (SyntaxError "[invalid")
  ∧ listed_ids
      (NetworkTools.listRequests_selected session_with_requests
         (list_by "/example/" (Some (Finite 1 1))))
    = Some ["req2"]
  ∧ listed_ids
      (NetworkTools.listRequests_selected session_with_requests
         (list_by "/example/" (Some (Finite 1 2))))
    = Some ["req1"; "req2"].
Proof.
  destruct (listRequests_selects session_with_requests (list_by "/[invalid/" None))
    as (Hbad & _).
  destruct (listRequests_selects session_with_requests
              (list_by "/example/" (Some (Finite 1 1)))) as (Hone & _).
  destruct (listRequests_selects session_with_requests
              (list_by "/example/" (Some (Finite 1 2)))) as (Hhalf & _).
  split_and!.
  - apply (proj1 (Hbad eq_refl)). vm_compute. reflexivity.
  - rewrite (proj2 (Hone eq_refl) "example"); [reflexivity|]. vm_compute. reflexivity.
  - rewrite (proj2 (Hhalf eq_refl) "example"); [reflexivity|]. vm_compute. reflexivity.
Defined.

Definition one_log_entry (text : string) : LogEntry :=
  {| log_source := "network"; log_level := "error"; log_text := text; log_timestamp := 0 |}.

(** A connected session with three log entries. *)
Definition session_with_log : DebugSession.t :=
  DebugSession.with_own fresh_session
    [one_log_entry "first"; one_log_entry "second"; one_log_entry "third"] [] [] None.

Definition log_by (limit : option JsNumber) : LogTools.GetLogEntriesArgs :=
  {| LogTools.gl_level := Some "error"; LogTools.gl_source := None; LogTools.gl_limit := limit |}.

Lemma limit_keeps_the_most_recent_witness :
  log_text <$> LogTools.getLogEntries_selected session_with_log (log_by (Some (Finite 2 1)))
  = ["second"; "third"]
  ∧ log_text <$> LogTools.getLogEntries_selected session_with_log (log_by (Some (Finite 1 2)))
    = ["first"; "second"; "third"]
  ∧ log_text <$> LogTools.getLogEntries_selected session_with_log (log_by (Some (Finite (-1) 1)))
    = ["second"; "third"].
Proof.
  destruct (limit_keeps_the_most_recent session_with_log (log_by (Some (Finite 2 1))))
    as (_ & _ & _ & Hwhole & _).
  destruct (limit_keeps_the_most_recent session_with_log (log_by (Some (Finite 1 2))))
    as (_ & _ & _ & _ & Hfraction & _).
  destruct (limit_keeps_the_most_recent session_with_log (log_by (Some (Finite (-1) 1))))
    as (_ & _ & _ & _ & _ & Hnegative & _).
  split_and!.
  - rewrite (proj1 (Hwhole 2%positive eq_refl)). reflexivity.
  - rewrite (Hfraction 1%Z 2%positive eq_refl ltac:(lia)). reflexivity.
  - rewrite (Hnegative 1%positive eq_refl). reflexivity.
Defined.
